(** * Cyber-Rakshak: access policies, triggers and client flows

    A shallow embedding of
    - [supabase/migrations/20251003141545_....sql]: the schema, the
      row-level-security policies, [has_role], [handle_updated_at] and
      [handle_new_user];
    - [src/pages/ReportIncident.tsx]: [handleSubmit], [handleFileChange]
      and [removeFile];
    - the admin dashboard page: [checkAdminAccess], [fetchAllIncidents],
      [updateIncidentStatus], [updateThreatLevel], [stats] and
      [filterIncidents];
    - the filer's dashboard page: [checkAuth] and [fetchIncidents];
    - [src/components/Navbar.tsx]: the lookup of the user's role;
    - the generated client types: the payloads and [Constants].

    Tables are lists of rows (order and duplicates are visible to the
    constraints), a UUID is its text form, a [TIMESTAMPTZ] is an integer
    number of milliseconds. The migration enables row-level security on
    every table and grants nothing itself: the policies are the only gate
    between a caller and a row. A statement first brings the values it is
    given to the types of their columns, then asks the policies, then
    checks keys and references. What a statement needs besides the
    database, the value of [gen_random_uuid()] and of [NOW()], is an
    argument of its model. *)

From Stdlib Require Import List String Ascii ZArith Bool Lia DecimalString.
From Stdlib Require Import Permutation Sorted.
Import ListNotations.

Local Open Scope string_scope.
Local Open Scope Z_scope.

(** ** Enumerations (migration, lines 2-5) *)

Inductive app_role := user | admin | cert_admin.
Inductive incident_status :=
  submitted | under_review | investigating | resolved | closed.
Inductive threat_level := low | medium | high | critical.
Inductive incident_type :=
  phishing | malware | fraud | espionage | data_breach | other.

Scheme Equality for app_role.
Scheme Equality for incident_status.
Scheme Equality for threat_level.
Scheme Equality for incident_type.

Definition uuid := string.
Definition timestamptz := Z.

(** JSON values as far as [->>] tells them apart: SQL NULL comes out of a
    JSON null, the text of a string, and the rendering of anything else. *)
Inductive json :=
| JNull
| JString (s : string)
| JOther (rendering : string).

(** ** Tables (migration, lines 8-69) *)

Module AuthUsers.
Record row := mk {
  id : uuid;
  raw_user_meta_data : option (list (string * json))
}.
End AuthUsers.

Module Profiles.
Record row := mk {
  id : uuid;
  full_name : string;
  rank : option string;
  unit : option string;
  phone : option string;
  created_at : timestamptz;
  updated_at : timestamptz
}.
End Profiles.

Module UserRoles.
Record row := mk {
  id : uuid;
  user_id : uuid;
  role : app_role;
  assigned_at : timestamptz;
  assigned_by : option uuid
}.
End UserRoles.

Module Incidents.
Record row := mk {
  id : uuid;
  user_id : uuid;
  incident_type : incident_type;
  status : incident_status;
  threat_level : option threat_level;
  title : string;
  description : string;
  location : option string;
  occurred_at : option timestamptz;
  ai_analysis_result : option json;
  recommendations : option (list string);
  assigned_to : option uuid;
  priority_score : option Z;
  created_at : timestamptz;
  updated_at : timestamptz;
  resolved_at : option timestamptz
}.
End Incidents.

Module IncidentFiles.
Record row := mk {
  id : uuid;
  incident_id : uuid;
  file_name : string;
  file_path : string;
  file_type : string;
  file_size : option Z;
  uploaded_at : timestamptz
}.
End IncidentFiles.

Module AuditLogs.
Record row := mk {
  id : uuid;
  user_id : option uuid;
  action : string;
  entity_type : string;
  entity_id : option uuid;
  details : option json;
  ip_address : option string;
  created_at : timestamptz
}.
End AuditLogs.

Module StorageObjects.
Record row := mk {
  bucket_id : string;
  name : string;
  owner : option uuid;
  content_type : string;
  size : Z
}.
End StorageObjects.

Record Database := mkDatabase {
  auth_users : list AuthUsers.row;
  profiles : list Profiles.row;
  user_roles : list UserRoles.row;
  incidents : list Incidents.row;
  incident_files : list IncidentFiles.row;
  audit_logs : list AuditLogs.row;
  storage_objects : list StorageObjects.row
}.

(** ** Errors and results *)

Inductive error :=
| unique_violation (constraint : string)
| foreign_key_violation (table constraint : string)
| invalid_enum_value (type_name value : string)
| invalid_datetime_format (value : string)
| rls_violation (table : string)
| numeric_value_out_of_range (value : Z)
| not_single_row (rows : nat)
| payload_too_large
| invalid_mime_type (mime : string)
| object_already_exists (key : string)
| request_failed.

Inductive result (A : Type) :=
| Ok (a : A)
| Err (e : error).
Arguments Ok {A} a.
Arguments Err {A} e.

Definition is_ok {A} (r : result A) : bool :=
  match r with Ok _ => true | Err _ => false end.

(** ** Column types *)

(** [INTEGER] is a 32-bit signed integer; NULL is of every type. *)
Definition is_int4 (o : option Z) : bool :=
  match o with
  | Some n => (- 2147483648 <=? n) && (n <=? 2147483647)
  | None => true
  end.

(** Bringing a number to [INTEGER] (error 22003 when it does not fit). *)
Definition int4_in (o : option Z) : result unit :=
  match o with
  | Some n => if is_int4 (Some n) then Ok tt
              else Err (numeric_value_out_of_range n)
  | None => Ok tt
  end.

(** ** The caller and [has_role] (migration, lines 79-92) *)

(** [auth.uid()] is NULL for a request without a session; a comparison
    with NULL is not true. *)
Definition uid_eq (auth_uid : option uuid) (x : uuid) : bool :=
  match auth_uid with
  | Some u => String.eqb u x
  | None => false
  end.

Definition has_role (db : Database) (_user_id : option uuid)
    (_role : app_role) : bool :=
  existsb
    (fun r => uid_eq _user_id (UserRoles.user_id r)
              && app_role_beq (UserRoles.role r) _role)
    (user_roles db).

Definition is_privileged (db : Database) (auth_uid : option uuid) : bool :=
  has_role db auth_uid admin || has_role db auth_uid cert_admin.

(** ** Row-level security *)

Inductive command := SELECT | INSERT | UPDATE | DELETE.
Scheme Equality for command.

Inductive policy_for := FOR_ALL | FOR (c : command).

Definition expr (Row : Type) := Database -> option uuid -> Row -> bool.

Record policy (Row : Type) := mkPolicy {
  policy_name : string;
  policy_cmd : policy_for;
  policy_using : option (expr Row);
  policy_with_check : option (expr Row)
}.
Arguments mkPolicy {Row}.
Arguments policy_name {Row}.
Arguments policy_cmd {Row}.
Arguments policy_using {Row}.
Arguments policy_with_check {Row}.

Section Engine.
Context {Row : Type}.
Variable ps : list (policy Row).

Definition applies (c : command) (p : policy Row) : bool :=
  match policy_cmd p with
  | FOR_ALL => true
  | FOR c' => command_beq c c'
  end.

(** A policy without a USING expression grants no existing row. *)
Definition eval_using (p : policy Row) : expr Row :=
  fun db auth_uid r =>
    match policy_using p with
    | Some e => e db auth_uid r
    | None => false
    end.

(** WITH CHECK falls back on USING when it is not given. *)
Definition eval_with_check (p : policy Row) : expr Row :=
  fun db auth_uid r =>
    match policy_with_check p with
    | Some e => e db auth_uid r
    | None => eval_using p db auth_uid r
    end.

(** All policies of the migration are permissive: they are combined
    with OR, and no applicable policy means no access. *)
Definition passes_using (c : command) : expr Row :=
  fun db auth_uid r =>
    existsb (fun p => applies c p && eval_using p db auth_uid r) ps.

Definition passes_with_check (c : command) : expr Row :=
  fun db auth_uid r =>
    existsb (fun p => applies c p && eval_with_check p db auth_uid r) ps.

Definition can_select : expr Row := passes_using SELECT.
Definition can_insert : expr Row := passes_with_check INSERT.
Definition can_delete : expr Row := passes_using DELETE.
Definition can_update (db : Database) (auth_uid : option uuid)
    (old new : Row) : bool :=
  passes_using UPDATE db auth_uid old
  && passes_with_check UPDATE db auth_uid new.
End Engine.

(** ** The policies (migration, lines 94-173 and 236-255) *)

Definition profiles_policies : list (policy Profiles.row) :=
  [ mkPolicy "Users can view their own profile" (FOR SELECT)
      (Some (fun _ auth_uid r => uid_eq auth_uid (Profiles.id r))) None;
    mkPolicy "Users can update their own profile" (FOR UPDATE)
      (Some (fun _ auth_uid r => uid_eq auth_uid (Profiles.id r))) None;
    mkPolicy "Users can insert their own profile" (FOR INSERT)
      None (Some (fun _ auth_uid r => uid_eq auth_uid (Profiles.id r)));
    mkPolicy "Admins can view all profiles" (FOR SELECT)
      (Some (fun db auth_uid _ =>
               has_role db auth_uid admin || has_role db auth_uid cert_admin))
      None ].

Definition user_roles_policies : list (policy UserRoles.row) :=
  [ mkPolicy "Users can view their own roles" (FOR SELECT)
      (Some (fun _ auth_uid r => uid_eq auth_uid (UserRoles.user_id r))) None;
    mkPolicy "Admins can manage all roles" FOR_ALL
      (Some (fun db auth_uid _ => has_role db auth_uid cert_admin)) None ].

Definition incidents_policies : list (policy Incidents.row) :=
  [ mkPolicy "Users can view their own incidents" (FOR SELECT)
      (Some (fun _ auth_uid r => uid_eq auth_uid (Incidents.user_id r))) None;
    mkPolicy "Users can create incidents" (FOR INSERT)
      None (Some (fun _ auth_uid r => uid_eq auth_uid (Incidents.user_id r)));
    mkPolicy "Users can update their own incidents" (FOR UPDATE)
      (Some (fun _ auth_uid r => uid_eq auth_uid (Incidents.user_id r))) None;
    mkPolicy "Admins can view all incidents" (FOR SELECT)
      (Some (fun db auth_uid _ =>
               has_role db auth_uid admin || has_role db auth_uid cert_admin))
      None;
    mkPolicy "Admins can update all incidents" (FOR UPDATE)
      (Some (fun db auth_uid _ =>
               has_role db auth_uid admin || has_role db auth_uid cert_admin))
      None ].

(** [EXISTS (SELECT 1 FROM incidents WHERE incidents.id =
    incident_files.incident_id AND incidents.user_id = auth.uid())]. The
    subquery runs as the caller, so it ranges over the incidents the
    caller may select. *)
Definition owns_parent_incident : expr IncidentFiles.row :=
  fun db auth_uid f =>
    existsb
      (fun i => String.eqb (Incidents.id i) (IncidentFiles.incident_id f)
                && uid_eq auth_uid (Incidents.user_id i))
      (filter (can_select incidents_policies db auth_uid) (incidents db)).

(** The caller owns the incident with this id: the table has such a row,
    whether or not anything else lets the caller see it. *)
Definition owns_incident (db : Database) (auth_uid : option uuid)
    (incident_id : uuid) : bool :=
  existsb
    (fun i => String.eqb (Incidents.id i) incident_id
              && uid_eq auth_uid (Incidents.user_id i))
    (incidents db).

Definition incident_files_policies : list (policy IncidentFiles.row) :=
  [ mkPolicy "Users can view files for their incidents" (FOR SELECT)
      (Some owns_parent_incident) None;
    mkPolicy "Users can upload files to their incidents" (FOR INSERT)
      None (Some owns_parent_incident);
    mkPolicy "Admins can view all incident files" (FOR SELECT)
      (Some (fun db auth_uid _ =>
               has_role db auth_uid admin || has_role db auth_uid cert_admin))
      None ].

Definition audit_logs_policies : list (policy AuditLogs.row) :=
  [ mkPolicy "Admins can view audit logs" (FOR SELECT)
      (Some (fun db auth_uid _ => has_role db auth_uid cert_admin)) None;
    mkPolicy "System can insert audit logs" (FOR INSERT)
      None (Some (fun _ _ _ => true)) ].

(** [storage.foldername(name)]: the segments of the key but the last. *)
Fixpoint split (sep : ascii) (s : string) : list string :=
  match s with
  | EmptyString => [EmptyString]
  | String c s' =>
      if Ascii.eqb c sep then EmptyString :: split sep s'
      else match split sep s' with
           | [] => [String c EmptyString]
           | x :: xs => String c x :: xs
           end
  end.

Definition foldername (name : string) : list string :=
  removelast (split "/" name).

(** [auth.uid()::text = (storage.foldername(name))[1]]; the subscript of
    an element that is not there is NULL. *)
Definition owns_first_folder (auth_uid : option uuid) (name : string) : bool :=
  match auth_uid, hd_error (foldername name) with
  | Some u, Some f => String.eqb u f
  | _, _ => false
  end.

Definition storage_objects_policies : list (policy StorageObjects.row) :=
  [ mkPolicy "Users can upload evidence for their incidents" (FOR INSERT)
      None
      (Some (fun _ auth_uid o =>
               String.eqb (StorageObjects.bucket_id o) "incident-evidence"
               && owns_first_folder auth_uid (StorageObjects.name o)));
    mkPolicy "Users can view their own evidence" (FOR SELECT)
      (Some (fun _ auth_uid o =>
               String.eqb (StorageObjects.bucket_id o) "incident-evidence"
               && owns_first_folder auth_uid (StorageObjects.name o)))
      None;
    mkPolicy "Admins can view all evidence" (FOR SELECT)
      (Some (fun db auth_uid o =>
               String.eqb (StorageObjects.bucket_id o) "incident-evidence"
               && (has_role db auth_uid admin
                   || has_role db auth_uid cert_admin)))
      None ].

(** ** The storage bucket (migration, lines 226-233) *)

Record bucket := mkBucket {
  bucket_name : string;
  bucket_public : bool;
  file_size_limit : Z;
  allowed_mime_types : list string
}.

Definition incident_evidence : bucket :=
  mkBucket "incident-evidence" false 52428800
    [ "image/jpeg"; "image/png"; "image/gif"; "video/mp4";
      "video/quicktime"; "audio/mpeg"; "audio/wav"; "application/pdf";
      "text/plain"; "application/zip" ].

(** ** Triggers (migration, lines 176-223) *)

Class HasUpdatedAt (Row : Type) := set_updated_at : timestamptz -> Row -> Row.

#[global] Instance profiles_updated_at : HasUpdatedAt Profiles.row :=
  fun t r =>
    Profiles.mk (Profiles.id r) (Profiles.full_name r) (Profiles.rank r)
      (Profiles.unit r) (Profiles.phone r) (Profiles.created_at r) t.

#[global] Instance incidents_updated_at : HasUpdatedAt Incidents.row :=
  fun t r =>
    Incidents.mk (Incidents.id r) (Incidents.user_id r)
      (Incidents.incident_type r) (Incidents.status r)
      (Incidents.threat_level r) (Incidents.title r)
      (Incidents.description r) (Incidents.location r)
      (Incidents.occurred_at r) (Incidents.ai_analysis_result r)
      (Incidents.recommendations r) (Incidents.assigned_to r)
      (Incidents.priority_score r) (Incidents.created_at r) t
      (Incidents.resolved_at r).

(** [NEW.updated_at = NOW(); RETURN NEW;] *)
Definition handle_updated_at {Row} `{HasUpdatedAt Row}
    (now : timestamptz) (NEW : Row) : Row :=
  set_updated_at now NEW.

(** ** Statements under row-level security *)

Definition default {A} (d : A) (o : option A) : A :=
  match o with Some a => a | None => d end.

Definition mem (x : uuid) (l : list uuid) : bool := existsb (String.eqb x) l.

Fixpoint distinct (l : list uuid) : bool :=
  match l with
  | [] => true
  | x :: l' => negb (mem x l') && distinct l'
  end.

Definition opt_mem (x : option uuid) (l : list uuid) : bool :=
  match x with Some u => mem u l | None => true end.

Section Statements.
Context {Row : Type}.
Variable table : string.
Variable ps : list (policy Row).
Variable before_update : timestamptz -> Row -> Row.

(** A statement with a WHERE or RETURNING clause reads the table, so
    the SELECT policies are applied to it as well. *)
Definition targets (c : command) (db : Database) (auth_uid : option uuid)
    (where_ : Row -> bool) (r : Row) : bool :=
  where_ r && can_select ps db auth_uid r && passes_using ps c db auth_uid r.

(** UPDATE: a row that is not targeted stays as it is; a targeted row is
    replaced by the row the BEFORE UPDATE trigger returns, which has to
    pass the WITH CHECK expressions, or the statement fails. *)
Fixpoint update_rows (db : Database) (auth_uid : option uuid)
    (now : timestamptz) (where_ : Row -> bool) (set : Row -> Row)
    (rows : list Row) : result (list Row) :=
  match rows with
  | [] => Ok []
  | r :: rest =>
      if targets UPDATE db auth_uid where_ r then
        let NEW := before_update now (set r) in
        if passes_with_check ps UPDATE db auth_uid NEW
           && can_select ps db auth_uid NEW
        then match update_rows db auth_uid now where_ set rest with
             | Ok rest' => Ok (NEW :: rest')
             | Err e => Err e
             end
        else Err (rls_violation table)
      else match update_rows db auth_uid now where_ set rest with
           | Ok rest' => Ok (r :: rest')
           | Err e => Err e
           end
  end.

(** What a successful UPDATE makes of a row. *)
Definition updated (db : Database) (auth_uid : option uuid)
    (now : timestamptz) (where_ : Row -> bool) (set : Row -> Row)
    (r : Row) : Row :=
  if targets UPDATE db auth_uid where_ r then before_update now (set r)
  else r.

(** DELETE removes the targeted rows and says nothing about the others. *)
Definition deleted_rows (db : Database) (auth_uid : option uuid)
    (where_ : Row -> bool) (rows : list Row) : list Row :=
  filter (targets DELETE db auth_uid where_) rows.

Definition delete_rows (db : Database) (auth_uid : option uuid)
    (where_ : Row -> bool) (rows : list Row) : list Row :=
  filter (fun r => negb (targets DELETE db auth_uid where_ r)) rows.

(** INSERT: the new row has to pass the WITH CHECK expressions and, with
    RETURNING, the SELECT policies. *)
Definition insert_allowed (db : Database) (auth_uid : option uuid)
    (returning : bool) (NEW : Row) : bool :=
  can_insert ps db auth_uid NEW
  && (negb returning || can_select ps db auth_uid NEW).
End Statements.

(** ** Statements on [incidents] *)

(** The [Insert] and [Update] payloads of the generated client types: a
    column that is left out is [None]; on insert it takes its DEFAULT, on
    update it keeps its value. *)
Module IncidentsInsert.
Record t := mk {
  id : option uuid;
  user_id : uuid;
  incident_type : incident_type;
  status : option incident_status;
  threat_level : option threat_level;
  title : string;
  description : string;
  location : option string;
  occurred_at : option timestamptz;
  ai_analysis_result : option json;
  recommendations : option (list string);
  assigned_to : option uuid;
  priority_score : option (option Z);
  created_at : option timestamptz;
  updated_at : option timestamptz;
  resolved_at : option timestamptz
}.
End IncidentsInsert.

Module IncidentsUpdate.
Record t := mk {
  id : option uuid;
  user_id : option uuid;
  incident_type : option incident_type;
  status : option incident_status;
  threat_level : option (option threat_level);
  title : option string;
  description : option string;
  location : option (option string);
  occurred_at : option (option timestamptz);
  ai_analysis_result : option (option json);
  recommendations : option (option (list string));
  assigned_to : option (option uuid);
  priority_score : option (option Z);
  created_at : option timestamptz;
  updated_at : option timestamptz;
  resolved_at : option (option timestamptz)
}.

Definition none : t :=
  mk None None None None None None None None None None None None None
     None None None.
End IncidentsUpdate.


Definition incidents_new_row (gen_random_uuid : uuid) (now : timestamptz)
    (v : IncidentsInsert.t) : Incidents.row :=
  Incidents.mk
    (default gen_random_uuid (IncidentsInsert.id v))
    (IncidentsInsert.user_id v)
    (IncidentsInsert.incident_type v)
    (default submitted (IncidentsInsert.status v))
    (IncidentsInsert.threat_level v)
    (IncidentsInsert.title v)
    (IncidentsInsert.description v)
    (IncidentsInsert.location v)
    (IncidentsInsert.occurred_at v)
    (IncidentsInsert.ai_analysis_result v)
    (IncidentsInsert.recommendations v)
    (IncidentsInsert.assigned_to v)
    (default (Some 0) (IncidentsInsert.priority_score v))
    (default now (IncidentsInsert.created_at v))
    (default now (IncidentsInsert.updated_at v))
    (IncidentsInsert.resolved_at v).

Definition incidents_set (v : IncidentsUpdate.t) (r : Incidents.row)
    : Incidents.row :=
  Incidents.mk
    (default (Incidents.id r) (IncidentsUpdate.id v))
    (default (Incidents.user_id r) (IncidentsUpdate.user_id v))
    (default (Incidents.incident_type r) (IncidentsUpdate.incident_type v))
    (default (Incidents.status r) (IncidentsUpdate.status v))
    (default (Incidents.threat_level r) (IncidentsUpdate.threat_level v))
    (default (Incidents.title r) (IncidentsUpdate.title v))
    (default (Incidents.description r) (IncidentsUpdate.description v))
    (default (Incidents.location r) (IncidentsUpdate.location v))
    (default (Incidents.occurred_at r) (IncidentsUpdate.occurred_at v))
    (default (Incidents.ai_analysis_result r)
       (IncidentsUpdate.ai_analysis_result v))
    (default (Incidents.recommendations r) (IncidentsUpdate.recommendations v))
    (default (Incidents.assigned_to r) (IncidentsUpdate.assigned_to v))
    (default (Incidents.priority_score r) (IncidentsUpdate.priority_score v))
    (default (Incidents.created_at r) (IncidentsUpdate.created_at v))
    (default (Incidents.updated_at r) (IncidentsUpdate.updated_at v))
    (default (Incidents.resolved_at r) (IncidentsUpdate.resolved_at v)).

Definition user_ids (db : Database) : list uuid :=
  map AuthUsers.id (auth_users db).

(** PRIMARY KEY (id), user_id and assigned_to REFERENCES auth.users(id).
    The types of the columns are not looked at here: a statement brings
    the values it is given to them before it comes to the policies and to
    these checks (see [insert_incidents] and [update_incidents]). *)
Definition incidents_constraints (db : Database)
    (rows : list Incidents.row) : result unit :=
  if negb (distinct (map Incidents.id rows)) then
    Err (unique_violation "incidents_pkey")
  else if negb (forallb (fun r => mem (Incidents.user_id r) (user_ids db))
                  rows) then
    Err (foreign_key_violation "incidents" "incidents_user_id_fkey")
  else if negb (forallb (fun r => opt_mem (Incidents.assigned_to r)
                                    (user_ids db)) rows) then
    Err (foreign_key_violation "incidents" "incidents_assigned_to_fkey")
  else Ok tt.

Definition with_incidents (db : Database) (rows : list Incidents.row)
    : Database :=
  mkDatabase (auth_users db) (profiles db) (user_roles db) rows
    (incident_files db) (audit_logs db) (storage_objects db).

Definition with_incident_files (db : Database)
    (rows : list IncidentFiles.row) : Database :=
  mkDatabase (auth_users db) (profiles db) (user_roles db) (incidents db)
    rows (audit_logs db) (storage_objects db).

Definition with_storage_objects (db : Database)
    (rows : list StorageObjects.row) : Database :=
  mkDatabase (auth_users db) (profiles db) (user_roles db) (incidents db)
    (incident_files db) (audit_logs db) rows.

(** [INSERT INTO incidents ... [RETURNING *]]. The values are brought to
    their column types before the policies see the row ([priority_score]
    is the one [INTEGER] column). There is no trigger on insert:
    [created_at] and [updated_at] are the values sent, or NOW(). *)
Definition insert_incidents (db : Database) (auth_uid : option uuid)
    (gen_random_uuid : uuid) (now : timestamptz) (returning : bool)
    (v : IncidentsInsert.t) : result (Database * Incidents.row) :=
  let NEW := incidents_new_row gen_random_uuid now v in
  match int4_in (Incidents.priority_score NEW) with
  | Err e => Err e
  | Ok _ =>
      if insert_allowed incidents_policies db auth_uid returning NEW then
        match incidents_constraints db (incidents db ++ [NEW]) with
        | Ok _ => Ok (with_incidents db (incidents db ++ [NEW]), NEW)
        | Err e => Err e
        end
      else Err (rls_violation "incidents")
  end.

(** [UPDATE incidents SET ... WHERE ...], with the trigger
    [set_incidents_updated_at] BEFORE UPDATE FOR EACH ROW. The values of
    the SET list are brought to their column types first. *)
Definition update_incidents (db : Database) (auth_uid : option uuid)
    (now : timestamptz) (where_ : Incidents.row -> bool)
    (v : IncidentsUpdate.t) : result Database :=
  match int4_in (default None (IncidentsUpdate.priority_score v)) with
  | Err e => Err e
  | Ok _ =>
      match update_rows "incidents" incidents_policies handle_updated_at
              db auth_uid now where_ (incidents_set v) (incidents db) with
      | Ok rows =>
          match incidents_constraints db rows with
          | Ok _ => Ok (with_incidents db rows)
          | Err e => Err e
          end
      | Err e => Err e
      end
  end.

(** [DELETE FROM incidents WHERE ...]; [incident_files.incident_id] is
    ON DELETE CASCADE. *)
Definition delete_incidents (db : Database) (auth_uid : option uuid)
    (where_ : Incidents.row -> bool) : Database :=
  let gone := deleted_rows incidents_policies db auth_uid where_
                (incidents db) in
  with_incident_files
    (with_incidents db
       (delete_rows incidents_policies db auth_uid where_ (incidents db)))
    (filter (fun f => negb (mem (IncidentFiles.incident_id f)
                              (map Incidents.id gone)))
       (incident_files db)).

(** [SELECT * FROM incidents WHERE ...]. *)
Definition select_incidents (db : Database) (auth_uid : option uuid)
    (where_ : Incidents.row -> bool) : list Incidents.row :=
  filter (fun r => where_ r && can_select incidents_policies db auth_uid r)
    (incidents db).

(** ** Statements on [profiles] *)

Module ProfilesUpdate.
Record t := mk {
  id : option uuid;
  full_name : option string;
  rank : option (option string);
  unit : option (option string);
  phone : option (option string);
  created_at : option timestamptz;
  updated_at : option timestamptz
}.
End ProfilesUpdate.

Definition profiles_set (v : ProfilesUpdate.t) (r : Profiles.row)
    : Profiles.row :=
  Profiles.mk
    (default (Profiles.id r) (ProfilesUpdate.id v))
    (default (Profiles.full_name r) (ProfilesUpdate.full_name v))
    (default (Profiles.rank r) (ProfilesUpdate.rank v))
    (default (Profiles.unit r) (ProfilesUpdate.unit v))
    (default (Profiles.phone r) (ProfilesUpdate.phone v))
    (default (Profiles.created_at r) (ProfilesUpdate.created_at v))
    (default (Profiles.updated_at r) (ProfilesUpdate.updated_at v)).

(** PRIMARY KEY (id) REFERENCES auth.users(id). *)
Definition profiles_constraints (db : Database)
    (rows : list Profiles.row) : result unit :=
  if negb (distinct (map Profiles.id rows)) then
    Err (unique_violation "profiles_pkey")
  else if negb (forallb (fun r => mem (Profiles.id r) (user_ids db)) rows)
  then Err (foreign_key_violation "profiles" "profiles_id_fkey")
  else Ok tt.

Definition with_profiles (db : Database) (rows : list Profiles.row)
    : Database :=
  mkDatabase (auth_users db) rows (user_roles db) (incidents db)
    (incident_files db) (audit_logs db) (storage_objects db).

(** [UPDATE profiles SET ... WHERE ...], with the trigger
    [set_profiles_updated_at] BEFORE UPDATE FOR EACH ROW. *)
Definition update_profiles (db : Database) (auth_uid : option uuid)
    (now : timestamptz) (where_ : Profiles.row -> bool)
    (v : ProfilesUpdate.t) : result Database :=
  match update_rows "profiles" profiles_policies handle_updated_at
          db auth_uid now where_ (profiles_set v) (profiles db) with
  | Ok rows =>
      match profiles_constraints db rows with
      | Ok _ => Ok (with_profiles db rows)
      | Err e => Err e
      end
  | Err e => Err e
  end.

(** ** Statements on [incident_files] *)

Module IncidentFilesInsert.
Record t := mk {
  id : option uuid;
  incident_id : uuid;
  file_name : string;
  file_path : string;
  file_type : string;
  file_size : option Z;
  uploaded_at : option timestamptz
}.
End IncidentFilesInsert.

Definition incident_files_new_row (gen_random_uuid : uuid)
    (now : timestamptz) (v : IncidentFilesInsert.t) : IncidentFiles.row :=
  IncidentFiles.mk
    (default gen_random_uuid (IncidentFilesInsert.id v))
    (IncidentFilesInsert.incident_id v)
    (IncidentFilesInsert.file_name v)
    (IncidentFilesInsert.file_path v)
    (IncidentFilesInsert.file_type v)
    (IncidentFilesInsert.file_size v)
    (default now (IncidentFilesInsert.uploaded_at v)).

(** The first stored size that is no [INTEGER] (there is none in a table
    that PostgreSQL filled). *)
Definition out_of_range (sizes : list (option Z)) : Z :=
  match find (fun o => negb (is_int4 o)) sizes with
  | Some (Some n) => n
  | _ => 0
  end.

(** [file_size INTEGER], PRIMARY KEY (id), incident_id REFERENCES
    incidents(id). *)
Definition incident_files_constraints (db : Database)
    (rows : list IncidentFiles.row) : result unit :=
  if negb (forallb (fun f => is_int4 (IncidentFiles.file_size f)) rows) then
    Err (numeric_value_out_of_range
           (out_of_range (map IncidentFiles.file_size rows)))
  else if negb (distinct (map IncidentFiles.id rows)) then
    Err (unique_violation "incident_files_pkey")
  else if negb (forallb (fun f => mem (IncidentFiles.incident_id f)
                                    (map Incidents.id (incidents db)))
                  rows) then
    Err (foreign_key_violation "incident_files"
           "incident_files_incident_id_fkey")
  else Ok tt.

(** [INSERT INTO incident_files ... [RETURNING *]]; [file_size] is brought
    to [INTEGER] before the policies see the row. *)
Definition insert_incident_files (db : Database) (auth_uid : option uuid)
    (gen_random_uuid : uuid) (now : timestamptz) (returning : bool)
    (v : IncidentFilesInsert.t) : result (Database * IncidentFiles.row) :=
  let NEW := incident_files_new_row gen_random_uuid now v in
  match int4_in (IncidentFiles.file_size NEW) with
  | Err e => Err e
  | Ok _ =>
      if insert_allowed incident_files_policies db auth_uid returning NEW
      then
        match incident_files_constraints db (incident_files db ++ [NEW]) with
        | Ok _ =>
            Ok (with_incident_files db (incident_files db ++ [NEW]), NEW)
        | Err e => Err e
        end
      else Err (rls_violation "incident_files")
  end.

(** ** Identity bootstrap (migration, lines 198-223) *)

Fixpoint assoc {A} (k : string) (l : list (string * A)) : option A :=
  match l with
  | [] => None
  | (k', v) :: l' => if String.eqb k k' then Some v else assoc k l'
  end.

(** [j ->> key]: NULL when [j] is NULL, the key is missing or its value
    is a JSON null. *)
Definition json_get_text (j : option (list (string * json))) (key : string)
    : option string :=
  match j with
  | None => None
  | Some fields =>
      match assoc key fields with
      | Some (JString s) => Some s
      | Some (JOther s) => Some s
      | Some JNull | None => None
      end
  end.

Definition COALESCE {A} (x : option A) (y : A) : A := default y x.

Definition same_user_role (r r' : UserRoles.row) : bool :=
  String.eqb (UserRoles.user_id r) (UserRoles.user_id r')
  && app_role_beq (UserRoles.role r) (UserRoles.role r').

Fixpoint unique_user_role (rows : list UserRoles.row) : bool :=
  match rows with
  | [] => true
  | r :: rest =>
      negb (existsb (same_user_role r) rest) && unique_user_role rest
  end.

(** PRIMARY KEY (id), UNIQUE (user_id, role), user_id and assigned_by
    REFERENCES auth.users(id). *)
Definition user_roles_constraints (db : Database)
    (rows : list UserRoles.row) : result unit :=
  if negb (distinct (map UserRoles.id rows)) then
    Err (unique_violation "user_roles_pkey")
  else if negb (unique_user_role rows) then
    Err (unique_violation "user_roles_user_id_role_key")
  else if negb (forallb (fun r => mem (UserRoles.user_id r) (user_ids db))
                  rows) then
    Err (foreign_key_violation "user_roles" "user_roles_user_id_fkey")
  else if negb (forallb (fun r => opt_mem (UserRoles.assigned_by r)
                                    (user_ids db)) rows) then
    Err (foreign_key_violation "user_roles" "user_roles_assigned_by_fkey")
  else Ok tt.

Definition with_user_roles (db : Database) (rows : list UserRoles.row)
    : Database :=
  mkDatabase (auth_users db) (profiles db) rows (incidents db)
    (incident_files db) (audit_logs db) (storage_objects db).

Definition with_auth_users (db : Database) (rows : list AuthUsers.row)
    : Database :=
  mkDatabase rows (profiles db) (user_roles db) (incidents db)
    (incident_files db) (audit_logs db) (storage_objects db).

(** The function is SECURITY DEFINER: its two inserts run as the owner of
    the tables, which the policies do not restrict. An error raised by
    either insert is the error of the trigger. *)
Definition handle_new_user (db : Database) (NEW : AuthUsers.row)
    (gen_random_uuid : uuid) (now : timestamptz) : result Database :=
  let profile :=
    Profiles.mk (AuthUsers.id NEW)
      (COALESCE (json_get_text (AuthUsers.raw_user_meta_data NEW) "full_name")
         "User")
      None None None now now in
  match profiles_constraints db (profiles db ++ [profile]) with
  | Err e => Err e
  | Ok _ =>
      let db1 := with_profiles db (profiles db ++ [profile]) in
      let role_row :=
        UserRoles.mk gen_random_uuid (AuthUsers.id NEW) user now None in
      match user_roles_constraints db1 (user_roles db1 ++ [role_row]) with
      | Err e => Err e
      | Ok _ => Ok (with_user_roles db1 (user_roles db1 ++ [role_row]))
      end
  end.

(** [INSERT INTO auth.users] with the trigger [on_auth_user_created] AFTER
    INSERT FOR EACH ROW. The trigger runs inside the statement: when it
    raises, the statement has no effect at all. *)
Definition insert_auth_users (db : Database) (NEW : AuthUsers.row)
    (gen_random_uuid : uuid) (now : timestamptz) : result Database :=
  if mem (AuthUsers.id NEW) (user_ids db) then
    Err (unique_violation "users_pkey")
  else
    handle_new_user (with_auth_users db (auth_users db ++ [NEW])) NEW
      gen_random_uuid now.

(** The state after the request: the one the statement produced, or the
    one before it. *)
Definition create_identity (db : Database) (NEW : AuthUsers.row)
    (gen_random_uuid : uuid) (now : timestamptz) : Database :=
  match insert_auth_users db NEW gen_random_uuid now with
  | Ok db' => db'
  | Err _ => db
  end.

(** ** The storage service, as the migration configures it *)

(** A [File] of the browser; its size is a number of bytes. *)
Module File.
Record t := mk {
  name : string;
  type : string;
  size : N
}.
End File.

Definition object_exists (db : Database) (bucket_id key : string) : bool :=
  existsb
    (fun o => String.eqb (StorageObjects.bucket_id o) bucket_id
              && String.eqb (StorageObjects.name o) key)
    (storage_objects db).

(** [storage.from(bucket).upload(key, file)]: the object row has to pass
    the INSERT policies on [storage.objects], the file the bucket's size
    limit and list of content types, and the key must be free (the call
    does not ask to overwrite). *)
Definition storage_upload (db : Database) (auth_uid : option uuid)
    (b : bucket) (key : string) (file : File.t) : result Database :=
  let NEW :=
    StorageObjects.mk (bucket_name b) key auth_uid (File.type file)
      (Z.of_N (File.size file)) in
  if negb (can_insert storage_objects_policies db auth_uid NEW) then
    Err (rls_violation "objects")
  else if file_size_limit b <? Z.of_N (File.size file) then
    Err payload_too_large
  else if negb (existsb (String.eqb (File.type file)) (allowed_mime_types b))
  then Err (invalid_mime_type (File.type file))
  else if object_exists db (bucket_name b) key then
    Err (object_already_exists key)
  else Ok (with_storage_objects db (storage_objects db ++ [NEW])).

(** ** Client flows *)

Inductive ui_event :=
| setLoading (b : bool)
| setIsAdmin (b : bool)
| toast (title description : string) (destructive : bool)
| navigate (path : string)
| console_error (label : string) (e : error)
| fetchAllIncidents.

Definition string_of_Z (z : Z) : string :=
  NilZero.string_of_int (Z.to_int z).

Definition quoted (s : string) : string :=
  String (ascii_of_nat 34) (s ++ String (ascii_of_nat 34) EmptyString).

(** The [message] of the error object the client receives: PostgreSQL's
    primary message for an error of the database, the data API's for
    [.single()], the storage service's for an upload. The message of a
    request that got no answer is the browser's; Chromium's is given. *)
Definition error_message (e : error) : string :=
  match e with
  | unique_violation c =>
      "duplicate key value violates unique constraint " ++ quoted c
  | foreign_key_violation t c =>
      "insert or update on table " ++ quoted t
        ++ " violates foreign key constraint " ++ quoted c
  | invalid_enum_value t v =>
      "invalid input value for enum " ++ t ++ ": " ++ quoted v
  | invalid_datetime_format v =>
      "invalid input syntax for type timestamp with time zone: " ++ quoted v
  | rls_violation t =>
      "new row violates row-level security policy for table " ++ quoted t
  | numeric_value_out_of_range n =>
      "value " ++ quoted (string_of_Z n) ++ " is out of range for type integer"
  | not_single_row _ => "Cannot coerce the result to a single JSON object"
  | payload_too_large => "The object exceeded the maximum allowed size"
  | invalid_mime_type m => "mime type " ++ m ++ " is not supported"
  | object_already_exists _ => "The resource already exists"
  | request_failed => "TypeError: Failed to fetch"
  end.

(** A request can also fail on its way (network, service); then it has
    no effect and the client gets an error. *)
Definition request {A} (served : bool) (r : result A) : result A :=
  if served then r else Err request_failed.

(** [.single()]: the data is the row when there is exactly one, and
    there is no data, but an error, otherwise. *)
Definition single {A} (rows : list A) : result A :=
  match rows with
  | [r] => Ok r
  | _ => Err (not_single_row (List.length rows))
  end.

Definition data {A} (r : result A) : option A :=
  match r with Ok a => Some a | Err _ => None end.

(** *** [checkAdminAccess] (admin dashboard) *)

Definition select_user_roles (db : Database) (auth_uid : option uuid)
    (where_ : UserRoles.row -> bool) : list UserRoles.row :=
  filter (fun r => where_ r && can_select user_roles_policies db auth_uid r)
    (user_roles db).

Definition role_in (roles : list app_role) (r : UserRoles.row) : bool :=
  existsb (app_role_beq (UserRoles.role r)) roles.

(** How the awaited calls of [checkAdminAccess] end: the query is
    answered; or it is not (the client then gives an error and no data);
    or one of the calls throws, which the [catch] of the function takes. *)
Inductive reply :=
| answered
| unanswered
| thrown (e : error).

Definition is_answered (q : reply) : bool :=
  match q with answered => true | _ => false end.

Definition checkAdminAccess (db : Database) (session : option uuid)
    (q : reply) : list ui_event :=
  match q with
  | thrown error =>
      [console_error "Error checking admin access:" error;
       navigate "/dashboard"]
  | _ =>
      match session with
      | None => [navigate "/auth"]
      | Some user_id =>
          let roleData :=
            data (request (is_answered q)
                    (single
                       (map UserRoles.role
                          (select_user_roles db (Some user_id)
                             (fun r =>
                                String.eqb (UserRoles.user_id r) user_id
                                && role_in [admin; cert_admin] r))))) in
          match roleData with
          | None =>
              [ toast "Access Denied" "You don't have admin permissions"
                  true;
                navigate "/dashboard" ]
          | Some _ => [setIsAdmin true; fetchAllIncidents]
          end
      end
  end.

Definition access_granted (ui : list ui_event) : bool :=
  existsb (fun e => match e with setIsAdmin true => true | _ => false end) ui.

(** *** [handleSubmit] (ReportIncident.tsx) *)

Module FormData.
Record t := mk {
  title : string;
  description : string;
  incident_type : string;
  location : string;
  occurred_at : string
}.
End FormData.

(** Input of the enum type [incident_type]. *)
Definition incident_type_in (s : string) : option incident_type :=
  if String.eqb s "phishing" then Some phishing
  else if String.eqb s "malware" then Some malware
  else if String.eqb s "fraud" then Some fraud
  else if String.eqb s "espionage" then Some espionage
  else if String.eqb s "data_breach" then Some data_breach
  else if String.eqb s "other" then Some other
  else None.

(** What the run of one request depends on besides the database. *)
Record request_env := mkRequestEnv {
  served : bool;
  gen_random_uuid : uuid;
  NOW : timestamptz
}.

Record file_env := mkFileEnv {
  Date_now : Z;
  upload_served : bool;
  record_env : request_env
}.

(** [timestamptz_in] is the server's reading of a text as a
    [TIMESTAMPTZ] (it depends on the server's settings), NULL standing
    for a text it refuses. *)
Record submit_env := mkSubmitEnv {
  incident_env : request_env;
  timestamptz_in : string -> option timestamptz;
  file_env_of : nat -> file_env
}.

(** [`${user.id}/${incident.id}/${Date.now()}.${fileExt}`] with
    [fileExt = file.name.split('.').pop()]. *)
Definition fileName_of (user_id incident_id : uuid) (Date_now : Z)
    (file : File.t) : string :=
  let fileExt := last (split "." (File.name file)) "" in
  user_id ++ "/" ++ incident_id ++ "/" ++ string_of_Z Date_now
    ++ "." ++ fileExt.

(** What became of one attached file; the flow itself keeps no such
    record, it is here to state what a run did. *)
Inductive file_outcome :=
| upload_failed (e : error)
| recorded
| record_failed (e : error).

Record run := mkRun {
  run_db : Database;
  run_ui : list ui_event;
  run_files : list file_outcome
}.

(** [formData.occurred_at || null], brought to [TIMESTAMPTZ]. *)
Definition occurred_at_in (env : submit_env) (s : string)
    : result (option timestamptz) :=
  if String.eqb s "" then Ok None
  else match timestamptz_in env s with
       | Some t => Ok (Some t)
       | None => Err (invalid_datetime_format s)
       end.

(** The insert of the incident, as [handleSubmit] sends it: the texts of
    the form are brought to the types of their columns, then the row is
    inserted. *)
Definition submit_incident (db : Database) (env : submit_env)
    (user_id : uuid) (formData : FormData.t)
    : result (Database * Incidents.row) :=
  request (served (incident_env env))
    match incident_type_in (FormData.incident_type formData) with
    | None =>
        Err (invalid_enum_value "incident_type"
               (FormData.incident_type formData))
    | Some ty =>
        match occurred_at_in env (FormData.occurred_at formData) with
        | Err e => Err e
        | Ok occurred_at =>
            insert_incidents db (Some user_id)
              (gen_random_uuid (incident_env env)) (NOW (incident_env env))
              true
              (IncidentsInsert.mk None user_id ty None None
                 (FormData.title formData) (FormData.description formData)
                 (Some (FormData.location formData))
                 occurred_at
                 None None None None None None None)
        end
    end.

(** The loop over the attached files; [k] is the position of the next
    file. An upload error is logged and the file skipped; the answer to
    the insert into [incident_files] is dropped. *)
Fixpoint upload_files (env : submit_env) (k : nat) (user_id : uuid)
    (incident : Incidents.row) (files : list File.t) (db : Database)
    : run :=
  match files with
  | [] => mkRun db [] []
  | file :: rest =>
      let e := file_env_of env k in
      let fileName :=
        fileName_of user_id (Incidents.id incident) (Date_now e) file in
      match request (upload_served e)
              (storage_upload db (Some user_id) incident_evidence
                 fileName file) with
      | Err uploadError =>
          let r := upload_files env (S k) user_id incident rest db in
          mkRun (run_db r)
            (console_error "File upload error:" uploadError :: run_ui r)
            (upload_failed uploadError :: run_files r)
      | Ok db1 =>
          match request (served (record_env e))
                  (insert_incident_files db1 (Some user_id)
                     (gen_random_uuid (record_env e)) (NOW (record_env e))
                     false
                     (IncidentFilesInsert.mk None (Incidents.id incident)
                        (File.name file) fileName (File.type file)
                        (Some (Z.of_N (File.size file))) None)) with
          | Ok (db2, _) =>
              let r := upload_files env (S k) user_id incident rest db2 in
              mkRun (run_db r) (run_ui r) (recorded :: run_files r)
          | Err e' =>
              let r := upload_files env (S k) user_id incident rest db1 in
              mkRun (run_db r) (run_ui r) (record_failed e' :: run_files r)
          end
      end
  end.

Definition handleSubmit (db : Database) (env : submit_env)
    (session : option uuid) (formData : FormData.t) (files : list File.t)
    : run :=
  match session with
  | None =>
      mkRun db
        [ setLoading true;
          toast "Authentication required"
            "Please sign in to report an incident" true;
          navigate "/auth";
          setLoading false ]
        []
  | Some user_id =>
      match submit_incident db env user_id formData with
      | Err incidentError =>
          mkRun db
            [ setLoading true;
              console_error "Error:" incidentError;
              toast "Failed to submit incident"
                (error_message incidentError) true;
              setLoading false ]
            []
      | Ok (db1, incident) =>
          let r :=
            if (0 <? List.length files)%nat
            then upload_files env 0 user_id incident files db1
            else mkRun db1 [] [] in
          mkRun (run_db r)
            ([setLoading true] ++ run_ui r ++
             [ toast "Incident reported successfully"
                 "Your incident has been submitted for review." false;
               navigate "/dashboard";
               setLoading false ])
            (run_files r)
      end
  end.

Definition reports_success (ui : list ui_event) : bool :=
  existsb
    (fun e => match e with
              | toast t _ false => String.eqb t "Incident reported successfully"
              | _ => false
              end) ui
  && existsb
       (fun e => match e with
                 | navigate p => String.eqb p "/dashboard"
                 | _ => false
                 end) ui.

Definition reports_failure (ui : list ui_event) : bool :=
  existsb
    (fun e => match e with toast _ _ true => true | _ => false end) ui.

Definition is_upload_failed (o : file_outcome) : bool :=
  match o with upload_failed _ => true | _ => false end.

Definition is_recorded (o : file_outcome) : bool :=
  match o with recorded => true | _ => false end.

Definition is_record_failed (o : file_outcome) : bool :=
  match o with record_failed _ => true | _ => false end.

Definition count {A} (f : A -> bool) (l : list A) : nat :=
  List.length (filter f l).

Definition files_of (db : Database) (incident_id : uuid)
    : list IncidentFiles.row :=
  filter (fun f => String.eqb (IncidentFiles.incident_id f) incident_id)
    (incident_files db).

(** ** Views used to state the properties *)

Definition profiles_of (db : Database) (I : uuid) : list Profiles.row :=
  filter (fun p => String.eqb (Profiles.id p) I) (profiles db).

Definition roles_of (db : Database) (I : uuid) (ro : app_role)
    : list UserRoles.row :=
  filter (fun r => String.eqb (UserRoles.user_id r) I
                   && app_role_beq (UserRoles.role r) ro)
    (user_roles db).

(** The row says that [uid] holds the role [ro]. *)
Definition holds (uid : uuid) (ro : app_role) (r : UserRoles.row) : bool :=
  String.eqb (UserRoles.user_id r) uid && app_role_beq (UserRoles.role r) ro.

(** What [handleSubmit] logs for the files of a run. *)
Definition upload_errors (outcomes : list file_outcome) : list ui_event :=
  flat_map
    (fun o => match o with
              | upload_failed e => [console_error "File upload error:" e]
              | _ => []
              end)
    outcomes.

Definition success_report : list ui_event :=
  [ toast "Incident reported successfully"
      "Your incident has been submitted for review." false;
    navigate "/dashboard";
    setLoading false ].

(** The ids the environment hands out for the rows of the [n] files from
    position [k] on. *)
Definition file_row_ids (env : submit_env) (k n : nat) : list uuid :=
  map (fun j => gen_random_uuid (record_env (file_env_of env j))) (seq k n).

(** ** Sample data *)

Module Sample.
(** Three identities: a filer, an admin, and one who holds both
    privileged roles. *)
Definition db : Database :=
  mkDatabase
    [ AuthUsers.mk "u1" (Some [("full_name", JString "Asha Rao")]);
      AuthUsers.mk "a1" None;
      AuthUsers.mk "b1" None ]
    [ Profiles.mk "u1" "Asha Rao" None None None 10 10;
      Profiles.mk "a1" "User" None None None 11 11;
      Profiles.mk "b1" "User" None None None 12 12 ]
    [ UserRoles.mk "r1" "u1" user 10 None;
      UserRoles.mk "r2" "a1" user 11 None;
      UserRoles.mk "r3" "a1" admin 13 (Some "b1");
      UserRoles.mk "r4" "b1" user 12 None;
      UserRoles.mk "r5" "b1" admin 14 None;
      UserRoles.mk "r6" "b1" cert_admin 14 None ]
    [ Incidents.mk "i1" "u1" phishing submitted None "Suspicious login"
        "..." None None None None None (Some 0) 20 20 None ]
    [] [] [].

Definition incident : Incidents.row :=
  Incidents.mk "i1" "u1" phishing submitted None "Suspicious login"
    "..." None None None None None (Some 0) 20 20 None.

(** [{ status: 'resolved', threat_level: 'critical' }] *)
Definition triage : IncidentsUpdate.t :=
  IncidentsUpdate.mk None None None (Some resolved) (Some (Some critical))
    None None None None None None None None None None None.

(** An update that sends [updated_at] itself. *)
Definition backdate : IncidentsUpdate.t :=
  IncidentsUpdate.mk None None None None None (Some "Suspicious sign-in")
    None None None None None None None None (Some 1) None.

(** An insert that sends [updated_at] itself. *)
Definition postdated : IncidentsInsert.t :=
  IncidentsInsert.mk None "u1" malware None None "USB stick" "found"
    None None None None None None None (Some 100000) None.


(** A new identity whose metadata carry a name. *)
Definition newcomer : AuthUsers.row :=
  AuthUsers.mk "n1"
    (Some [("rank", JString "Major"); ("full_name", JString "Bela Nair")]).

Definition rename : ProfilesUpdate.t :=
  ProfilesUpdate.mk None (Some "Asha R.") None None None None (Some 1).

Definition form : FormData.t :=
  FormData.mk "Suspicious login" "..." "phishing" "" "".

Definition files : list File.t :=
  [ File.mk "screen.png" "image/png" 2048%N;
    File.mk "dump.zip" "application/zip" 60000000%N;
    File.mk "notes.txt" "text/plain" 512%N ].

(** A server that reads one text as a time (2025-10-03 14:15 UTC). *)
Definition timestamps (s : string) : option timestamptz :=
  if String.eqb s "2025-10-03T14:15" then Some 1759500900000 else None.

(** Every request is served; the [k]-th file is stamped [5000 + k]. *)
Definition env : submit_env :=
  mkSubmitEnv (mkRequestEnv true "i2" 30) timestamps
    (fun k =>
       mkFileEnv (5000 + Z.of_nat k) true
         (mkRequestEnv true ("f" ++ string_of_Z (Z.of_nat k)) 31)).

(** As [env], but the insert into [incident_files] for the first file
    is not served. *)
Definition env_lost_record : submit_env :=
  mkSubmitEnv (mkRequestEnv true "i2" 30) timestamps
    (fun k =>
       mkFileEnv (5000 + Z.of_nat k) true
         (mkRequestEnv (negb (Nat.eqb k 0))
            ("f" ++ string_of_Z (Z.of_nat k)) 31)).
End Sample.

(** ** Enum labels (migration, lines 2-5; generated [Constants]) *)

Definition app_role_out (r : app_role) : string :=
  match r with
  | user => "user"
  | admin => "admin"
  | cert_admin => "cert_admin"
  end.

Definition incident_status_out (s : incident_status) : string :=
  match s with
  | submitted => "submitted"
  | under_review => "under_review"
  | investigating => "investigating"
  | resolved => "resolved"
  | closed => "closed"
  end.

Definition threat_level_out (l : threat_level) : string :=
  match l with
  | low => "low"
  | medium => "medium"
  | high => "high"
  | critical => "critical"
  end.

Definition incident_type_out (t : incident_type) : string :=
  match t with
  | phishing => "phishing"
  | malware => "malware"
  | fraud => "fraud"
  | espionage => "espionage"
  | data_breach => "data_breach"
  | other => "other"
  end.

(** Input of the enum types [incident_status] and [threat_level]. *)
Definition incident_status_in (s : string) : option incident_status :=
  if String.eqb s "submitted" then Some submitted
  else if String.eqb s "under_review" then Some under_review
  else if String.eqb s "investigating" then Some investigating
  else if String.eqb s "resolved" then Some resolved
  else if String.eqb s "closed" then Some closed
  else None.

Definition threat_level_in (s : string) : option threat_level :=
  if String.eqb s "low" then Some low
  else if String.eqb s "medium" then Some medium
  else if String.eqb s "high" then Some high
  else if String.eqb s "critical" then Some critical
  else None.

Module Constants.
Definition incident_status : list string :=
  [ "submitted"; "under_review"; "investigating"; "resolved"; "closed" ].
Definition incident_type : list string :=
  [ "phishing"; "malware"; "fraud"; "espionage"; "data_breach"; "other" ].
Definition threat_level : list string :=
  [ "low"; "medium"; "high"; "critical" ].
End Constants.

(** ** Consistency of a database *)

(** The keys and references the schema declares, all at once. *)
Definition consistent (db : Database) : bool :=
  distinct (user_ids db)
  && is_ok (profiles_constraints db (profiles db))
  && is_ok (user_roles_constraints db (user_roles db))
  && is_ok (incidents_constraints db (incidents db))
  && is_ok (incident_files_constraints db (incident_files db)).

(** ** The bucket's rules on a stored object *)

Fixpoint has_char (c : ascii) (s : string) : bool :=
  match s with
  | EmptyString => false
  | String c' s' => Ascii.eqb c' c || has_char c s'
  end.

(** The object is in the bucket, within its size limit, of a listed
    content type, and under the folder of the identity that owns it. *)
Definition within_bucket_rules (b : bucket) (o : StorageObjects.row) : bool :=
  String.eqb (StorageObjects.bucket_id o) (bucket_name b)
  && (StorageObjects.size o <=? file_size_limit b)
  && existsb (String.eqb (StorageObjects.content_type o))
       (allowed_mime_types b)
  && owns_first_folder (StorageObjects.owner o) (StorageObjects.name o).

(** ** The list of attached files (ReportIncident.tsx, lines 29-38) *)

(** [array.filter((x, i) => keep(x, i))]. *)
Fixpoint filter_index {A} (keep : A -> nat -> bool) (i : nat) (l : list A)
    : list A :=
  match l with
  | [] => []
  | x :: l' =>
      if keep x i then x :: filter_index keep (S i) l'
      else filter_index keep (S i) l'
  end.

(** [e.target.files] is null when the input holds no file list. *)
Definition handleFileChange (target_files : option (list File.t))
    (prev : list File.t) : list File.t :=
  match target_files with
  | Some selectedFiles => (prev ++ selectedFiles)%list
  | None => prev
  end.

Definition removeFile (index : nat) (prev : list File.t) : list File.t :=
  filter_index (fun _ i => negb (Nat.eqb i index)) 0 prev.

(** ** ORDER BY *)

Section OrderBy.
Context {A : Type}.
Variable precedes : A -> A -> bool.

Fixpoint insert_ordered (x : A) (l : list A) : list A :=
  match l with
  | [] => [x]
  | y :: l' =>
      if precedes x y then x :: y :: l' else y :: insert_ordered x l'
  end.

(** Rows that the order does not tell apart stay in the order of the
    table. *)
Definition order_by (l : list A) : list A :=
  fold_right insert_ordered [] l.
End OrderBy.

(** ** The filer's dashboard (Dashboard page) *)

Module Dashboard.
Definition checkAuth (session : option uuid) : list ui_event :=
  match session with
  | None => [navigate "/auth"]
  | Some _ => []
  end.

(** [created_at], descending. *)
Definition by_created_at (a b : Incidents.row) : bool :=
  Incidents.created_at b <=? Incidents.created_at a.

Definition query (db : Database) (user_id : uuid) : list Incidents.row :=
  order_by by_created_at
    (select_incidents db (Some user_id)
       (fun r => String.eqb (Incidents.user_id r) user_id)).

(** The new value of [incidents] and what is logged and set. *)
Definition fetchIncidents (db : Database) (session : option uuid)
    (served : bool) (incidents : list Incidents.row)
    : list Incidents.row * list ui_event :=
  match session with
  | None => (incidents, [setLoading false])
  | Some user_id =>
      match request served (Ok (query db user_id)) with
      | Ok data => (data, [setLoading false])
      | Err error =>
          (incidents,
           [console_error "Error fetching incidents:" error; setLoading false])
      end
  end.
End Dashboard.

(** ** The admin dashboard *)

Module AdminDashboard.
(** [priority_score] descending, then [created_at] descending; in a
    descending order NULL comes first. *)
Definition by_priority (a b : Incidents.row) : bool :=
  match Incidents.priority_score a, Incidents.priority_score b with
  | None, None => Incidents.created_at b <=? Incidents.created_at a
  | None, Some _ => true
  | Some _, None => false
  | Some x, Some y =>
      (y <? x) || ((y =? x) && (Incidents.created_at b <=? Incidents.created_at a))
  end.

Definition query (db : Database) (auth_uid : option uuid)
    : list Incidents.row :=
  order_by by_priority (select_incidents db auth_uid (fun _ => true)).

Definition is_level (l : threat_level) (i : Incidents.row) : bool :=
  match Incidents.threat_level i with
  | Some l' => threat_level_beq l' l
  | None => false
  end.

Definition is_pending (i : Incidents.row) : bool :=
  incident_status_beq (Incidents.status i) submitted
  || incident_status_beq (Incidents.status i) under_review.

(** [stats]; its fields [critical] and [high] are [n_critical] and
    [n_high] here, next to the threat levels of these names. *)
Record Stats := mkStats {
  total : nat;
  n_critical : nat;
  n_high : nat;
  pending : nat
}.

Definition stats (incidents : list Incidents.row) : Stats :=
  mkStats (List.length incidents)
    (List.length (filter (is_level critical) incidents))
    (List.length (filter (is_level high) incidents))
    (List.length (filter is_pending incidents)).

Definition filterIncidents (incidents : list Incidents.row) (filter_ : string)
    : list Incidents.row :=
  if String.eqb filter_ "critical" then filter (is_level critical) incidents
  else if String.eqb filter_ "high" then filter (is_level high) incidents
  else if String.eqb filter_ "pending" then filter is_pending incidents
  else incidents.

Inductive event :=
| ui (e : ui_event)
| setDetailsOpen (b : bool).

(** [{ status: newStatus }] and [{ threat_level: level }]. *)
Definition status_payload (s : incident_status) : IncidentsUpdate.t :=
  IncidentsUpdate.mk None None None (Some s) None None None None None None
    None None None None None None.

Definition threat_level_payload (l : threat_level) : IncidentsUpdate.t :=
  IncidentsUpdate.mk None None None None (Some (Some l)) None None None None
    None None None None None None None.

Definition update_status_request (db : Database) (auth_uid : option uuid)
    (now : timestamptz) (served : bool) (incidentId newStatus : string)
    : result Database :=
  request served
    match incident_status_in newStatus with
    | None => Err (invalid_enum_value "incident_status" newStatus)
    | Some s =>
        update_incidents db auth_uid now
          (fun r => String.eqb (Incidents.id r) incidentId)
          (status_payload s)
    end.

Definition updateIncidentStatus (db : Database) (auth_uid : option uuid)
    (now : timestamptz) (served : bool) (incidentId newStatus : string)
    : Database * list event :=
  match update_status_request db auth_uid now served incidentId newStatus with
  | Err error =>
      (db, [ui (toast "Update failed" (error_message error) true)])
  | Ok db' =>
      (db',
       [ ui (toast "Status updated"
               "Incident status has been updated successfully" false);
         ui fetchAllIncidents;
         setDetailsOpen false ])
  end.

Definition update_threat_level_request (db : Database)
    (auth_uid : option uuid) (now : timestamptz) (served : bool)
    (incidentId level : string) : result Database :=
  request served
    match threat_level_in level with
    | None => Err (invalid_enum_value "threat_level" level)
    | Some l =>
        update_incidents db auth_uid now
          (fun r => String.eqb (Incidents.id r) incidentId)
          (threat_level_payload l)
    end.

Definition updateThreatLevel (db : Database) (auth_uid : option uuid)
    (now : timestamptz) (served : bool) (incidentId level : string)
    : Database * list event :=
  match update_threat_level_request db auth_uid now served incidentId level
  with
  | Err error =>
      (db, [ui (toast "Update failed" (error_message error) true)])
  | Ok db' =>
      (db',
       [ ui (toast "Threat level updated"
               "Incident threat level has been updated" false);
         ui fetchAllIncidents ])
  end.

(** The new value of [incidents] and what is logged and set. *)
Definition fetchAllIncidents (db : Database) (auth_uid : option uuid)
    (served : bool) (incidents : list Incidents.row)
    : list Incidents.row * list ui_event :=
  match request served (Ok (query db auth_uid)) with
  | Ok data => (data, [setLoading false])
  | Err error =>
      (incidents,
       [console_error "Error fetching incidents:" error; setLoading false])
  end.
End AdminDashboard.

(** ** The navigation bar (Navbar.tsx) *)

Module Navbar.
Record state := mkState {
  user_ : option uuid;
  userRole : app_role
}.

(** [useState(null)] and [useState('user')]. *)
Definition initial : state := mkState None user.

(** [from('user_roles').select('role').eq('user_id', id).single()]. *)
Definition role_query (db : Database) (id : uuid) : result app_role :=
  single
    (map UserRoles.role
       (select_user_roles db (Some id)
          (fun r => String.eqb (UserRoles.user_id r) id))).

(** What both the first lookup of the user and a change of the session
    do: set the user and, when the query has data, the role. *)
Definition on_user (db : Database) (served : bool) (st : state)
    (u : option uuid) : state :=
  match u with
  | None => mkState None (userRole st)
  | Some id =>
      match data (request served (role_query db id)) with
      | Some role => mkState (Some id) role
      | None => mkState (Some id) (userRole st)
      end
  end.

(** Whether the link to "/admin" is rendered. *)
Definition shows_admin_link (st : state) : bool :=
  match user_ st with
  | Some _ =>
      app_role_beq (userRole st) admin
      || app_role_beq (userRole st) cert_admin
  | None => false
  end.
End Navbar.

(** The rows an update by id reaches for a caller: the row has the id and
    the caller filed it or holds [admin] or [cert_admin]. *)
Definition reaches (db : Database) (auth_uid : option uuid)
    (incidentId : string) (r : Incidents.row) : bool :=
  String.eqb (Incidents.id r) incidentId
  && (uid_eq auth_uid (Incidents.user_id r) || is_privileged db auth_uid).

(** ** More sample data *)

Module Demo.
(** A file reported twice in the same millisecond. *)
Definition twins : list File.t :=
  [ File.mk "a.log.txt" "text/plain" 10%N;
    File.mk "b.txt" "text/plain" 20%N ].

Definition env_same_ms : submit_env :=
  mkSubmitEnv (mkRequestEnv true "i2" 30) Sample.timestamps
    (fun k =>
       mkFileEnv 7000 true
         (mkRequestEnv true ("g" ++ string_of_Z (Z.of_nat k)) 31)).

(** One more incident in the sample database, assessed and ranked. *)
Definition db2 : Database :=
  with_incidents Sample.db
    [ Incidents.mk "i1" "u1" phishing submitted None "Suspicious login"
        "..." None None None None None (Some 0) 20 20 None;
      Incidents.mk "i3" "a1" malware investigating (Some critical) "Worm"
        "..." None None None None None (Some 90) 25 26 None;
      Incidents.mk "i4" "u1" fraud under_review (Some high) "Invoice"
        "..." None None None None None None 27 27 None ].
End Demo.

(** * Properties *)

Local Open Scope list_scope.

(** ** Lists and keys *)

Lemma existsb_filter_implied {A} (f g : A -> bool) (l : list A) :
  (forall x, f x = true -> g x = true) ->
  existsb f (filter g l) = existsb f l.
Proof.
  intros Hfg. induction l as [|x l IH]; simpl; [reflexivity|].
  destruct (g x) eqn:Hg; simpl.
  - now rewrite IH.
  - destruct (f x) eqn:Hf; [|exact IH].
    apply Hfg in Hf. congruence.
Qed.

Lemma filter_none {A} (f : A -> bool) (l : list A) :
  (forall x, In x l -> f x = true) -> filter f l = l.
Proof.
  induction l as [|x l IH]; simpl; intros H; [reflexivity|].
  rewrite (H x (or_introl eq_refl)). f_equal. apply IH.
  intros y Hy. apply H. now right.
Qed.

Lemma mem_In (x : uuid) (l : list uuid) : mem x l = true <-> In x l.
Proof.
  unfold mem. rewrite existsb_exists. split.
  - intros (y & Hy & E). apply String.eqb_eq in E. now subst.
  - intros H. exists x. split; [exact H | apply String.eqb_refl].
Qed.

Lemma mem_app (x : uuid) (l1 l2 : list uuid) :
  mem x (l1 ++ l2) = mem x l1 || mem x l2.
Proof. unfold mem. apply existsb_app. Qed.

Lemma distinct_app_one (l : list uuid) (x : uuid) :
  distinct (l ++ [x]) = distinct l && negb (mem x l).
Proof.
  induction l as [|y l IH]; simpl; [reflexivity|].
  rewrite IH, mem_app. simpl. rewrite orb_false_r, (String.eqb_sym x y).
  destruct (mem y l), (y =? x)%string, (distinct l), (mem x l); reflexivity.
Qed.

Lemma distinct_map_app_one {A} (f : A -> uuid) (l : list A) (x : A) :
  distinct (map f (l ++ [x]))
  = distinct (map f l) && negb (mem (f x) (map f l)).
Proof. rewrite map_app. apply distinct_app_one. Qed.

(** ** The policy engine on the tables of the migration *)

Lemma incidents_can_select (db : Database) (C : option uuid)
    (X : Incidents.row) :
  can_select incidents_policies db C X
  = uid_eq C (Incidents.user_id X) || is_privileged db C.
Proof.
  unfold can_select, passes_using, is_privileged. simpl.
  now rewrite orb_false_r.
Qed.

Lemma incidents_passes_using_update (db : Database) (C : option uuid)
    (X : Incidents.row) :
  passes_using incidents_policies UPDATE db C X
  = uid_eq C (Incidents.user_id X) || is_privileged db C.
Proof.
  unfold passes_using, is_privileged. simpl. now rewrite orb_false_r.
Qed.

Lemma incidents_passes_with_check_update (db : Database) (C : option uuid)
    (X : Incidents.row) :
  passes_with_check incidents_policies UPDATE db C X
  = uid_eq C (Incidents.user_id X) || is_privileged db C.
Proof.
  unfold passes_with_check, is_privileged. simpl. now rewrite orb_false_r.
Qed.

Lemma owns_parent_incident_spec (db : Database) (C : option uuid)
    (F : IncidentFiles.row) :
  owns_parent_incident db C F
  = owns_incident db C (IncidentFiles.incident_id F).
Proof.
  unfold owns_parent_incident, owns_incident.
  apply existsb_filter_implied. intros i Hi.
  apply andb_true_iff in Hi as [_ Hi].
  rewrite incidents_can_select, Hi. reflexivity.
Qed.

Lemma incident_files_can_insert (db : Database) (C : option uuid)
    (F : IncidentFiles.row) :
  can_insert incident_files_policies db C F
  = owns_incident db C (IncidentFiles.incident_id F).
Proof.
  unfold can_insert, passes_with_check, eval_with_check, eval_using.
  simpl. rewrite orb_false_r. apply owns_parent_incident_spec.
Qed.

(** C3. A row of [user_roles] can be inserted, updated or deleted exactly
    by a caller who holds [cert_admin]: the three decisions of the policy
    engine equal [has_role _ cert_admin], whatever the row; so a caller
    who holds [admin] but not [cert_admin] is denied all three, and a
    caller without [cert_admin] selects exactly the rows whose [user_id]
    is the caller. *)
Theorem user_roles_managed_by_cert_admin_only :
  forall (db : Database) (C : option uuid) (R R' : UserRoles.row),
    can_insert user_roles_policies db C R = has_role db C cert_admin
    /\ can_update user_roles_policies db C R R' = has_role db C cert_admin
    /\ can_delete user_roles_policies db C R = has_role db C cert_admin
    /\ can_select user_roles_policies db C R
       = uid_eq C (UserRoles.user_id R) || has_role db C cert_admin
    /\ (has_role db C admin && negb (has_role db C cert_admin)
        && (can_insert user_roles_policies db C R
            || can_update user_roles_policies db C R R'
            || can_delete user_roles_policies db C R)) = false.
Proof.
  intros db C R R'.
  assert (Hi : can_insert user_roles_policies db C R
               = has_role db C cert_admin).
  { unfold can_insert, passes_with_check, eval_with_check, eval_using.
    simpl. now rewrite orb_false_r. }
  assert (Hu : can_update user_roles_policies db C R R'
               = has_role db C cert_admin).
  { unfold can_update, passes_using, passes_with_check, eval_with_check,
      eval_using. simpl. rewrite !orb_false_r. apply andb_diag. }
  assert (Hd : can_delete user_roles_policies db C R
               = has_role db C cert_admin).
  { unfold can_delete, passes_using, eval_using. simpl.
    now rewrite orb_false_r. }
  split; [exact Hi|]. split; [exact Hu|]. split; [exact Hd|]. split.
  - unfold can_select, passes_using, eval_using. simpl.
    now rewrite orb_false_r.
  - rewrite Hi, Hu, Hd.
    destruct (has_role db C admin), (has_role db C cert_admin); reflexivity.
Qed.

(** C6. Reading [audit_logs] is permitted exactly to a caller who holds
    [cert_admin] (so not to one who holds only [admin]); inserting into
    [audit_logs] is permitted to every caller, with or without a session,
    whatever the row. *)
Theorem audit_logs_read_cert_admin_insert_open :
  forall (db : Database) (C : option uuid) (L : AuditLogs.row),
    can_select audit_logs_policies db C L = has_role db C cert_admin
    /\ can_insert audit_logs_policies db C L = true
    /\ (has_role db C admin && negb (has_role db C cert_admin)
        && can_select audit_logs_policies db C L) = false.
Proof.
  intros db C L.
  assert (Hs : can_select audit_logs_policies db C L
               = has_role db C cert_admin).
  { unfold can_select, passes_using, eval_using. simpl.
    now rewrite orb_false_r. }
  split; [exact Hs|]. split; [reflexivity|].
  rewrite Hs.
  destruct (has_role db C admin), (has_role db C cert_admin); reflexivity.
Qed.

(** C7. A row of [incident_files] can be selected exactly by a caller who
    owns the parent incident (some row of [incidents] has the file's
    [incident_id] as id and the caller as [user_id]) or holds [admin] or
    [cert_admin]; it can be inserted exactly by a caller who owns the
    parent incident, whatever roles the caller holds. *)
Theorem incident_files_owner_or_admin_view_owner_insert :
  forall (db : Database) (C : option uuid) (F : IncidentFiles.row),
    can_select incident_files_policies db C F
    = owns_incident db C (IncidentFiles.incident_id F)
      || has_role db C admin || has_role db C cert_admin
    /\ can_insert incident_files_policies db C F
       = owns_incident db C (IncidentFiles.incident_id F)
    /\ (negb (owns_incident db C (IncidentFiles.incident_id F))
        && can_insert incident_files_policies db C F) = false.
Proof.
  intros db C F.
  assert (Hi : can_insert incident_files_policies db C F
               = owns_incident db C (IncidentFiles.incident_id F)).
  { apply incident_files_can_insert. }
  split; [|split; [exact Hi|]].
  - unfold can_select, passes_using, eval_using. simpl.
    rewrite orb_false_r, owns_parent_incident_spec.
    now rewrite orb_assoc.
  - rewrite Hi. now destruct (owns_incident _ _ _).
Qed.

Lemma with_incidents_same (db : Database) :
  with_incident_files (with_incidents db (incidents db)) (incident_files db)
  = db.
Proof. now destruct db. Qed.

(** C8. No policy on [incidents] applies to DELETE, so the policy engine
    denies the deletion of every incident to every caller in every state
    of the database, and a DELETE statement on [incidents], whatever its
    WHERE clause, leaves the database as it was. *)
Theorem incidents_never_deleted :
  forall (db : Database) (C : option uuid),
    (forall X : Incidents.row, can_delete incidents_policies db C X = false)
    /\ (forall where_ : Incidents.row -> bool,
          delete_incidents db C where_ = db).
Proof.
  intros db C.
  assert (Hd : forall X, can_delete incidents_policies db C X = false)
    by reflexivity.
  assert (Ht : forall w X, targets incidents_policies DELETE db C w X = false).
  { intros w X. unfold targets.
    fold (can_delete incidents_policies db C X).
    rewrite Hd. apply andb_false_r. }
  split; [exact Hd|].
  intros w. unfold delete_incidents, delete_rows, deleted_rows.
  rewrite (filter_none (fun r => negb (targets incidents_policies DELETE db C w r))).
  - replace (filter (targets incidents_policies DELETE db C w) (incidents db))
      with (@nil Incidents.row).
    + simpl. rewrite filter_none by reflexivity. apply with_incidents_same.
    + induction (incidents db) as [|X l IH]; simpl; [reflexivity|].
      now rewrite Ht.
  - intros X _. now rewrite Ht.
Qed.

(** ** UPDATE statements *)

Section UpdateRows.
Context {Row : Type}.
Variable table : string.
Variable ps : list (policy Row).
Variable before_update : timestamptz -> Row -> Row.
Variables (db : Database) (C : option uuid) (now : timestamptz).
Variables (where_ : Row -> bool) (set : Row -> Row).

Lemma update_rows_ok (rows rows' : list Row) :
  update_rows table ps before_update db C now where_ set rows = Ok rows' ->
  rows' = map (updated ps before_update db C now where_ set) rows.
Proof.
  revert rows'. induction rows as [|r rest IH]; simpl; intros rows' H.
  - now inversion H.
  - unfold updated at 1.
    destruct (targets ps UPDATE db C where_ r).
    + destruct (passes_with_check ps UPDATE db C (before_update now (set r))
                && can_select ps db C (before_update now (set r)));
        [|discriminate].
      destruct (update_rows _ _ _ _ _ _ _ _ rest) as [rest'|e];
        [|discriminate].
      inversion H. f_equal. now apply IH.
    + destruct (update_rows _ _ _ _ _ _ _ _ rest) as [rest'|e];
        [|discriminate].
      inversion H. f_equal. now apply IH.
Qed.

Lemma update_rows_succeeds (rows : list Row) :
  (forall r, In r rows -> targets ps UPDATE db C where_ r = true ->
     passes_with_check ps UPDATE db C (before_update now (set r))
     && can_select ps db C (before_update now (set r)) = true) ->
  update_rows table ps before_update db C now where_ set rows
  = Ok (map (updated ps before_update db C now where_ set) rows).
Proof.
  induction rows as [|r rest IH]; simpl; intros H; [reflexivity|].
  rewrite IH by (intros r' Hr'; apply H; now right).
  specialize (H r (or_introl eq_refl)).
  assert (E : updated ps before_update db C now where_ set r
              = if targets ps UPDATE db C where_ r
                then before_update now (set r) else r) by reflexivity.
  rewrite E. clear E.
  destruct (targets ps UPDATE db C where_ r); [|reflexivity].
  now rewrite H.
Qed.
End UpdateRows.

Lemma forallb_map_ext {A B} (f : A -> B) (g : A -> A) (p : B -> bool)
    (l : list A) :
  (forall x, f (g x) = f x) ->
  forallb (fun x => p (f x)) (map g l) = forallb (fun x => p (f x)) l.
Proof.
  intros E. induction l as [|x l IH]; simpl; [reflexivity|].
  now rewrite E, IH.
Qed.

Lemma map_map_ext {A B} (f : A -> B) (g : A -> A) (l : list A) :
  (forall x, f (g x) = f x) -> map f (map g l) = map f l.
Proof.
  intros E. rewrite map_map. apply map_ext. exact E.
Qed.

Lemma incidents_constraints_map (db : Database) (g : Incidents.row -> Incidents.row)
    (rows : list Incidents.row) :
  (forall r, Incidents.id (g r) = Incidents.id r) ->
  (forall r, Incidents.user_id (g r) = Incidents.user_id r) ->
  (forall r, Incidents.assigned_to (g r) = Incidents.assigned_to r) ->
  incidents_constraints db (map g rows) = incidents_constraints db rows.
Proof.
  intros Hid Hu Ha. unfold incidents_constraints.
  rewrite (map_map_ext Incidents.id g rows Hid).
  rewrite (forallb_map_ext Incidents.user_id g
             (fun u => mem u (user_ids db)) rows Hu).
  rewrite (forallb_map_ext Incidents.assigned_to g
             (fun a => opt_mem a (user_ids db)) rows Ha).
  reflexivity.
Qed.

(** An UPDATE of [incidents] that leaves the key columns alone, with a
    [priority_score] that is an [INTEGER], cannot fail in a consistent
    table: the row a caller may update is still one the caller may update
    and select afterwards. *)
Lemma update_incidents_succeeds (db : Database) (C : option uuid)
    (now : timestamptz) (where_ : Incidents.row -> bool)
    (v : IncidentsUpdate.t) :
  incidents_constraints db (incidents db) = Ok tt ->
  IncidentsUpdate.id v = None ->
  IncidentsUpdate.user_id v = None ->
  IncidentsUpdate.assigned_to v = None ->
  int4_in (default None (IncidentsUpdate.priority_score v)) = Ok tt ->
  update_incidents db C now where_ v
  = Ok (with_incidents db
          (map (updated incidents_policies handle_updated_at db C now where_
                  (incidents_set v))
             (incidents db))).
Proof.
  intros Hc Hid Hu Ha Hp. unfold update_incidents. rewrite Hp.
  rewrite update_rows_succeeds.
  - rewrite incidents_constraints_map, Hc; [reflexivity| | |];
      intros r; unfold updated;
      destruct (targets _ _ _ _ _ r); try reflexivity; simpl;
      [rewrite Hid | rewrite Hu | rewrite Ha]; reflexivity.
  - intros r _ Ht. unfold targets in Ht.
    apply andb_true_iff in Ht as [_ Ht].
    rewrite incidents_passes_using_update in Ht.
    rewrite incidents_passes_with_check_update, incidents_can_select.
    simpl. rewrite Hu. simpl. now rewrite Ht.
Qed.

Lemma Forall2_map_updated {A} (P : A -> A -> Prop) (f : A -> A)
    (l : list A) :
  (forall x, P x (f x)) -> Forall2 P l (map f l).
Proof.
  intros H. induction l as [|x l IH]; simpl; constructor; auto.
Qed.




(** C4, as the triggers have it. A successful UPDATE of [incidents] or
    [profiles] leaves a row it does not target as it is and replaces a
    row it targets by the row the payload describes with [updated_at]
    set to the server's time of the update, whatever columns the payload
    names and whatever [updated_at] it carries; so the new [updated_at]
    is the time of the update, and is not before the old one when the old
    one is not after the time of the update. *)
Theorem updated_at_is_server_time :
  forall (db : Database) (C : option uuid) (now : timestamptz),
    (forall (where_ : Incidents.row -> bool) (v : IncidentsUpdate.t)
            (db' : Database),
        update_incidents db C now where_ v = Ok db' ->
        Forall2
          (fun old new =>
             if targets incidents_policies UPDATE db C where_ old
             then new = set_updated_at now (incidents_set v old)
                  /\ Incidents.updated_at new = now
                  /\ (Incidents.updated_at old <= now ->
                      Incidents.updated_at old <= Incidents.updated_at new)
             else new = old)
          (incidents db) (incidents db'))
    /\ (forall (where_ : Profiles.row -> bool) (v : ProfilesUpdate.t)
               (db' : Database),
          update_profiles db C now where_ v = Ok db' ->
          Forall2
            (fun old new =>
               if targets profiles_policies UPDATE db C where_ old
               then new = set_updated_at now (profiles_set v old)
                    /\ Profiles.updated_at new = now
                    /\ (Profiles.updated_at old <= now ->
                        Profiles.updated_at old <= Profiles.updated_at new)
               else new = old)
            (profiles db) (profiles db')).
Proof.
  intros db C now. split.
  - intros w v db' H. unfold update_incidents in H.
    destruct (int4_in _); [|discriminate].
    destruct (update_rows _ _ _ _ _ _ _ _ _) as [rows|e] eqn:Hrows;
      [|discriminate].
    destruct (incidents_constraints db rows); [|discriminate].
    inversion H; subst db'; clear H. simpl.
    apply update_rows_ok in Hrows. subst rows.
    apply Forall2_map_updated. intros old. unfold updated.
    destruct (targets incidents_policies UPDATE db C w old); [|reflexivity].
    split; [reflexivity|]. split; [reflexivity|]. intros Hle. exact Hle.
  - intros w v db' H. unfold update_profiles in H.
    destruct (update_rows _ _ _ _ _ _ _ _ _) as [rows|e] eqn:Hrows;
      [|discriminate].
    destruct (profiles_constraints db rows); [|discriminate].
    inversion H; subst db'; clear H. simpl.
    apply update_rows_ok in Hrows. subst rows.
    apply Forall2_map_updated. intros old. unfold updated.
    destruct (targets profiles_policies UPDATE db C w old); [|reflexivity].
    split; [reflexivity|]. split; [reflexivity|]. intros Hle. exact Hle.
Qed.

(** The filer inserts an incident at time 30 and sends [updated_at]
    100000 with it: no trigger fires on insert, the value is stored. The
    update at the later time 40 sets [updated_at] to 40, which is before
    the value the row had. *)
Lemma updated_at_moves_backwards :
  exists db1 X db2 X',
    insert_incidents Sample.db (Some "u1") "i2" 30 false Sample.postdated
    = Ok (db1, X)
    /\ 30 <= 40
    /\ update_incidents db1 (Some "u1") 40
         (fun r => String.eqb (Incidents.id r) "i2") Sample.triage = Ok db2
    /\ select_incidents db2 (Some "u1")
         (fun r => String.eqb (Incidents.id r) "i2") = [X']
    /\ Incidents.status X' = resolved
    /\ Incidents.updated_at X' < Incidents.updated_at X.
Proof.
  do 4 eexists.
  split; [reflexivity|]. split; [lia|]. split; [reflexivity|].
  split; [reflexivity|]. split; reflexivity.
Qed.

Lemma updated_at_is_server_time_witness :
  exists db1 db2,
    update_incidents Sample.db (Some "u1") 50
      (fun r => String.eqb (Incidents.id r) "i1") Sample.backdate = Ok db1
    /\ update_profiles Sample.db (Some "u1") 50
         (fun r => String.eqb (Profiles.id r) "u1") Sample.rename = Ok db2
    /\ map Incidents.updated_at (incidents db1) = [50]
    /\ map Profiles.updated_at (profiles db2) = [50; 11; 12]
    /\ Forall2
         (fun old new =>
            if targets incidents_policies UPDATE Sample.db (Some "u1")
                 (fun r => String.eqb (Incidents.id r) "i1") old
            then new = set_updated_at 50 (incidents_set Sample.backdate old)
                 /\ Incidents.updated_at new = 50
                 /\ (Incidents.updated_at old <= 50 ->
                     Incidents.updated_at old <= Incidents.updated_at new)
            else new = old)
         (incidents Sample.db) (incidents db1)
    /\ Forall2
         (fun old new =>
            if targets profiles_policies UPDATE Sample.db (Some "u1")
                 (fun r => String.eqb (Profiles.id r) "u1") old
            then new = set_updated_at 50 (profiles_set Sample.rename old)
                 /\ Profiles.updated_at new = 50
                 /\ (Profiles.updated_at old <= 50 ->
                     Profiles.updated_at old <= Profiles.updated_at new)
            else new = old)
         (profiles Sample.db) (profiles db2).
Proof.
  do 2 eexists.
  split; [reflexivity|]. split; [reflexivity|].
  split; [reflexivity|]. split; [reflexivity|].
  split.
  - apply (proj1 (updated_at_is_server_time Sample.db (Some "u1") 50)
             (fun r => String.eqb (Incidents.id r) "i1") Sample.backdate).
    reflexivity.
  - apply (proj2 (updated_at_is_server_time Sample.db (Some "u1") 50)
             (fun r => String.eqb (Profiles.id r) "u1") Sample.rename).
    reflexivity.
Defined.

(** ** Identity bootstrap *)

Lemma profiles_constraints_ok (db : Database) (rows : list Profiles.row) :
  profiles_constraints db rows = Ok tt <->
  distinct (map Profiles.id rows) = true
  /\ forallb (fun r => mem (Profiles.id r) (user_ids db)) rows = true.
Proof.
  unfold profiles_constraints.
  destruct (distinct _), (forallb _ _); simpl; intuition congruence.
Qed.

Lemma user_roles_constraints_ok (db : Database) (rows : list UserRoles.row) :
  user_roles_constraints db rows = Ok tt <->
  distinct (map UserRoles.id rows) = true
  /\ unique_user_role rows = true
  /\ forallb (fun r => mem (UserRoles.user_id r) (user_ids db)) rows = true
  /\ forallb (fun r => opt_mem (UserRoles.assigned_by r) (user_ids db)) rows
     = true.
Proof.
  unfold user_roles_constraints.
  destruct (distinct _), (unique_user_role _), (forallb _ _), (forallb _ _);
    simpl; intuition congruence.
Qed.

Lemma filter_key_nil {A} (f : A -> uuid) (I : uuid) (l : list A) :
  mem I (map f l) = false -> filter (fun x => String.eqb (f x) I) l = [].
Proof.
  induction l as [|x l IH]; simpl; [reflexivity|].
  rewrite (String.eqb_sym I (f x)).
  destruct (f x =? I)%string; simpl; [discriminate|exact IH].
Qed.

Lemma not_mem_of_fk {A} (f : A -> uuid) (I : uuid) (ids : list uuid)
    (l : list A) :
  forallb (fun x => mem (f x) ids) l = true ->
  mem I ids = false ->
  mem I (map f l) = false.
Proof.
  intros Hfk HI. induction l as [|x l IH]; simpl in *; [reflexivity|].
  apply andb_true_iff in Hfk as [Hx Hl]. rewrite (IH Hl), orb_false_r.
  destruct (I =? f x)%string eqn:E; [|reflexivity].
  apply String.eqb_eq in E. subst. congruence.
Qed.

Lemma fk_weaken {A} (f : A -> uuid) (ids : list uuid) (I : uuid)
    (l : list A) :
  forallb (fun x => mem (f x) ids) l = true ->
  forallb (fun x => mem (f x) (ids ++ [I])) l = true.
Proof.
  intros H. rewrite forallb_forall in *. intros x Hx.
  rewrite mem_app, (H x Hx). reflexivity.
Qed.

Lemma opt_fk_weaken {A} (f : A -> option uuid) (ids : list uuid) (I : uuid)
    (l : list A) :
  forallb (fun x => opt_mem (f x) ids) l = true ->
  forallb (fun x => opt_mem (f x) (ids ++ [I])) l = true.
Proof.
  intros H. rewrite forallb_forall in *. intros x Hx.
  specialize (H x Hx). destruct (f x) as [u|]; simpl in *; [|reflexivity].
  rewrite mem_app, H. reflexivity.
Qed.

Lemma app_role_beq_sym (a b : app_role) : app_role_beq a b = app_role_beq b a.
Proof. now destruct a, b. Qed.

Lemma same_user_role_sym (r r' : UserRoles.row) :
  same_user_role r r' = same_user_role r' r.
Proof.
  unfold same_user_role.
  now rewrite String.eqb_sym, app_role_beq_sym.
Qed.

Lemma unique_user_role_app_one (l : list UserRoles.row) (r : UserRoles.row) :
  unique_user_role (l ++ [r])
  = unique_user_role l && negb (existsb (same_user_role r) l).
Proof.
  induction l as [|x l IH]; simpl; [reflexivity|].
  rewrite IH, existsb_app. simpl.
  rewrite orb_false_r, (same_user_role_sym r x).
  destruct (existsb (same_user_role x) l), (same_user_role x r),
    (unique_user_role l), (existsb (same_user_role r) l); reflexivity.
Qed.

Lemma roles_of_nil (rows : list UserRoles.row) (I : uuid) (ro : app_role)
    (r : UserRoles.row) :
  UserRoles.user_id r = I -> UserRoles.role r = ro ->
  existsb (same_user_role r) rows = false ->
  filter (fun r' => String.eqb (UserRoles.user_id r') I
                    && app_role_beq (UserRoles.role r') ro) rows = [].
Proof.
  intros <- <-. induction rows as [|x l IH]; simpl; [reflexivity|].
  rewrite (same_user_role_sym r x). unfold same_user_role at 1.
  destruct ((UserRoles.user_id x =? UserRoles.user_id r)%string
            && app_role_beq (UserRoles.role x) (UserRoles.role r)); simpl;
    [discriminate | exact IH].
Qed.

Lemma assoc_In {A} (k : string) (v : A) (l : list (string * A)) :
  NoDup (map fst l) -> In (k, v) l -> assoc k l = Some v.
Proof.
  induction l as [|[k' v'] l IH]; simpl; intros Hnd Hin; [contradiction|].
  inversion Hnd as [|? ? Hk Hl]; subst.
  destruct Hin as [E|Hin].
  - inversion E; subst. now rewrite String.eqb_refl.
  - destruct (k =? k')%string eqn:E; [|now apply IH].
    apply String.eqb_eq in E. subst k'. exfalso. apply Hk.
    apply in_map_iff. now exists (k, v).
Qed.

Lemma assoc_not_In {A} (k : string) (l : list (string * A)) :
  ~ In k (map fst l) -> assoc k l = None.
Proof.
  induction l as [|[k' v'] l IH]; simpl; intros H; [reflexivity|].
  destruct (k =? k')%string eqn:E.
  - apply String.eqb_eq in E. subst. exfalso. apply H. now left.
  - apply IH. intros Hin. apply H. now right.
Qed.

(** The checks on a new profile look at its id only. *)
Lemma profiles_constraints_new (db : Database) (P P' : Profiles.row) :
  Profiles.id P = Profiles.id P' ->
  profiles_constraints db (profiles db ++ [P])
  = profiles_constraints db (profiles db ++ [P']).
Proof.
  intros E. unfold profiles_constraints.
  rewrite !map_app, !forallb_app. simpl. now rewrite E.
Qed.

(** What a successful creation leaves for the new identity. *)
Lemma insert_auth_users_rows (db db' : Database) (NEW : AuthUsers.row)
    (gen : uuid) (now : timestamptz) :
  insert_auth_users db NEW gen now = Ok db' ->
  In NEW (auth_users db')
  /\ profiles_of db' (AuthUsers.id NEW)
     = [ Profiles.mk (AuthUsers.id NEW)
           (COALESCE
              (json_get_text (AuthUsers.raw_user_meta_data NEW) "full_name")
              "User")
           None None None now now ]
  /\ roles_of db' (AuthUsers.id NEW) user
     = [ UserRoles.mk gen (AuthUsers.id NEW) user now None ].
Proof.
  intros H. unfold insert_auth_users in H.
  destruct (mem (AuthUsers.id NEW) (user_ids db)); [discriminate|].
  unfold handle_new_user in H.
  destruct (profiles_constraints _ _) as [[]|] eqn:Hp; [|discriminate].
  destruct (user_roles_constraints _ _) as [[]|] eqn:Hr; [|discriminate].
  inversion H; subst db'; clear H.
  apply profiles_constraints_ok in Hp as [Hp _].
  apply user_roles_constraints_ok in Hr as (_ & Hr & _).
  simpl in Hp, Hr. rewrite distinct_map_app_one in Hp.
  rewrite unique_user_role_app_one in Hr.
  apply andb_true_iff in Hp as [_ Hp]. apply negb_true_iff in Hp.
  apply andb_true_iff in Hr as [_ Hr]. apply negb_true_iff in Hr.
  simpl in Hp.
  split; [simpl; apply in_or_app; right; now left|]. split.
  - unfold profiles_of. simpl. rewrite filter_app.
    rewrite (filter_key_nil Profiles.id _ _ Hp). simpl.
    now rewrite String.eqb_refl.
  - unfold roles_of. simpl. rewrite filter_app.
    rewrite (roles_of_nil (user_roles db) (AuthUsers.id NEW) user
               (UserRoles.mk gen (AuthUsers.id NEW) user now None)
               eq_refl eq_refl Hr). simpl.
    now rewrite String.eqb_refl.
Qed.

(** C2. Creating the identity [I] either fails and leaves the database
    as it was, or adds the identity together with exactly one profile
    with id [I] and exactly one role assignment [(I, user)]: there is no
    state with the identity and only one of the two. The [full_name] of
    the profile is the text that the metadata give under "full_name",
    and "User" when there are no metadata, when they have no such key and
    when its value is a JSON null. When the check of either of the two
    inserts fails, the creation fails as a whole. In a consistent
    database a new identity (with a fresh id for its role row) is always
    created. *)
Theorem identity_bootstrap_is_atomic :
  forall (db : Database) (NEW : AuthUsers.row) (gen : uuid)
         (now : timestamptz),
    let I := AuthUsers.id NEW in
    let meta := AuthUsers.raw_user_meta_data NEW in
    let db' := create_identity db NEW gen now in
    let with_I := with_auth_users db (auth_users db ++ [NEW]) in
    (if is_ok (insert_auth_users db NEW gen now)
     then In NEW (auth_users db')
          /\ profiles_of db' I
             = [ Profiles.mk I (COALESCE (json_get_text meta "full_name") "User")
                   None None None now now ]
          /\ roles_of db' I user = [ UserRoles.mk gen I user now None ]
     else db' = db)
    /\ (is_ok (insert_auth_users db NEW gen now) = true ->
        (forall fields name,
            meta = Some fields -> NoDup (map fst fields) ->
            In ("full_name", JString name) fields ->
            map Profiles.full_name (profiles_of db' I) = [name])
        /\ (meta = None
            \/ (exists fields,
                  meta = Some fields
                  /\ (~ In "full_name" (map fst fields)
                      \/ (NoDup (map fst fields)
                          /\ In ("full_name", JNull) fields))) ->
            map Profiles.full_name (profiles_of db' I) = ["User"]))
    /\ (forall name,
          is_ok (profiles_constraints with_I
                   (profiles db ++ [Profiles.mk I name None None None now now]))
          = false ->
          is_ok (insert_auth_users db NEW gen now) = false /\ db' = db)
    /\ (is_ok (user_roles_constraints with_I
                 (user_roles db ++ [UserRoles.mk gen I user now None]))
        = false ->
        is_ok (insert_auth_users db NEW gen now) = false /\ db' = db)
    /\ (profiles_constraints db (profiles db) = Ok tt ->
        user_roles_constraints db (user_roles db) = Ok tt ->
        mem I (user_ids db) = false ->
        mem gen (map UserRoles.id (user_roles db)) = false ->
        is_ok (insert_auth_users db NEW gen now) = true).
Proof.
  intros db NEW gen now I meta db' with_I.
  assert (Hrows : forall d,
             insert_auth_users db NEW gen now = Ok d ->
             db' = d
             /\ In NEW (auth_users d)
             /\ profiles_of d I
                = [ Profiles.mk I
                      (COALESCE (json_get_text meta "full_name") "User")
                      None None None now now ]
             /\ roles_of d I user = [ UserRoles.mk gen I user now None ]).
  { intros d H. split; [unfold db', create_identity; now rewrite H|].
    exact (insert_auth_users_rows db d NEW gen now H). }
  assert (Hfail : is_ok (insert_auth_users db NEW gen now) = false ->
                  is_ok (insert_auth_users db NEW gen now) = false
                  /\ db' = db).
  { intros H. split; [exact H|]. unfold db', create_identity.
    destruct (insert_auth_users db NEW gen now); [discriminate|reflexivity]. }
  split; [|split; [|split; [|split]]].
  - destruct (insert_auth_users db NEW gen now) as [d|e] eqn:H; simpl.
    + destruct (Hrows d eq_refl) as (-> & H1 & H2 & H3). auto.
    + unfold db', create_identity. now rewrite H.
  - intros Hok.
    destruct (insert_auth_users db NEW gen now) as [d|e] eqn:H;
      [|discriminate].
    destruct (Hrows d eq_refl) as (-> & _ & Hp & _). rewrite Hp. simpl.
    split.
    + intros fields name Hm Hnd Hin. rewrite Hm. unfold json_get_text.
      now rewrite (assoc_In _ _ _ Hnd Hin).
    + intros [Hm|(fields & Hm & [Hno|[Hnd Hin]])]; rewrite Hm;
        unfold json_get_text; [reflexivity| |].
      * now rewrite (assoc_not_In _ _ Hno).
      * now rewrite (assoc_In _ _ _ Hnd Hin).
  - intros name Hp. apply Hfail. unfold insert_auth_users.
    destruct (mem (AuthUsers.id NEW) (user_ids db)); [reflexivity|].
    unfold handle_new_user. fold with_I. fold I.
    match goal with
    | |- context [profiles_constraints with_I (profiles with_I ++ [?P])] =>
        rewrite (profiles_constraints_new with_I P
                   (Profiles.mk I name None None None now now) eq_refl)
    end.
    change (profiles with_I) with (profiles db).
    destruct (profiles_constraints with_I _); [discriminate|reflexivity].
  - intros Hr. apply Hfail. unfold insert_auth_users.
    destruct (mem (AuthUsers.id NEW) (user_ids db)); [reflexivity|].
    unfold handle_new_user. fold with_I. fold I.
    destruct (profiles_constraints with_I _); [|reflexivity].
    match goal with
    | |- context [user_roles_constraints ?d ?l] =>
        change (user_roles_constraints d l)
          with (user_roles_constraints with_I
                  (user_roles db ++ [UserRoles.mk gen I user now None]))
    end.
    destruct (user_roles_constraints with_I _); [discriminate|reflexivity].
  - intros Hp Hr HI Hgen.
    apply profiles_constraints_ok in Hp as [Hp1 Hp2].
    apply user_roles_constraints_ok in Hr as (Hr1 & Hr2 & Hr3 & Hr4).
    unfold insert_auth_users. fold I. rewrite HI.
    unfold handle_new_user.
    assert (Hu : user_ids (with_auth_users db (auth_users db ++ [NEW]))
                 = (user_ids db ++ [I])%list).
    { unfold user_ids. simpl. now rewrite map_app. }
    assert (Hself : mem I (user_ids db ++ [I])%list = true).
    { rewrite mem_app. simpl. rewrite String.eqb_refl.
      now rewrite orb_true_r. }
    match goal with
    | |- context [profiles_constraints ?d ?l] =>
        assert (Hp' : profiles_constraints d l = Ok tt)
    end.
    { apply profiles_constraints_ok. rewrite Hu. simpl. split.
      - rewrite distinct_map_app_one, Hp1. simpl. fold I.
        now rewrite (not_mem_of_fk Profiles.id I _ _ Hp2 HI).
      - rewrite forallb_app, (fk_weaken Profiles.id _ I _ Hp2). simpl.
        fold I. now rewrite Hself. }
    rewrite Hp'.
    match goal with
    | |- context [user_roles_constraints ?d ?l] =>
        assert (Hr' : user_roles_constraints d l = Ok tt)
    end.
    { apply user_roles_constraints_ok.
      match goal with
      | |- context [user_ids (with_profiles ?d ?l)] =>
          change (user_ids (with_profiles d l)) with (user_ids d)
      end.
      rewrite Hu. simpl.
      split; [|split; [|split]].
      - rewrite distinct_map_app_one, Hr1. simpl. now rewrite Hgen.
      - rewrite unique_user_role_app_one, Hr2. simpl.
        apply negb_true_iff.
        destruct (existsb _ (user_roles db)) eqn:E; [|reflexivity].
        apply existsb_exists in E as (r & Hin & E).
        apply andb_true_iff in E as [E _]. simpl in E.
        apply String.eqb_eq in E.
        rewrite forallb_forall in Hr3. specialize (Hr3 r Hin).
        rewrite <- E in Hr3. fold I in Hr3. congruence.
      - rewrite forallb_app, (fk_weaken UserRoles.user_id _ I _ Hr3).
        simpl. fold I. now rewrite Hself.
      - rewrite forallb_app,
          (opt_fk_weaken UserRoles.assigned_by _ I _ Hr4). reflexivity. }
    rewrite Hr'. reflexivity.
Qed.

(** A new identity whose metadata carry a name gets a profile with that
    name; one without metadata gets "User"; and when the id drawn for the
    role row is taken, the role insert fails after the profile insert has
    passed, and neither the identity nor the profile is there. *)
Lemma identity_bootstrap_is_atomic_witness :
  profiles_constraints Sample.db (profiles Sample.db) = Ok tt
  /\ user_roles_constraints Sample.db (user_roles Sample.db) = Ok tt
  /\ mem "n1" (user_ids Sample.db) = false
  /\ mem "r7" (map UserRoles.id (user_roles Sample.db)) = false
  /\ is_ok (insert_auth_users Sample.db Sample.newcomer "r7" 60) = true
  /\ NoDup (map fst [("rank", JString "Major");
                     ("full_name", JString "Bela Nair")])
  /\ map Profiles.full_name
       (profiles_of (create_identity Sample.db Sample.newcomer "r7" 60) "n1")
     = ["Bela Nair"]
  /\ map Profiles.full_name
       (profiles_of
          (create_identity Sample.db (AuthUsers.mk "n1" None) "r7" 60) "n1")
     = ["User"]
  /\ is_ok (profiles_constraints
              (with_auth_users Sample.db
                 (auth_users Sample.db ++ [Sample.newcomer]))
              (profiles Sample.db
               ++ [Profiles.mk "n1" "Bela Nair" None None None 60 60]))
     = true
  /\ is_ok (user_roles_constraints
              (with_auth_users Sample.db
                 (auth_users Sample.db ++ [Sample.newcomer]))
              (user_roles Sample.db ++ [UserRoles.mk "r1" "n1" user 60 None]))
     = false
  /\ create_identity Sample.db Sample.newcomer "r1" 60 = Sample.db.
Proof.
  assert (Hnd : NoDup (map fst [("rank", JString "Major");
                                ("full_name", JString "Bela Nair")])).
  { simpl. constructor; [intros [E|[]]; discriminate|].
    constructor; [intros []|constructor]. }
  pose proof (identity_bootstrap_is_atomic Sample.db Sample.newcomer "r7" 60)
    as (_ & Hname & _ & _ & Hok).
  pose proof (identity_bootstrap_is_atomic Sample.db (AuthUsers.mk "n1" None)
                "r7" 60) as (_ & Hdef & _).
  pose proof (identity_bootstrap_is_atomic Sample.db Sample.newcomer "r1" 60)
    as (_ & _ & _ & Hrole & _).
  split; [reflexivity|]. split; [reflexivity|]. split; [reflexivity|].
  split; [reflexivity|].
  split; [apply Hok; reflexivity|].
  split; [exact Hnd|].
  split.
  { apply (proj1 (Hname eq_refl)
             [("rank", JString "Major"); ("full_name", JString "Bela Nair")]);
      [reflexivity | exact Hnd | right; now left]. }
  split; [apply (proj2 (Hdef eq_refl)); now left|].
  split; [reflexivity|]. split; [reflexivity|].
  exact (proj2 (Hrole eq_refl)).
Defined.

(** ** The admin dashboard's access check *)

Section RoleRows.
Variables (uid : uuid) (ro : app_role).

Lemma has_role_holds (db : Database) :
  has_role db (Some uid) ro = existsb (holds uid ro) (user_roles db).
Proof.
  unfold has_role, holds, uid_eq.
  induction (user_roles db) as [|x l IH]; simpl; [reflexivity|].
  now rewrite IH, (String.eqb_sym uid).
Qed.

Lemma holds_same (x r : UserRoles.row) :
  holds uid ro x = true -> holds uid ro r = true -> same_user_role x r = true.
Proof.
  unfold holds, same_user_role. intros Hx Hr.
  apply andb_true_iff in Hx as [Hx1 Hx2].
  apply andb_true_iff in Hr as [Hr1 Hr2].
  apply String.eqb_eq in Hx1, Hr1.
  apply internal_app_role_dec_bl in Hx2, Hr2.
  rewrite Hx1, Hr1, Hx2, Hr2, String.eqb_refl.
  now destruct ro.
Qed.

(** UNIQUE (user_id, role): at most one row says that [uid] holds
    [ro], and [has_role] tells whether there is one. *)
Lemma holds_at_most_once (rows : list UserRoles.row) :
  unique_user_role rows = true ->
  List.length (filter (holds uid ro) rows)
  = if existsb (holds uid ro) rows then 1%nat else 0%nat.
Proof.
  induction rows as [|x l IH]; simpl; [reflexivity|]. intros H.
  apply andb_true_iff in H as [Hx Hl]. apply negb_true_iff in Hx.
  specialize (IH Hl).
  destruct (holds uid ro x) eqn:Ex; simpl; [|exact IH].
  rewrite IH.
  destruct (existsb (holds uid ro) l) eqn:El; [|reflexivity].
  apply existsb_exists in El as (r & Hin & Er).
  assert (existsb (same_user_role x) l = true).
  { apply existsb_exists. exists r. split; [exact Hin|].
    now apply holds_same. }
  congruence.
Qed.
End RoleRows.

Lemma filter_length_or {A} (f g : A -> bool) (l : list A) :
  (forall x, f x && g x = false) ->
  List.length (filter (fun x => f x || g x) l)
  = (List.length (filter f l) + List.length (filter g l))%nat.
Proof.
  intros D. induction l as [|x l IH]; simpl; [reflexivity|].
  specialize (D x).
  destruct (f x), (g x); simpl in *; try discriminate; lia.
Qed.

Lemma data_single_length {A} (l : list A) :
  match data (single l) with Some _ => true | None => false end
  = Nat.eqb (List.length l) 1.
Proof. destruct l as [|x [|y l]]; reflexivity. Qed.

(** The rows the query of [checkAdminAccess] returns for [uid]. *)
Lemma privileged_rows_length (db : Database) (uid : uuid) :
  List.length
    (select_user_roles db (Some uid)
       (fun r => String.eqb (UserRoles.user_id r) uid
                 && role_in [admin; cert_admin] r))
  = (List.length (filter (holds uid admin) (user_roles db))
     + List.length (filter (holds uid cert_admin) (user_roles db)))%nat.
Proof.
  unfold select_user_roles.
  rewrite <- filter_length_or.
  - f_equal. apply filter_ext. intros r. unfold holds, role_in. simpl.
    unfold can_select, passes_using, eval_using. simpl.
    rewrite (String.eqb_sym uid).
    destruct (UserRoles.user_id r =? uid)%string; simpl; [|reflexivity].
    rewrite !orb_false_r, andb_true_r. reflexivity.
  - intros r. unfold holds.
    destruct (UserRoles.user_id r =? uid)%string,
      (UserRoles.role r); reflexivity.
Qed.

(** C9, as the access check has it. For a signed-in caller, and with
    the UNIQUE (user_id, role) constraint of [user_roles],
    [checkAdminAccess] grants access (sets [isAdmin]) exactly when the
    query is answered and the caller holds one of [admin] and
    [cert_admin] and not the other. A caller who holds both gets two rows
    and no data from the single-row query, is told "Access Denied" and is
    sent to "/dashboard"; so is every caller whose query is not answered;
    and when a call throws, the error is logged and the caller sent to
    "/dashboard". *)
Theorem checkAdminAccess_needs_exactly_one_role :
  forall (db : Database) (uid : uuid) (q : reply),
    unique_user_role (user_roles db) = true ->
    access_granted (checkAdminAccess db (Some uid) q)
    = is_answered q
      && xorb (has_role db (Some uid) admin)
           (has_role db (Some uid) cert_admin)
    /\ (if has_role db (Some uid) admin && has_role db (Some uid) cert_admin
        then checkAdminAccess db (Some uid) answered
             = [ toast "Access Denied" "You don't have admin permissions"
                   true;
                 navigate "/dashboard" ]
        else True)
    /\ checkAdminAccess db (Some uid) unanswered
       = [ toast "Access Denied" "You don't have admin permissions" true;
           navigate "/dashboard" ]
    /\ (forall e, checkAdminAccess db (Some uid) (thrown e)
                  = [ console_error "Error checking admin access:" e;
                      navigate "/dashboard" ]).
Proof.
  intros db uid q Hu.
  pose proof (privileged_rows_length db uid) as Hlen.
  rewrite (holds_at_most_once uid admin _ Hu),
    (holds_at_most_once uid cert_admin _ Hu),
    <- !has_role_holds in Hlen.
  pose proof (data_single_length
                (map UserRoles.role
                   (select_user_roles db (Some uid)
                      (fun r => String.eqb (UserRoles.user_id r) uid
                                && role_in [admin; cert_admin] r)))) as Hd.
  rewrite length_map, Hlen in Hd.
  split; [|split; [|split; [reflexivity | reflexivity]]].
  - destruct q as [| |e]; [|reflexivity|reflexivity].
    unfold checkAdminAccess, request, is_answered.
    destruct (data _) as [ro|];
      destruct (has_role db (Some uid) admin),
        (has_role db (Some uid) cert_admin);
      simpl in *; try discriminate; reflexivity.
  - unfold checkAdminAccess, request, is_answered.
    destruct (data _) as [ro|];
      destruct (has_role db (Some uid) admin),
        (has_role db (Some uid) cert_admin);
      simpl in *; try discriminate; try reflexivity; exact I.
Qed.

(** The sample identity [a1] holds [admin] and not [cert_admin]: exactly
    one of the two roles. When the role query is not answered, the check
    gets no data and turns [a1] away. *)
Lemma sole_admin_is_denied_without_an_answer :
  has_role Sample.db (Some "a1") admin = true
  /\ has_role Sample.db (Some "a1") cert_admin = false
  /\ access_granted (checkAdminAccess Sample.db (Some "a1") unanswered)
     = false
  /\ checkAdminAccess Sample.db (Some "a1") unanswered
     = [ toast "Access Denied" "You don't have admin permissions" true;
         navigate "/dashboard" ].
Proof.
  split; [reflexivity|]. split; [reflexivity|]. split; reflexivity.
Qed.

Lemma checkAdminAccess_needs_exactly_one_role_witness :
  unique_user_role (user_roles Sample.db) = true
  /\ access_granted (checkAdminAccess Sample.db (Some "a1") answered) = true
  /\ access_granted (checkAdminAccess Sample.db (Some "b1") answered) = false
  /\ checkAdminAccess Sample.db (Some "b1") answered
     = [ toast "Access Denied" "You don't have admin permissions" true;
         navigate "/dashboard" ].
Proof.
  split; [reflexivity|].
  split;
    [exact (proj1 (checkAdminAccess_needs_exactly_one_role Sample.db "a1"
                     answered eq_refl))|].
  split;
    [exact (proj1 (checkAdminAccess_needs_exactly_one_role Sample.db "b1"
                     answered eq_refl))|].
  exact (proj1 (proj2 (checkAdminAccess_needs_exactly_one_role Sample.db "b1"
                         answered eq_refl))).
Defined.

(** ** The submission flow *)

Lemma request_ok {A} (served : bool) (r : result A) (a : A) :
  request served r = Ok a -> r = Ok a.
Proof. unfold request. destruct served; [auto | discriminate]. Qed.

Lemma storage_upload_ok (db db1 : Database) (C : option uuid) (b : bucket)
    (key : string) (file : File.t) :
  storage_upload db C b key file = Ok db1 ->
  db1 = with_storage_objects db
          (storage_objects db
           ++ [StorageObjects.mk (bucket_name b) key C (File.type file)
                 (Z.of_N (File.size file))])
  /\ Z.of_N (File.size file) <= file_size_limit b.
Proof.
  unfold storage_upload.
  destruct (negb (can_insert _ _ _ _)); [discriminate|].
  destruct (_ <? _) eqn:Hsize; [discriminate|].
  destruct (negb (existsb _ _)); [discriminate|].
  destruct (object_exists _ _ _); [discriminate|].
  intros H. inversion H. split; [reflexivity|].
  apply Z.ltb_ge in Hsize. exact Hsize.
Qed.

Lemma int4_in_ok (o : option Z) : int4_in o = Ok tt <-> is_int4 o = true.
Proof.
  destruct o as [n|]; simpl; [|intuition].
  destruct (_ && _); intuition discriminate.
Qed.

Lemma insert_incident_files_ok (db db2 : Database) (C : option uuid)
    (gen : uuid) (now : timestamptz) (returning : bool)
    (v : IncidentFilesInsert.t) (row : IncidentFiles.row) :
  insert_incident_files db C gen now returning v = Ok (db2, row) ->
  row = incident_files_new_row gen now v
  /\ db2 = with_incident_files db (incident_files db ++ [row]).
Proof.
  unfold insert_incident_files.
  destruct (int4_in _); [|discriminate].
  destruct (insert_allowed _ _ _ _ _); [|discriminate].
  destruct (incident_files_constraints _ _); [|discriminate].
  intros H. inversion H. split; reflexivity.
Qed.

Lemma insert_incidents_ok (db db1 : Database) (C : option uuid)
    (gen : uuid) (now : timestamptz) (returning : bool)
    (v : IncidentsInsert.t) (row : Incidents.row) :
  insert_incidents db C gen now returning v = Ok (db1, row) ->
  row = incidents_new_row gen now v
  /\ db1 = with_incidents db (incidents db ++ [row])
  /\ mem (Incidents.id row) (map Incidents.id (incidents db)) = false.
Proof.
  unfold insert_incidents.
  destruct (int4_in _); [|discriminate].
  destruct (insert_allowed _ _ _ _ _); [|discriminate].
  destruct (incidents_constraints _ _) as [[]|] eqn:Hc; [|discriminate].
  intros H. inversion H. subst. split; [reflexivity|].
  split; [reflexivity|].
  unfold incidents_constraints in Hc.
  rewrite distinct_map_app_one in Hc.
  destruct (distinct (map Incidents.id (incidents db))); simpl in Hc;
    [|discriminate].
  destruct (mem _ _); [discriminate | reflexivity].
Qed.

Lemma submit_incident_ok (db db1 : Database) (env : submit_env) (u : uuid)
    (form : FormData.t) (incident : Incidents.row) :
  submit_incident db env u form = Ok (db1, incident) ->
  Incidents.user_id incident = u
  /\ Incidents.status incident = submitted
  /\ Incidents.threat_level incident = None
  /\ db1 = with_incidents db (incidents db ++ [incident])
  /\ mem (Incidents.id incident) (map Incidents.id (incidents db)) = false.
Proof.
  unfold submit_incident. intros H. apply request_ok in H.
  destruct (incident_type_in _); [|discriminate].
  destruct (occurred_at_in _ _); [|discriminate].
  apply insert_incidents_ok in H as (-> & -> & Hm).
  repeat (split; [reflexivity|]). exact Hm.
Qed.

Lemma count_outcomes (l : list file_outcome) :
  List.length l
  = (count is_upload_failed l + count is_recorded l
     + count is_record_failed l)%nat.
Proof.
  unfold count. induction l as [|o l IH]; simpl; [reflexivity|].
  destruct o; simpl; lia.
Qed.

(** One pass of the loop: every file gets an outcome, only rejected
    uploads are logged, the incidents are not touched, each recorded file
    adds one row for the incident, and each accepted upload one object. *)
Lemma upload_files_spec (env : submit_env) (u : uuid)
    (incident : Incidents.row) (files : list File.t) :
  forall (k : nat) (db : Database),
    let r := upload_files env k u incident files db in
    List.length (run_files r) = List.length files
    /\ run_ui r = upload_errors (run_files r)
    /\ incidents (run_db r) = incidents db
    /\ (exists rows,
          incident_files (run_db r) = (incident_files db ++ rows)%list
          /\ List.length rows = count is_recorded (run_files r)
          /\ Forall (fun f => IncidentFiles.incident_id f
                              = Incidents.id incident) rows)
    /\ (exists objects,
          storage_objects (run_db r) = (storage_objects db ++ objects)%list
          /\ List.length objects
             = (count is_recorded (run_files r)
                + count is_record_failed (run_files r))%nat).
Proof.
  induction files as [|file rest IH]; intros k db; simpl.
  - repeat (split; [reflexivity|]). split.
    + exists []. rewrite app_nil_r. repeat split; constructor.
    + exists []. rewrite app_nil_r. split; reflexivity.
  - destruct (request (upload_served _) _) as [db1|e] eqn:Hup.
    + apply request_ok, storage_upload_ok in Hup as [Hup _].
      destruct (request (served _) _) as [[db2 row]|e] eqn:Hrec.
      * apply request_ok, insert_incident_files_ok in Hrec as [Hrow ->].
        specialize (IH (S k)
                      (with_incident_files db1 (incident_files db1 ++ [row]))).
        destruct IH as (Hl & Hui & Hinc & (rows & Hrows & Hn & Hall)
                        & (objs & Hobjs & Hm)).
        simpl. subst db1. simpl in *.
        split; [now rewrite Hl|]. split; [exact Hui|].
        split; [exact Hinc|]. split.
        -- exists (row :: rows). rewrite Hrows, <- app_assoc.
           split; [reflexivity|]. unfold count in *. simpl.
           split; [now rewrite Hn|].
           constructor; [now rewrite Hrow | exact Hall].
        -- eexists. rewrite Hobjs, <- app_assoc. split; [reflexivity|].
           unfold count in *. simpl. now rewrite Hm.
      * specialize (IH (S k) db1).
        destruct IH as (Hl & Hui & Hinc & (rows & Hrows & Hn & Hall)
                        & (objs & Hobjs & Hm)).
        simpl. subst db1. simpl in *.
        split; [now rewrite Hl|]. split; [exact Hui|].
        split; [exact Hinc|]. split.
        -- exists rows. split; [exact Hrows|]. split; [exact Hn | exact Hall].
        -- eexists. rewrite Hobjs, <- app_assoc. split; [reflexivity|].
           unfold count in *. simpl. rewrite Hm. lia.
    + specialize (IH (S k) db).
      destruct IH as (Hl & Hui & Hinc & (rows & Hrows & Hn & Hall)
                      & (objs & Hobjs & Hm)).
      simpl. split; [now rewrite Hl|]. split; [now rewrite Hui|].
      split; [exact Hinc|]. split.
      * exists rows. split; [exact Hrows|]. split; [exact Hn | exact Hall].
      * exists objs. split; [exact Hobjs | exact Hm].
Qed.

Lemma distinct_app_cons (l m : list uuid) (x : uuid) :
  distinct (l ++ x :: m) = true ->
  mem x l = false /\ distinct (l ++ m) = true.
Proof.
  induction l as [|a l IH]; simpl.
  - intros H. apply andb_true_iff in H as [_ H]. now split.
  - intros H. apply andb_true_iff in H as [Ha H].
    destruct (IH H) as [Hx Hd]. apply negb_true_iff in Ha.
    rewrite mem_app in Ha. simpl in Ha.
    apply orb_false_iff in Ha as [Hal Ha].
    apply orb_false_iff in Ha as [Hax Ham].
    rewrite Hx, Hd, mem_app, Hal, Ham, (String.eqb_sym x a), Hax.
    now split.
Qed.

Lemma incident_files_constraints_ok (db : Database)
    (rows : list IncidentFiles.row) :
  incident_files_constraints db rows = Ok tt <->
  forallb (fun f => is_int4 (IncidentFiles.file_size f)) rows = true
  /\ distinct (map IncidentFiles.id rows) = true
  /\ forallb (fun f => mem (IncidentFiles.incident_id f)
                         (map Incidents.id (incidents db))) rows = true.
Proof.
  unfold incident_files_constraints.
  destruct (forallb _ rows), (distinct _), (forallb _ rows); simpl;
    intuition congruence.
Qed.

Lemma owns_incident_of_row (db : Database) (u : uuid)
    (incident : Incidents.row) :
  In incident (incidents db) ->
  Incidents.user_id incident = u ->
  owns_incident db (Some u) (Incidents.id incident) = true.
Proof.
  intros Hin Hu. unfold owns_incident. apply existsb_exists.
  exists incident. split; [exact Hin|].
  simpl. now rewrite Hu, !String.eqb_refl.
Qed.

(** When the requests for the file rows are served and the ids handed
    out for them are fresh, no insert into [incident_files] fails: the
    filer owns the incident, and a file the bucket accepted has a size
    that fits the column. *)
Lemma upload_files_records (env : submit_env) (u : uuid)
    (incident : Incidents.row) (files : list File.t) :
  forall (k : nat) (db : Database),
    In incident (incidents db) ->
    Incidents.user_id incident = u ->
    incident_files_constraints db (incident_files db) = Ok tt ->
    distinct (map IncidentFiles.id (incident_files db)
              ++ file_row_ids env k (List.length files)) = true ->
    (forall j, (k <= j < k + List.length files)%nat ->
               served (record_env (file_env_of env j)) = true) ->
    count is_record_failed
      (run_files (upload_files env k u incident files db)) = 0%nat.
Proof.
  induction files as [|file rest IH]; intros k db Hin Hu Hc Hd Hs;
    [reflexivity|].
  simpl in Hd.
  destruct (distinct_app_cons _ _ _ Hd) as [Hfresh Hd'].
  assert (Hs' : forall j, (S k <= j < S k + List.length rest)%nat ->
                          served (record_env (file_env_of env j)) = true).
  { intros j Hj. apply Hs. simpl. lia. }
  simpl.
  destruct (request (upload_served _) _) as [db1|e] eqn:Hup.
  - apply request_ok, storage_upload_ok in Hup as [Hdb1 Hsize].
    assert (Hi1 : incidents db1 = incidents db) by (now rewrite Hdb1).
    assert (Hf1 : incident_files db1 = incident_files db)
      by (now rewrite Hdb1).
    clear Hdb1.
    rewrite (Hs k) by (simpl; lia). unfold request, insert_incident_files.
    change (file_size_limit incident_evidence) with 52428800 in Hsize.
    match goal with
    | |- context [int4_in ?o] =>
        replace (int4_in o) with (@Ok unit tt)
          by (symmetry; apply int4_in_ok; simpl;
              apply andb_true_iff; split; apply Z.leb_le; lia)
    end.
    unfold insert_allowed. rewrite incident_files_can_insert. simpl.
    rewrite (owns_incident_of_row db1 u incident) by (now rewrite ?Hi1).
    simpl.
    apply incident_files_constraints_ok in Hc as (Hc1 & Hc2 & Hc3).
    match goal with
    | |- context [incident_files_constraints ?d ?l] =>
        assert (Hc' : incident_files_constraints d l = Ok tt)
    end.
    { apply incident_files_constraints_ok. rewrite Hf1, Hi1.
      split; [|split].
      - rewrite forallb_app, Hc1. simpl.
        change (file_size_limit incident_evidence) with 52428800 in Hsize.
        rewrite andb_true_r. apply andb_true_iff. split; apply Z.leb_le; lia.
      - rewrite distinct_map_app_one, Hc2. simpl. now rewrite Hfresh.
      - rewrite forallb_app, Hc3. simpl. rewrite andb_true_r.
        apply mem_In, in_map, Hin. }
    rewrite Hc'. simpl. unfold count in *. simpl.
    apply IH; try assumption.
    + simpl. now rewrite Hi1.
    + simpl. rewrite Hf1, map_app, <- app_assoc. exact Hd.
  - unfold count in *. simpl. apply IH; assumption.
Qed.

Lemma handleSubmit_ok (db db1 : Database) (env : submit_env) (u : uuid)
    (form : FormData.t) (files : list File.t) (incident : Incidents.row) :
  submit_incident db env u form = Ok (db1, incident) ->
  handleSubmit db env (Some u) form files
  = let r := upload_files env 0 u incident files db1 in
    mkRun (run_db r) ([setLoading true] ++ run_ui r ++ success_report)
      (run_files r).
Proof.
  intros H. unfold handleSubmit. rewrite H.
  destruct files as [|file rest]; reflexivity.
Qed.

Lemma reports_success_app (ui : list file_outcome) :
  reports_success ([setLoading true] ++ upload_errors ui ++ success_report)
  = true
  /\ reports_failure ([setLoading true] ++ upload_errors ui ++ success_report)
     = false.
Proof.
  unfold reports_success, reports_failure.
  rewrite !existsb_app. simpl.
  assert (H : forall f,
             (forall l e, f (console_error l e) = false) ->
             existsb f (upload_errors ui) = false).
  { intros f Hf. unfold upload_errors.
    induction ui as [|o l IH]; simpl; [reflexivity|].
    destruct o; simpl; try exact IH. now rewrite Hf. }
  rewrite !H by reflexivity. split; reflexivity.
Qed.

Lemma incident_files_fk (db : Database) :
  incident_files_constraints db (incident_files db) = Ok tt ->
  forallb (fun f => mem (IncidentFiles.incident_id f)
                      (map Incidents.id (incidents db)))
    (incident_files db) = true.
Proof.
  unfold incident_files_constraints.
  destruct (forallb _ _); simpl; [|discriminate].
  destruct (distinct _); simpl; [|discriminate].
  destruct (forallb _ _); simpl; [reflexivity | discriminate].
Qed.

Lemma filter_all {A} (f : A -> bool) (l : list A) :
  Forall (fun x => f x = true) l -> filter f l = l.
Proof.
  intros H. apply filter_none. now apply Forall_forall.
Qed.

(** C5, as the flow has it. When the insert of the incident fails,
    [handleSubmit] stops there: the database, the blob store included, is
    as before, no file has been processed and a failure is shown. When it
    succeeds, the incident is in the table with status [submitted], every
    attached file is processed, every rejected upload is logged, and the
    run ends with the success report. In a consistent table the incident
    then has one row in [incident_files] for each of the N files but the
    rejected uploads and the accepted uploads whose row was not inserted;
    so with exactly one upload rejected it has exactly N - 1 rows when the
    requests for the file rows are served and draw fresh ids. *)
Theorem one_rejected_upload_leaves_the_rest :
  forall (db : Database) (env : submit_env) (u : uuid) (form : FormData.t)
         (files : list File.t),
    let r := handleSubmit db env (Some u) form files in
    match submit_incident db env u form with
    | Err _ =>
        run_db r = db
        /\ run_files r = []
        /\ reports_failure (run_ui r) = true
        /\ reports_success (run_ui r) = false
    | Ok (_, incident) =>
        In incident (incidents (run_db r))
        /\ Incidents.user_id incident = u
        /\ Incidents.status incident = submitted
        /\ List.length (run_files r) = List.length files
        /\ run_ui r
           = [setLoading true] ++ upload_errors (run_files r)
             ++ success_report
        /\ (incident_files_constraints db (incident_files db) = Ok tt ->
            (forall k, (k < List.length files)%nat ->
                       served (record_env (file_env_of env k)) = true) ->
            distinct (map IncidentFiles.id (incident_files db)
                      ++ file_row_ids env 0 (List.length files)) = true ->
            count is_upload_failed (run_files r) = 1%nat ->
            List.length (files_of (run_db r) (Incidents.id incident))
            = (List.length files - 1)%nat)
        /\ (incident_files_constraints db (incident_files db) = Ok tt ->
            (List.length (files_of (run_db r) (Incidents.id incident))
             + count is_upload_failed (run_files r)
             + count is_record_failed (run_files r))%nat
            = List.length files)
    end.
Proof.
  intros db env u form files r.
  destruct (submit_incident db env u form) as [[db1 incident]|e] eqn:Hs.
  - pose proof (handleSubmit_ok _ _ _ _ _ files _ Hs) as Hr.
    fold r in Hr. simpl in Hr.
    destruct (upload_files_spec env u incident files 0%nat db1)
      as (Hl & Hui & Hinc & (rows & Hrows & Hn & Hall) & _).
    apply submit_incident_ok in Hs as (Hu & Hst & _ & Hdb1 & Hfresh).
    assert (Hin : In incident (incidents db1)).
    { rewrite Hdb1. simpl. apply in_or_app. right. now left. }
    assert (Hf1 : incident_files db1 = incident_files db)
      by (now rewrite Hdb1).
    rewrite Hr. simpl.
    split; [now rewrite Hinc|].
    split; [exact Hu|]. split; [exact Hst|]. split; [exact Hl|].
    split; [now rewrite Hui|].
    pose proof (count_outcomes
                  (run_files (upload_files env 0 u incident files db1)))
      as Hc.
    assert (Hrec : incident_files_constraints db (incident_files db) = Ok tt ->
                   List.length
                     (files_of (run_db (upload_files env 0 u incident files
                                          db1))
                        (Incidents.id incident))
                   = count is_recorded
                       (run_files (upload_files env 0 u incident files db1))).
    { intros Hfk.
      unfold files_of. rewrite Hrows, filter_app, length_app, Hf1.
      rewrite (filter_key_nil IncidentFiles.incident_id).
      + rewrite filter_all; [simpl; exact Hn|].
        eapply Forall_impl; [|exact Hall]. intros f ->.
        apply String.eqb_refl.
      + eapply not_mem_of_fk; [apply incident_files_fk, Hfk | exact Hfresh]. }
    split.
    + intros Hfk Hserved Hids Hone.
      assert (Hnone : count is_record_failed
                        (run_files (upload_files env 0 u incident files db1))
                      = 0%nat).
      { apply upload_files_records; try assumption.
        - rewrite Hf1. apply incident_files_constraints_ok.
          apply incident_files_constraints_ok in Hfk as (H1 & H2 & H3).
          split; [exact H1|]. split; [exact H2|].
          rewrite Hdb1. simpl. rewrite map_app. simpl.
          now apply (fk_weaken IncidentFiles.incident_id).
        - now rewrite Hf1.
        - intros j Hj. apply Hserved. lia. }
      rewrite (Hrec Hfk). lia.
    + intros Hfk. rewrite (Hrec Hfk). lia.
  - unfold r, handleSubmit. rewrite Hs. simpl.
    repeat split; reflexivity.
Qed.

(** Three files are attached to the sample report and exactly one of
    them, [dump.zip], is rejected by the bucket for its size. The insert
    of the row for [screen.png] gets no answer. The incident is there with
    status [submitted], success is reported, and the incident has one row
    in [incident_files], not two. *)
Lemma one_rejected_upload_and_a_lost_row :
  let r := handleSubmit Sample.db Sample.env_lost_record (Some "u1")
             Sample.form Sample.files in
  List.length Sample.files = 3%nat
  /\ count is_upload_failed (run_files r) = 1%nat
  /\ run_files r
     = [record_failed request_failed; upload_failed payload_too_large;
        recorded]
  /\ map (fun i => (Incidents.id i, Incidents.status i))
       (select_incidents (run_db r) (Some "u1")
          (fun i => String.eqb (Incidents.id i) "i2"))
     = [("i2", submitted)]
  /\ reports_success (run_ui r) = true
  /\ List.length (files_of (run_db r) "i2") = 1%nat
  /\ List.length (files_of (run_db r) "i2")
     <> (List.length Sample.files - 1)%nat.
Proof.
  intros r.
  split; [reflexivity|]. split; [reflexivity|]. split; [reflexivity|].
  split; [reflexivity|]. split; [reflexivity|]. split; [reflexivity|].
  discriminate.
Qed.

Lemma one_rejected_upload_leaves_the_rest_witness :
  let r := handleSubmit Sample.db Sample.env (Some "u1") Sample.form
             Sample.files in
  incident_files_constraints Sample.db (incident_files Sample.db) = Ok tt
  /\ (forall k, (k < 3)%nat ->
                served (record_env (file_env_of Sample.env k)) = true)
  /\ distinct (map IncidentFiles.id (incident_files Sample.db)
               ++ file_row_ids Sample.env 0 3) = true
  /\ run_files r = [recorded; upload_failed payload_too_large; recorded]
  /\ count is_upload_failed (run_files r) = 1%nat
  /\ List.length (files_of (run_db r) "i2") = 2%nat.
Proof.
  intros r.
  split; [reflexivity|]. split; [reflexivity|]. split; [reflexivity|].
  split; [reflexivity|]. split; [reflexivity|].
  pose proof (one_rejected_upload_leaves_the_rest Sample.db Sample.env "u1"
                Sample.form Sample.files) as H.
  simpl in H. destruct H as (_ & _ & _ & _ & _ & H & _).
  apply H; reflexivity.
Defined.

(** C10. Once the incident is inserted, [handleSubmit] ends with the
    success report whatever becomes of the inserts into [incident_files]:
    a failed one is not logged (the log has the rejected uploads only),
    every file is still processed, each accepted upload leaves an object
    in the blob store and only the recorded ones a row. So a run can
    report success with an object stored and no row for it, and with no
    row at all: the sample runs below lose the row of the first file. *)
Theorem lost_file_row_is_not_reported :
  (forall (db db1 : Database) (env : submit_env) (u : uuid)
          (form : FormData.t) (files : list File.t)
          (incident : Incidents.row),
      submit_incident db env u form = Ok (db1, incident) ->
      let r := handleSubmit db env (Some u) form files in
      reports_success (run_ui r) = true
      /\ reports_failure (run_ui r) = false
      /\ run_ui r
         = [setLoading true] ++ upload_errors (run_files r) ++ success_report
      /\ List.length (run_files r) = List.length files
      /\ (exists objects,
            storage_objects (run_db r) = storage_objects db ++ objects
            /\ List.length objects
               = (count is_recorded (run_files r)
                  + count is_record_failed (run_files r))%nat)
      /\ (exists rows,
            incident_files (run_db r) = incident_files db ++ rows
            /\ List.length rows = count is_recorded (run_files r)))
  /\ (let r := handleSubmit Sample.db Sample.env_lost_record (Some "u1")
                 Sample.form [File.mk "screen.png" "image/png" 2048%N] in
      run_files r = [record_failed request_failed]
      /\ reports_success (run_ui r) = true
      /\ object_exists (run_db r) "incident-evidence" "u1/i2/5000.png" = true
      /\ incident_files (run_db r) = [])
  /\ (let r := handleSubmit Sample.db Sample.env_lost_record (Some "u1")
                 Sample.form Sample.files in
      run_files r
      = [record_failed request_failed; upload_failed payload_too_large;
         recorded]
      /\ reports_success (run_ui r) = true
      /\ map IncidentFiles.file_name (incident_files (run_db r))
         = ["notes.txt"]
      /\ map StorageObjects.name (storage_objects (run_db r))
         = ["u1/i2/5000.png"; "u1/i2/5002.txt"]).
Proof.
  split; [|split].
  - intros db db1 env u form files incident Hs r.
    pose proof (handleSubmit_ok _ _ _ _ _ files _ Hs) as Hr.
    fold r in Hr. simpl in Hr.
    destruct (upload_files_spec env u incident files 0%nat db1)
      as (Hl & Hui & _ & (rows & Hrows & Hn & _) & (objs & Hobjs & Hm)).
    apply submit_incident_ok in Hs as (_ & _ & _ & Hdb1 & _).
    rewrite Hr. simpl. rewrite Hui.
    destruct (reports_success_app
                (run_files (upload_files env 0 u incident files db1)))
      as [Hok Hno].
    split; [exact Hok|]. split; [exact Hno|]. split; [reflexivity|].
    split; [exact Hl|]. split.
    + exists objs. rewrite Hobjs.
      replace (storage_objects db1) with (storage_objects db)
        by (now rewrite Hdb1).
      split; [reflexivity | exact Hm].
    + exists rows. rewrite Hrows.
      replace (incident_files db1) with (incident_files db)
        by (now rewrite Hdb1).
      split; [reflexivity | exact Hn].
  - repeat split; reflexivity.
  - repeat split; reflexivity.
Qed.

Lemma lost_file_row_is_not_reported_witness :
  exists db1 incident,
    submit_incident Sample.db Sample.env_lost_record "u1" Sample.form
    = Ok (db1, incident)
    /\ let r := handleSubmit Sample.db Sample.env_lost_record (Some "u1")
                  Sample.form Sample.files in
       reports_success (run_ui r) = true
       /\ reports_failure (run_ui r) = false
       /\ List.length (run_files r) = 3%nat.
Proof.
  do 2 eexists. split; [reflexivity|].
  destruct (proj1 lost_file_row_is_not_reported Sample.db _
              Sample.env_lost_record "u1" Sample.form Sample.files _
              eq_refl)
    as (H1 & H2 & _ & H3 & _).
  split; [exact H1|]. split; [exact H2 | exact H3].
Defined.

(** * Further properties *)

(** ** Policies the claims leave out *)

Lemma has_role_anonymous (db : Database) (ro : app_role) :
  has_role db None ro = false.
Proof.
  unfold has_role. induction (user_roles db) as [|x l IH]; simpl;
    [reflexivity | exact IH].
Qed.

(** X1. A profile is selected by its owner and by holders of [admin] or
    [cert_admin]; it is inserted and updated by its owner only, whatever
    roles the caller holds, and an update cannot hand it to another id;
    nobody deletes a profile. *)
Theorem profiles_owner_writes_privileged_reads :
  forall (db : Database) (C : option uuid) (P P' : Profiles.row),
    can_select profiles_policies db C P
    = uid_eq C (Profiles.id P) || has_role db C admin
      || has_role db C cert_admin
    /\ can_insert profiles_policies db C P = uid_eq C (Profiles.id P)
    /\ can_update profiles_policies db C P P'
       = uid_eq C (Profiles.id P) && uid_eq C (Profiles.id P')
    /\ can_delete profiles_policies db C P = false.
Proof.
  intros db C P P'.
  unfold can_select, can_insert, can_update, can_delete, passes_using,
    passes_with_check, eval_with_check, eval_using. simpl.
  rewrite !orb_false_r. split; [apply orb_assoc|].
  split; [reflexivity|]. split; reflexivity.
Qed.



(** X3. A request without a session selects, updates and deletes no row
    of any table and no stored object, and inserts nothing but audit
    log rows. *)
Theorem anonymous_access_is_audit_insert_only :
  forall (db : Database),
    (forall P P', can_select profiles_policies db None P = false
                  /\ can_insert profiles_policies db None P = false
                  /\ can_update profiles_policies db None P P' = false
                  /\ can_delete profiles_policies db None P = false)
    /\ (forall R R', can_select user_roles_policies db None R = false
                     /\ can_insert user_roles_policies db None R = false
                     /\ can_update user_roles_policies db None R R' = false
                     /\ can_delete user_roles_policies db None R = false)
    /\ (forall X X', can_select incidents_policies db None X = false
                     /\ can_insert incidents_policies db None X = false
                     /\ can_update incidents_policies db None X X' = false
                     /\ can_delete incidents_policies db None X = false)
    /\ (forall F F', can_select incident_files_policies db None F = false
                     /\ can_insert incident_files_policies db None F = false
                     /\ can_update incident_files_policies db None F F' = false
                     /\ can_delete incident_files_policies db None F = false)
    /\ (forall L L', can_select audit_logs_policies db None L = false
                     /\ can_insert audit_logs_policies db None L = true
                     /\ can_update audit_logs_policies db None L L' = false
                     /\ can_delete audit_logs_policies db None L = false)
    /\ (forall O O', can_select storage_objects_policies db None O = false
                     /\ can_insert storage_objects_policies db None O = false
                     /\ can_update storage_objects_policies db None O O' = false
                     /\ can_delete storage_objects_policies db None O = false).
Proof.
  intros db.
  assert (Hown : forall F, owns_parent_incident db None F = false).
  { intros F. rewrite owns_parent_incident_spec. unfold owns_incident.
    induction (incidents db) as [|i l IH]; simpl; [reflexivity|].
    now rewrite andb_false_r. }
  repeat match goal with |- _ /\ _ => split end; intros;
    unfold can_select, can_insert, can_update, can_delete, passes_using,
      passes_with_check, eval_with_check, eval_using; simpl;
    rewrite ?has_role_anonymous, ?Hown, ?andb_false_r; simpl;
    repeat match goal with |- _ /\ _ => split end; reflexivity.
Qed.

Lemma profiles_passes_using_update (db : Database) (C : option uuid)
    (P : Profiles.row) :
  passes_using profiles_policies UPDATE db C P = uid_eq C (Profiles.id P).
Proof. unfold passes_using, eval_using. simpl. now rewrite orb_false_r. Qed.

(** X4. A successful UPDATE of [incidents] leaves every row alone that
    the caller neither filed nor, holding [admin] or [cert_admin], may
    manage, and leaves the other tables as they are; a successful UPDATE
    of [profiles] leaves every profile but the caller's own alone, also
    for a privileged caller; and a SELECT on [incidents] returns rows of
    the table that the caller filed or may manage, and no other. *)
Theorem statements_reach_permitted_rows_only :
  forall (db : Database) (C : option uuid) (now : timestamptz),
    (forall (where_ : Incidents.row -> bool) (v : IncidentsUpdate.t)
            (db' : Database),
        update_incidents db C now where_ v = Ok db' ->
        Forall2
          (fun old new =>
             uid_eq C (Incidents.user_id old) || is_privileged db C = false ->
             new = old)
          (incidents db) (incidents db')
        /\ db' = with_incidents db (incidents db'))
    /\ (forall (where_ : Profiles.row -> bool) (v : ProfilesUpdate.t)
               (db' : Database),
          update_profiles db C now where_ v = Ok db' ->
          Forall2
            (fun old new => uid_eq C (Profiles.id old) = false -> new = old)
            (profiles db) (profiles db')
          /\ db' = with_profiles db (profiles db'))
    /\ (forall (where_ : Incidents.row -> bool) (X : Incidents.row),
          In X (select_incidents db C where_) <->
          In X (incidents db) /\ where_ X = true
          /\ uid_eq C (Incidents.user_id X) || is_privileged db C = true).
Proof.
  intros db C now. split; [|split].
  - intros w v db' H. unfold update_incidents in H.
    destruct (int4_in _); [|discriminate].
    destruct (update_rows _ _ _ _ _ _ _ _ _) as [rows|e] eqn:Hrows;
      [|discriminate].
    destruct (incidents_constraints db rows); [|discriminate].
    inversion H; subst db'; clear H. simpl. split; [|reflexivity].
    apply update_rows_ok in Hrows. subst rows.
    apply Forall2_map_updated. intros old Hno. unfold updated, targets.
    now rewrite incidents_passes_using_update, Hno, andb_false_r.
  - intros w v db' H. unfold update_profiles in H.
    destruct (update_rows _ _ _ _ _ _ _ _ _) as [rows|e] eqn:Hrows;
      [|discriminate].
    destruct (profiles_constraints db rows); [|discriminate].
    inversion H; subst db'; clear H. simpl. split; [|reflexivity].
    apply update_rows_ok in Hrows. subst rows.
    apply Forall2_map_updated. intros old Hno. unfold updated, targets.
    now rewrite profiles_passes_using_update, Hno, andb_false_r.
  - intros w X. unfold select_incidents. rewrite filter_In.
    rewrite incidents_can_select, andb_true_iff. tauto.
Qed.

Lemma statements_reach_permitted_rows_only_witness :
  exists db' db'',
    update_incidents Demo.db2 (Some "u1") 50 (fun _ => true) Sample.triage
    = Ok db'
    /\ map Incidents.status (incidents db') = [resolved; investigating; resolved]
    /\ update_profiles Sample.db (Some "b1") 50 (fun _ => true) Sample.rename
       = Ok db''
    /\ map Profiles.full_name (profiles db'') = ["Asha Rao"; "User"; "Asha R."]
    /\ Forall2
         (fun old new =>
            uid_eq (Some "u1") (Incidents.user_id old)
            || is_privileged Demo.db2 (Some "u1") = false -> new = old)
         (incidents Demo.db2) (incidents db')
    /\ Forall2
         (fun old new =>
            uid_eq (Some "b1") (Profiles.id old) = false -> new = old)
         (profiles Sample.db) (profiles db'').
Proof.
  do 2 eexists.
  split; [reflexivity|]. split; [reflexivity|].
  split; [reflexivity|]. split; [reflexivity|].
  split.
  - apply (proj1 (statements_reach_permitted_rows_only Demo.db2 (Some "u1")
                    50) (fun _ => true) Sample.triage).
    reflexivity.
  - apply (proj1 (proj2 (statements_reach_permitted_rows_only Sample.db
                           (Some "b1") 50)) (fun _ => true) Sample.rename).
    reflexivity.
Defined.

(** ** Evidence objects *)

Lemma split_cons (sep : ascii) (s : string) :
  exists x xs, split sep s = x :: xs.
Proof.
  induction s as [|c s IH]; simpl; [now eexists; eexists|].
  destruct (Ascii.eqb c sep); [now eexists; eexists|].
  destruct IH as (x & xs & ->). now eexists; eexists.
Qed.

Lemma split_prefix (sep : ascii) (u rest : string) :
  has_char sep u = false ->
  split sep (u ++ String sep rest) = u :: split sep rest.
Proof.
  induction u as [|c u IH]; simpl; intros H.
  - now rewrite Ascii.eqb_refl.
  - apply orb_false_iff in H as [Hc Hu]. rewrite Hc, (IH Hu). reflexivity.
Qed.

Lemma first_folder_of_key (u rest : string) (v : option uuid) :
  has_char "/" u = false ->
  owns_first_folder v (u ++ String "/" rest) = uid_eq v u.
Proof.
  intros H. unfold owns_first_folder, foldername.
  rewrite (split_prefix _ _ _ H).
  destruct (split_cons "/" rest) as (x & xs & ->). simpl.
  destruct v; reflexivity.
Qed.

(** X5. The key [handleSubmit] builds for a file lies in the folder of
    the filer (whose id, a UUID, has no "/"), whatever the incident id,
    the time stamp and the name of the file: the policies on
    [storage.objects] let the filer, and nobody else, put an object
    under it, and let the filer and the holders of [admin] or
    [cert_admin] read it. *)
Theorem evidence_key_is_in_the_filers_folder :
  forall (db : Database) (u incident_id : uuid) (Date_now : Z)
         (file : File.t) (v : option uuid) (o : StorageObjects.row),
    has_char "/" u = false ->
    StorageObjects.bucket_id o = "incident-evidence" ->
    StorageObjects.name o = fileName_of u incident_id Date_now file ->
    can_insert storage_objects_policies db v o = uid_eq v u
    /\ can_select storage_objects_policies db v o
       = uid_eq v u || is_privileged db v.
Proof.
  intros db u iid ts file v o Hu Hb Hn.
  unfold can_insert, can_select, passes_with_check, passes_using,
    eval_with_check, eval_using, is_privileged. simpl.
  rewrite Hb, Hn. unfold fileName_of.
  change (u ++ "/" ++ ?r)%string with (u ++ String "/" r)%string.
  rewrite (first_folder_of_key _ _ _ Hu). simpl.
  rewrite !orb_false_r. split; reflexivity.
Qed.

Lemma evidence_key_is_in_the_filers_folder_witness :
  has_char "/" "u1" = false
  /\ can_insert storage_objects_policies Sample.db (Some "a1")
       (StorageObjects.mk "incident-evidence"
          (fileName_of "u1" "i1" 5000 (File.mk "a/b.c/d" "text/plain" 1%N))
          (Some "a1") "text/plain" 1) = false
  /\ can_select storage_objects_policies Sample.db (Some "a1")
       (StorageObjects.mk "incident-evidence"
          (fileName_of "u1" "i1" 5000 (File.mk "a/b.c/d" "text/plain" 1%N))
          (Some "a1") "text/plain" 1) = true.
Proof.
  split; [reflexivity|].
  destruct (evidence_key_is_in_the_filers_folder Sample.db "u1" "i1" 5000
              (File.mk "a/b.c/d" "text/plain" 1%N) (Some "a1")
              (StorageObjects.mk "incident-evidence"
                 (fileName_of "u1" "i1" 5000
                    (File.mk "a/b.c/d" "text/plain" 1%N))
                 (Some "a1") "text/plain" 1)
              eq_refl eq_refl eq_refl) as [H1 H2].
  split; [exact H1 | exact H2].
Defined.

Lemma storage_upload_within_rules (db db1 : Database) (C : option uuid)
    (b : bucket) (key : string) (file : File.t) :
  storage_upload db C b key file = Ok db1 ->
  exists o,
    db1 = with_storage_objects db (storage_objects db ++ [o])
    /\ within_bucket_rules b o = true
    /\ StorageObjects.name o = key
    /\ StorageObjects.bucket_id o = bucket_name b.
Proof.
  unfold storage_upload.
  destruct (can_insert _ _ _ _) eqn:Hp; simpl; [|discriminate].
  destruct (_ <? _) eqn:Hsize; [discriminate|].
  destruct (existsb _ _) eqn:Hm; simpl; [|discriminate].
  destruct (object_exists _ _ _); [discriminate|].
  intros H. inversion H. eexists. split; [reflexivity|].
  split; [|split; reflexivity].
  unfold within_bucket_rules. simpl.
  rewrite String.eqb_refl, Hm. apply Z.ltb_ge, Z.leb_le in Hsize.
  rewrite Hsize. simpl.
  unfold can_insert, passes_with_check, eval_with_check in Hp. simpl in Hp.
  rewrite orb_false_r in Hp. now apply andb_true_iff in Hp as [_ Hp].
Qed.

Lemma insert_incident_files_checked (db db2 : Database) (C : option uuid)
    (gen : uuid) (now : timestamptz) (returning : bool)
    (v : IncidentFilesInsert.t) (row : IncidentFiles.row) :
  insert_incident_files db C gen now returning v = Ok (db2, row) ->
  db2 = with_incident_files db (incident_files db ++ [row])
  /\ incident_files_constraints db (incident_files db ++ [row]) = Ok tt
  /\ can_insert incident_files_policies db C row = true.
Proof.
  unfold insert_incident_files, insert_allowed.
  destruct (int4_in _); [|discriminate].
  destruct (can_insert _ _ _ _) eqn:Hp; simpl; [|discriminate].
  destruct (negb returning || _); [|discriminate].
  destruct (incident_files_constraints _ _) as [[]|] eqn:Hc; [|discriminate].
  intros H. inversion H. subst. split; [reflexivity|].
  split; [exact Hc | exact Hp].
Qed.

Lemma consistent_with_storage_objects (db : Database)
    (objects : list StorageObjects.row) :
  consistent (with_storage_objects db objects) = consistent db.
Proof. reflexivity. Qed.

Lemma consistent_with_incident_files (db : Database)
    (rows : list IncidentFiles.row) :
  consistent db = true ->
  incident_files_constraints db rows = Ok tt ->
  consistent (with_incident_files db rows) = true.
Proof.
  unfold consistent. intros H Hc.
  apply andb_true_iff in H as [H _]. simpl.
  change (incident_files_constraints (with_incident_files db rows) rows)
    with (incident_files_constraints db rows).
  now rewrite Hc, andb_true_r.
Qed.

Lemma consistent_insert_incidents (db db1 : Database) (C : option uuid)
    (gen : uuid) (now : timestamptz) (returning : bool)
    (v : IncidentsInsert.t) (row : Incidents.row) :
  insert_incidents db C gen now returning v = Ok (db1, row) ->
  consistent db = true -> consistent db1 = true.
Proof.
  unfold insert_incidents.
  destruct (int4_in _); [|discriminate].
  destruct (insert_allowed _ _ _ _ _); [|discriminate].
  destruct (incidents_constraints _ _) as [[]|] eqn:Hc; [|discriminate].
  intros H Hdb. inversion H; subst; clear H.
  unfold consistent in *.
  repeat (apply andb_true_iff in Hdb as [Hdb ?]).
  change (user_ids (with_incidents db ?l)) with (user_ids db).
  change (profiles (with_incidents db ?l)) with (profiles db).
  change (user_roles (with_incidents db ?l)) with (user_roles db).
  change (incident_files (with_incidents db ?l)) with (incident_files db).
  change (profiles_constraints (with_incidents db ?l) ?p)
    with (profiles_constraints db p).
  change (user_roles_constraints (with_incidents db ?l) ?p)
    with (user_roles_constraints db p).
  change (incidents_constraints (with_incidents db ?l) ?p)
    with (incidents_constraints db p).
  rewrite Hdb. simpl incidents. rewrite Hc.
  repeat (apply andb_true_iff; split); try assumption; try reflexivity.
  match goal with
  | H : is_ok (incident_files_constraints db _) = true |- _ =>
      destruct (incident_files_constraints db (incident_files db))
        as [[]|] eqn:Hf; [|discriminate]
  end.
  apply incident_files_constraints_ok in Hf as (G1 & G2 & G3).
  assert (Hf' : incident_files_constraints
                  (with_incidents db
                     (incidents db ++ [incidents_new_row gen now v]))
                  (incident_files db) = Ok tt).
  { apply incident_files_constraints_ok. split; [exact G1|].
    split; [exact G2|]. simpl. rewrite map_app. simpl.
    now apply (fk_weaken IncidentFiles.incident_id). }
  now rewrite Hf'.
Qed.

(** What the loop over the files keeps. *)
Lemma upload_files_keeps (env : submit_env) (u : uuid)
    (incident : Incidents.row) (files : list File.t) :
  forall (k : nat) (db : Database),
    let r := upload_files env k u incident files db in
    auth_users (run_db r) = auth_users db
    /\ profiles (run_db r) = profiles db
    /\ user_roles (run_db r) = user_roles db
    /\ audit_logs (run_db r) = audit_logs db
    /\ (consistent db = true -> consistent (run_db r) = true)
    /\ (Forall (fun o => within_bucket_rules incident_evidence o = true)
          (storage_objects db) ->
        Forall (fun o => within_bucket_rules incident_evidence o = true)
          (storage_objects (run_db r))).
Proof.
  induction files as [|file rest IH]; intros k db; simpl.
  - repeat (split; [reflexivity|]). split; auto.
  - destruct (request (upload_served _) _) as [db1|e] eqn:Hup.
    + apply request_ok, storage_upload_within_rules in Hup
        as (o & Hdb1 & Ho & _).
      assert (Hc1 : consistent db1 = consistent db) by (now rewrite Hdb1).
      assert (Hb1 : Forall (fun o => within_bucket_rules incident_evidence o
                                     = true) (storage_objects db) ->
                    Forall (fun o => within_bucket_rules incident_evidence o
                                     = true) (storage_objects db1)).
      { intros H. rewrite Hdb1. simpl. apply Forall_app. split; [exact H|].
        now constructor. }
      assert (Hf1 : auth_users db1 = auth_users db
                    /\ profiles db1 = profiles db
                    /\ user_roles db1 = user_roles db
                    /\ audit_logs db1 = audit_logs db)
        by (rewrite Hdb1; repeat split; reflexivity).
      destruct Hf1 as (F1 & F2 & F3 & F4).
      destruct (request (served _) _) as [[db2 row]|e] eqn:Hrec.
      * apply request_ok, insert_incident_files_checked in Hrec
          as (Hdb2 & Hc & _).
        destruct (IH (S k) db2) as (H1 & H2 & H3 & H4 & H5 & H6).
        simpl in *.
        assert (Hf2 : auth_users db2 = auth_users db1
                      /\ profiles db2 = profiles db1
                      /\ user_roles db2 = user_roles db1
                      /\ audit_logs db2 = audit_logs db1
                      /\ storage_objects db2 = storage_objects db1)
          by (rewrite Hdb2; repeat split; reflexivity).
        destruct Hf2 as (G1 & G2 & G3 & G4 & G5).
        split; [congruence|]. split; [congruence|].
        split; [congruence|]. split; [congruence|]. split.
        -- intros Hdb. apply H5. rewrite Hdb2.
           apply consistent_with_incident_files; [now rewrite Hc1 | exact Hc].
        -- intros Hdb. apply H6. rewrite G5. now apply Hb1.
      * destruct (IH (S k) db1) as (H1 & H2 & H3 & H4 & H5 & H6).
        simpl in *.
        split; [congruence|]. split; [congruence|].
        split; [congruence|]. split; [congruence|]. split.
        -- intros Hdb. apply H5. now rewrite Hc1.
        -- intros Hdb. apply H6. now apply Hb1.
    + destruct (IH (S k) db) as (H1 & H2 & H3 & H4 & H5 & H6). simpl.
      split; [exact H1|]. split; [exact H2|]. split; [exact H3|].
      split; [exact H4|]. split; [exact H5 | exact H6].
Qed.

Lemma handleSubmit_cases (db : Database) (env : submit_env)
    (session : option uuid) (form : FormData.t) (files : list File.t) :
  let r := handleSubmit db env session form files in
  (run_db r = db /\ run_files r = [])
  \/ (exists u db1 incident,
        session = Some u
        /\ submit_incident db env u form = Ok (db1, incident)
        /\ run_db r = run_db (upload_files env 0 u incident files db1)
        /\ run_files r = run_files (upload_files env 0 u incident files db1)).
Proof.
  destruct session as [u|]; [|now left].
  destruct (submit_incident db env u form) as [[db1 incident]|e] eqn:Hs.
  - right. exists u, db1, incident.
    rewrite (handleSubmit_ok _ _ _ _ _ files _ Hs). simpl. auto.
  - left. simpl. unfold handleSubmit. now rewrite Hs.
Qed.

Lemma submit_incident_consistent (db db1 : Database) (env : submit_env)
    (u : uuid) (form : FormData.t) (incident : Incidents.row) :
  submit_incident db env u form = Ok (db1, incident) ->
  consistent db = true -> consistent db1 = true.
Proof.
  unfold submit_incident. intros H. apply request_ok in H.
  destruct (incident_type_in _); [|discriminate].
  destruct (occurred_at_in _ _); [|discriminate].
  exact (consistent_insert_incidents _ _ _ _ _ _ _ _ H).
Qed.

(** X6. Whatever [handleSubmit] is given, it never changes the users,
    profiles, role assignments or audit log, and what it does to the
    rest is to append: at most one incident, which is the caller's, has
    status [submitted] and no threat level, rows of [incident_files] for
    that incident, and objects in the blob store. *)
Theorem submission_only_appends :
  forall (db : Database) (env : submit_env) (session : option uuid)
         (form : FormData.t) (files : list File.t),
    let r := handleSubmit db env session form files in
    auth_users (run_db r) = auth_users db
    /\ profiles (run_db r) = profiles db
    /\ user_roles (run_db r) = user_roles db
    /\ audit_logs (run_db r) = audit_logs db
    /\ (exists added,
          incidents (run_db r) = incidents db ++ added
          /\ (List.length added <= 1)%nat
          /\ Forall (fun i => session = Some (Incidents.user_id i)
                              /\ Incidents.status i = submitted
                              /\ Incidents.threat_level i = None
                              /\ Forall (fun f => IncidentFiles.incident_id f
                                                  = Incidents.id i)
                                   (skipn (List.length (incident_files db))
                                      (incident_files (run_db r))))
               added)
    /\ (exists rows, incident_files (run_db r) = incident_files db ++ rows)
    /\ (exists objects,
          storage_objects (run_db r) = storage_objects db ++ objects).
Proof.
  intros db env session form files r.
  destruct (handleSubmit_cases db env session form files)
    as [[Hdb _]|(u & db1 & incident & -> & Hs & Hdb & _)]; fold r in Hdb.
  - rewrite Hdb. repeat (split; [reflexivity|]).
    split; [|split]; exists []; rewrite app_nil_r;
      repeat split; auto.
  - destruct (upload_files_keeps env u incident files 0%nat db1)
      as (K1 & K2 & K3 & K4 & _).
    destruct (upload_files_spec env u incident files 0%nat db1)
      as (_ & _ & Hinc & (rows & Hrows & _ & Hall) & (objs & Hobjs & _)).
    apply submit_incident_ok in Hs as (Hu & Hst & Hth & Hdb1 & _).
    rewrite Hdb. simpl in *.
    assert (E : auth_users db1 = auth_users db
                /\ profiles db1 = profiles db
                /\ user_roles db1 = user_roles db
                /\ audit_logs db1 = audit_logs db
                /\ incident_files db1 = incident_files db
                /\ storage_objects db1 = storage_objects db
                /\ incidents db1 = incidents db ++ [incident])
      by (rewrite Hdb1; repeat split; reflexivity).
    destruct E as (E1 & E2 & E3 & E4 & E5 & E6 & E7).
    split; [congruence|]. split; [congruence|].
    split; [congruence|]. split; [congruence|]. split; [|split].
    + exists [incident]. split; [congruence|]. split; [simpl; lia|].
      constructor; [|constructor].
      split; [now rewrite Hu|]. split; [exact Hst|]. split; [exact Hth|].
      rewrite Hrows, E5, skipn_app, Nat.sub_diag, skipn_all. exact Hall.
    + exists rows. congruence.
    + exists objs. congruence.
Qed.

(** X7. [handleSubmit] keeps a consistent database consistent: primary
    keys stay unique and every reference of the schema stays resolved,
    whichever requests fail on the way. *)
Theorem submission_keeps_consistency :
  forall (db : Database) (env : submit_env) (session : option uuid)
         (form : FormData.t) (files : list File.t),
    consistent db = true ->
    consistent (run_db (handleSubmit db env session form files)) = true.
Proof.
  intros db env session form files Hc.
  destruct (handleSubmit_cases db env session form files)
    as [[Hdb _]|(u & db1 & incident & -> & Hs & Hdb & _)]; rewrite Hdb.
  - exact Hc.
  - apply (upload_files_keeps env u incident files 0%nat db1).
    now apply (submit_incident_consistent _ _ _ _ _ _ Hs).
Qed.

Lemma submission_keeps_consistency_witness :
  consistent Sample.db = true
  /\ consistent (run_db (handleSubmit Sample.db Sample.env_lost_record
                           (Some "u1") Sample.form Sample.files)) = true.
Proof.
  split; [reflexivity|].
  apply (submission_keeps_consistency Sample.db Sample.env_lost_record
           (Some "u1") Sample.form Sample.files).
  reflexivity.
Defined.

(** X8. Every object [handleSubmit] leaves in the blob store is in the
    bucket "incident-evidence", at most 52428800 bytes, of one of the ten
    listed content types, and under the folder of its owner: if the
    stored objects obey the bucket's rules before a run, they do
    after. *)
Theorem submission_keeps_bucket_rules :
  forall (db : Database) (env : submit_env) (session : option uuid)
         (form : FormData.t) (files : list File.t),
    Forall (fun o => within_bucket_rules incident_evidence o = true)
      (storage_objects db) ->
    Forall (fun o => within_bucket_rules incident_evidence o = true)
      (storage_objects (run_db (handleSubmit db env session form files))).
Proof.
  intros db env session form files Hb.
  destruct (handleSubmit_cases db env session form files)
    as [[Hdb _]|(u & db1 & incident & -> & Hs & Hdb & _)]; rewrite Hdb.
  - exact Hb.
  - apply (upload_files_keeps env u incident files 0%nat db1).
    apply submit_incident_ok in Hs as (_ & _ & _ & -> & _). exact Hb.
Qed.

Lemma submission_keeps_bucket_rules_witness :
  Forall (fun o => within_bucket_rules incident_evidence o = true)
    (storage_objects Sample.db)
  /\ map StorageObjects.name
       (storage_objects (run_db (handleSubmit Sample.db Sample.env
                                   (Some "u1") Sample.form Sample.files)))
     = ["u1/i2/5000.png"; "u1/i2/5002.txt"]
  /\ Forall (fun o => within_bucket_rules incident_evidence o = true)
       (storage_objects (run_db (handleSubmit Sample.db Sample.env
                                   (Some "u1") Sample.form Sample.files))).
Proof.
  split; [constructor|]. split; [reflexivity|].
  apply (submission_keeps_bucket_rules Sample.db Sample.env (Some "u1")
           Sample.form Sample.files).
  constructor.
Defined.

Lemma storage_upload_taken (db : Database) (C : option uuid) (b : bucket)
    (key : string) (file : File.t) :
  object_exists db (bucket_name b) key = true ->
  is_ok (storage_upload db C b key file) = false.
Proof.
  intros H. unfold storage_upload. rewrite H.
  destruct (negb (can_insert _ _ _ _)); [reflexivity|].
  destruct (_ <? _); [reflexivity|].
  destruct (negb (existsb _ _)); reflexivity.
Qed.

Lemma object_exists_after_upload (db db1 : Database) (C : option uuid)
    (b : bucket) (key : string) (file : File.t) :
  storage_upload db C b key file = Ok db1 ->
  object_exists db1 (bucket_name b) key = true.
Proof.
  intros H. apply storage_upload_within_rules in H as (o & -> & _ & Hn & Hb).
  unfold object_exists. simpl. rewrite existsb_app. simpl.
  now rewrite Hn, Hb, !String.eqb_refl, orb_true_r.
Qed.

(** One turn of the loop: the file gets an outcome, and unless its
    upload failed the object is in the store for the rest of the run. *)
Lemma upload_files_turn (env : submit_env) (k : nat) (u : uuid)
    (incident : Incidents.row) (file : File.t) (rest : list File.t)
    (db : Database) :
  exists o db',
    run_files (upload_files env k u incident (file :: rest) db)
    = o :: run_files (upload_files env (S k) u incident rest db')
    /\ (is_upload_failed o = false ->
        object_exists db' "incident-evidence"
          (fileName_of u (Incidents.id incident)
             (Date_now (file_env_of env k)) file) = true)
    /\ (is_upload_failed o = true <->
        is_ok (request (upload_served (file_env_of env k))
                 (storage_upload db (Some u) incident_evidence
                    (fileName_of u (Incidents.id incident)
                       (Date_now (file_env_of env k)) file) file)) = false).
Proof.
  cbn [upload_files].
  destruct (request (upload_served (file_env_of env k)) _) as [db1|e] eqn:Hup.
  - apply request_ok, object_exists_after_upload in Hup.
    change (bucket_name incident_evidence) with "incident-evidence" in Hup.
    destruct (request (served _) _) as [[db2 row]|e] eqn:Hrec.
    + apply request_ok, insert_incident_files_checked in Hrec as (-> & _).
      eexists. eexists. cbn [run_files]. split; [reflexivity|].
      split; [intros _; exact Hup|]. simpl. split; discriminate.
    + eexists. eexists. cbn [run_files]. split; [reflexivity|].
      split; [intros _; exact Hup|]. simpl. split; discriminate.
  - exists (upload_failed e), db. cbn [run_files]. split; [reflexivity|].
    split; [discriminate|]. simpl. split; reflexivity.
Qed.

(** X9. The key of an object is the time stamp and the extension of
    the file: of two files in a row with the same extension that the
    loop stamps with the same millisecond, the second is rejected when
    the first was stored, whatever the second file is (an upload does
    not overwrite). *)
Theorem same_millisecond_same_extension_collide :
  forall (env : submit_env) (k : nat) (u : uuid) (incident : Incidents.row)
         (f1 f2 : File.t) (rest : list File.t) (db : Database),
    Date_now (file_env_of env k) = Date_now (file_env_of env (S k)) ->
    last (split "." (File.name f1)) "" = last (split "." (File.name f2)) "" ->
    match run_files (upload_files env k u incident (f1 :: f2 :: rest) db) with
    | o1 :: o2 :: _ => is_upload_failed o1 || is_upload_failed o2 = true
    | _ => False
    end.
Proof.
  intros env k u incident f1 f2 rest db Hts Hext.
  assert (Hkey : fileName_of u (Incidents.id incident)
                   (Date_now (file_env_of env (S k))) f2
                 = fileName_of u (Incidents.id incident)
                     (Date_now (file_env_of env k)) f1).
  { unfold fileName_of. now rewrite Hts, Hext. }
  destruct (upload_files_turn env k u incident f1 (f2 :: rest) db)
    as (o1 & db' & -> & Hstored & _).
  destruct (upload_files_turn env (S k) u incident f2 rest db')
    as (o2 & db'' & -> & _ & Hfail).
  destruct (is_upload_failed o1) eqn:E1; [reflexivity|]. simpl.
  apply Hfail. rewrite Hkey.
  pose proof (storage_upload_taken db' (Some u) incident_evidence _ f2
                (Hstored eq_refl)) as Hno.
  unfold request. destruct (upload_served _); [exact Hno | reflexivity].
Qed.

Lemma same_millisecond_same_extension_collide_witness :
  Date_now (file_env_of Demo.env_same_ms 0)
  = Date_now (file_env_of Demo.env_same_ms 1)
  /\ last (split "." "a.log.txt") "" = last (split "." "b.txt") ""
  /\ run_files (handleSubmit Sample.db Demo.env_same_ms (Some "u1")
                  Sample.form Demo.twins)
     = [recorded; upload_failed (object_already_exists "u1/i2/7000.txt")]
  /\ match run_files (upload_files Demo.env_same_ms 0 "u1" Sample.incident
                        Demo.twins Sample.db) with
     | o1 :: o2 :: _ => is_upload_failed o1 || is_upload_failed o2 = true
     | _ => False
     end.
Proof.
  split; [reflexivity|]. split; [reflexivity|]. split; [reflexivity|].
  apply (same_millisecond_same_extension_collide Demo.env_same_ms 0 "u1"
           Sample.incident (File.mk "a.log.txt" "text/plain" 10%N)
           (File.mk "b.txt" "text/plain" 20%N) [] Sample.db);
    reflexivity.
Defined.

(** ** Identity bootstrap, continued *)

Lemma insert_auth_users_ok (db db' : Database) (NEW : AuthUsers.row)
    (gen : uuid) (now : timestamptz) :
  insert_auth_users db NEW gen now = Ok db' ->
  mem (AuthUsers.id NEW) (user_ids db) = false
  /\ auth_users db' = auth_users db ++ [NEW]
  /\ (exists p, profiles db' = profiles db ++ [p])
  /\ user_roles db'
     = user_roles db ++ [UserRoles.mk gen (AuthUsers.id NEW) user now None]
  /\ incidents db' = incidents db
  /\ incident_files db' = incident_files db
  /\ profiles_constraints db' (profiles db') = Ok tt
  /\ user_roles_constraints db' (user_roles db') = Ok tt.
Proof.
  unfold insert_auth_users.
  destruct (mem _ _) eqn:Hm; [discriminate|].
  unfold handle_new_user.
  destruct (profiles_constraints _ _) as [[]|] eqn:Hp; [|discriminate].
  destruct (user_roles_constraints _ _) as [[]|] eqn:Hr; [|discriminate].
  intros H. inversion H; subst; clear H. simpl.
  split; [reflexivity|]. split; [reflexivity|].
  split; [eexists; reflexivity|]. split; [reflexivity|].
  split; [reflexivity|]. split; [reflexivity|].
  split; [exact Hp | exact Hr].
Qed.

Lemma has_role_only_user_roles (db db' : Database) (C : option uuid)
    (ro : app_role) :
  user_roles db' = user_roles db -> has_role db' C ro = has_role db C ro.
Proof. unfold has_role. now intros ->. Qed.

Lemma has_role_unknown_user (db : Database) (I : uuid) (ro : app_role) :
  forallb (fun r => mem (UserRoles.user_id r) (user_ids db)) (user_roles db)
  = true ->
  mem I (user_ids db) = false ->
  has_role db (Some I) ro = false.
Proof.
  intros Hfk HI. unfold has_role.
  destruct (existsb _ _) eqn:E; [|reflexivity].
  apply existsb_exists in E as (r & Hin & E).
  apply andb_true_iff in E as [E _]. simpl in E. apply String.eqb_eq in E.
  rewrite forallb_forall in Hfk. specialize (Hfk r Hin).
  rewrite <- E in Hfk. congruence.
Qed.

Lemma filter_nil_of_existsb {A} (f : A -> bool) (l : list A) :
  existsb f l = false -> filter f l = [].
Proof.
  induction l as [|x l IH]; simpl; [reflexivity|].
  destruct (f x); simpl; [discriminate | exact IH].
Qed.

Lemma consistent_parts (db : Database) :
  consistent db = true <->
  distinct (user_ids db) = true
  /\ profiles_constraints db (profiles db) = Ok tt
  /\ user_roles_constraints db (user_roles db) = Ok tt
  /\ incidents_constraints db (incidents db) = Ok tt
  /\ incident_files_constraints db (incident_files db) = Ok tt.
Proof.
  unfold consistent.
  destruct (distinct _), (profiles_constraints _ _) as [[]|],
    (user_roles_constraints _ _) as [[]|],
    (incidents_constraints _ _) as [[]|],
    (incident_files_constraints _ _) as [[]|]; simpl;
    intuition congruence.
Qed.

(** X10. In a consistent database, the identity that has just been
    created holds the role [user] and no other: it passes neither
    [has_role] for [admin] nor for [cert_admin], [checkAdminAccess]
    turns it away, and the roles of every other identity are what they
    were. *)
Theorem new_identity_is_unprivileged :
  forall (db db' : Database) (NEW : AuthUsers.row) (gen : uuid)
         (now : timestamptz),
    consistent db = true ->
    insert_auth_users db NEW gen now = Ok db' ->
    has_role db' (Some (AuthUsers.id NEW)) user = true
    /\ has_role db' (Some (AuthUsers.id NEW)) admin = false
    /\ has_role db' (Some (AuthUsers.id NEW)) cert_admin = false
    /\ (forall q : reply,
          access_granted (checkAdminAccess db' (Some (AuthUsers.id NEW)) q)
          = false)
    /\ (forall (u : uuid) (ro : app_role),
          u <> AuthUsers.id NEW ->
          has_role db' (Some u) ro = has_role db (Some u) ro).
Proof.
  intros db db' NEW gen now Hc H.
  apply consistent_parts in Hc as (_ & _ & Hr & _).
  apply user_roles_constraints_ok in Hr as (_ & _ & Hfk & _).
  apply insert_auth_users_ok in H as (Hm & _ & _ & Hroles & _).
  assert (Hnew : forall C ro,
             has_role db' C ro
             = has_role db C ro
               || (uid_eq C (AuthUsers.id NEW) && app_role_beq user ro)).
  { intros C ro. unfold has_role. rewrite Hroles, existsb_app. simpl.
    now rewrite orb_false_r. }
  assert (Hold : forall ro, has_role db (Some (AuthUsers.id NEW)) ro = false)
    by (intros ro; now apply has_role_unknown_user).
  assert (Ha : has_role db' (Some (AuthUsers.id NEW)) admin = false)
    by (rewrite Hnew, Hold; simpl; now rewrite andb_false_r).
  assert (Hca : has_role db' (Some (AuthUsers.id NEW)) cert_admin = false)
    by (rewrite Hnew, Hold; simpl; now rewrite andb_false_r).
  split; [rewrite Hnew, Hold; simpl; now rewrite String.eqb_refl|].
  split; [exact Ha|]. split; [exact Hca|]. split.
  - intros q. destruct q as [| |e]; [|reflexivity|reflexivity].
    unfold checkAdminAccess.
    pose proof (privileged_rows_length db' (AuthUsers.id NEW)) as Hlen.
    rewrite has_role_holds in Ha, Hca.
    rewrite (filter_nil_of_existsb _ _ Ha), (filter_nil_of_existsb _ _ Hca)
      in Hlen.
    apply length_zero_iff_nil in Hlen. rewrite Hlen. reflexivity.
  - intros u ro Hu. rewrite Hnew. simpl.
    destruct (u =? AuthUsers.id NEW)%string eqn:E.
    + apply String.eqb_eq in E. contradiction.
    + now rewrite orb_false_r.
Qed.

Lemma new_identity_is_unprivileged_witness :
  consistent Sample.db = true
  /\ exists db',
       insert_auth_users Sample.db (AuthUsers.mk "n1" None) "r7" 60 = Ok db'
       /\ has_role db' (Some "n1") user = true
       /\ access_granted (checkAdminAccess db' (Some "n1") answered) = false.
Proof.
  split; [reflexivity|]. eexists. split; [reflexivity|].
  destruct (new_identity_is_unprivileged Sample.db _ (AuthUsers.mk "n1" None)
              "r7" 60 eq_refl eq_refl) as (H1 & _ & _ & H2 & _).
  split; [exact H1 | exact (H2 answered)].
Defined.

(** X11. Creating an identity keeps a consistent database consistent,
    whether the creation succeeds or fails. *)
Theorem identity_creation_keeps_consistency :
  forall (db : Database) (NEW : AuthUsers.row) (gen : uuid)
         (now : timestamptz),
    consistent db = true ->
    consistent (create_identity db NEW gen now) = true.
Proof.
  intros db NEW gen now Hc. unfold create_identity.
  destruct (insert_auth_users db NEW gen now) as [db'|e] eqn:H; [|exact Hc].
  apply insert_auth_users_ok in H
    as (Hm & Hu & _ & _ & Hi & Hf & Hp & Hr).
  apply consistent_parts in Hc as (Hd & _ & _ & Hic & Hfc).
  assert (Hids : user_ids db' = user_ids db ++ [AuthUsers.id NEW]).
  { unfold user_ids. rewrite Hu, map_app. reflexivity. }
  apply consistent_parts.
  split; [rewrite Hids, distinct_app_one, Hd, Hm; reflexivity|].
  split; [exact Hp|]. split; [exact Hr|]. split.
  - unfold incidents_constraints in *. rewrite Hi, Hids.
    destruct (distinct (map Incidents.id (incidents db))); simpl in *;
      [|discriminate].
    destruct (forallb (fun r => mem (Incidents.user_id r) (user_ids db))
                (incidents db)) eqn:E1; simpl in *; [|discriminate].
    destruct (forallb (fun r => opt_mem (Incidents.assigned_to r)
                                  (user_ids db)) (incidents db)) eqn:E2;
      simpl in *; [|discriminate].
    rewrite (fk_weaken Incidents.user_id _ _ _ E1),
      (opt_fk_weaken Incidents.assigned_to _ _ _ E2). reflexivity.
  - unfold incident_files_constraints in *. now rewrite Hf, Hi.
Qed.

Lemma identity_creation_keeps_consistency_witness :
  consistent Sample.db = true
  /\ consistent (create_identity Sample.db (AuthUsers.mk "n1" None) "r7" 60)
     = true
  /\ consistent (create_identity Sample.db (AuthUsers.mk "u1" None) "r7" 60)
     = true.
Proof.
  split; [reflexivity|]. split.
  - apply (identity_creation_keeps_consistency Sample.db
             (AuthUsers.mk "n1" None) "r7" 60). reflexivity.
  - reflexivity.
Defined.

(** ** The navigation bar *)

Lemma own_role_rows (db : Database) (uid : uuid) :
  select_user_roles db (Some uid)
    (fun r => String.eqb (UserRoles.user_id r) uid)
  = filter (fun r => String.eqb (UserRoles.user_id r) uid) (user_roles db).
Proof.
  unfold select_user_roles. apply filter_ext. intros r.
  unfold can_select, passes_using, eval_using. simpl.
  rewrite (String.eqb_sym uid).
  destruct (UserRoles.user_id r =? uid)%string; reflexivity.
Qed.

Lemma has_role_own_rows (db : Database) (uid : uuid) (ro : app_role) :
  has_role db (Some uid) ro
  = existsb (fun r => app_role_beq (UserRoles.role r) ro)
      (filter (fun r => String.eqb (UserRoles.user_id r) uid)
         (user_roles db)).
Proof.
  unfold has_role, uid_eq.
  induction (user_roles db) as [|x l IH]; simpl; [reflexivity|].
  rewrite IH, (String.eqb_sym uid).
  destruct (UserRoles.user_id x =? uid)%string; reflexivity.
Qed.

(** X12. The navigation bar asks for the one role row of the user. A
    user who still holds the role [user] of the bootstrap is never shown
    the link to the admin page by a bar that has just been mounted,
    whatever other roles the user holds; the link is shown only to a
    user whose single role row is [admin] or [cert_admin]. *)
Theorem navbar_reads_a_single_role_row :
  forall (db : Database) (uid : uuid) (served : bool),
    let st := Navbar.on_user db served Navbar.initial (Some uid) in
    (has_role db (Some uid) user = true ->
     Navbar.shows_admin_link st = false)
    /\ (Navbar.shows_admin_link st = true ->
        served = true
        /\ has_role db (Some uid) user = false
        /\ xorb (has_role db (Some uid) admin)
             (has_role db (Some uid) cert_admin) = true).
Proof.
  intros db uid served st. unfold st, Navbar.on_user, Navbar.role_query.
  rewrite own_role_rows, !has_role_own_rows.
  destruct served; simpl; [|split; [reflexivity | discriminate]].
  destruct (filter _ (user_roles db)) as [|x [|y l]]; simpl;
    try (split; [reflexivity | discriminate]).
  destruct (UserRoles.role x); simpl; split; try reflexivity;
    try discriminate; auto.
Qed.

Lemma navbar_reads_a_single_role_row_witness :
  has_role Sample.db (Some "a1") user = true
  /\ has_role Sample.db (Some "a1") admin = true
  /\ access_granted (checkAdminAccess Sample.db (Some "a1") answered) = true
  /\ Navbar.shows_admin_link
       (Navbar.on_user Sample.db true Navbar.initial (Some "a1")) = false.
Proof.
  split; [reflexivity|]. split; [reflexivity|]. split; [reflexivity|].
  apply (proj1 (navbar_reads_a_single_role_row Sample.db "a1" true)).
  reflexivity.
Defined.

(** ** Ordered queries *)

Section OrderByFacts.
Context {A : Type}.
Variable precedes : A -> A -> bool.
Hypothesis precedes_total :
  forall x y, precedes x y = false -> precedes y x = true.
Hypothesis precedes_trans :
  forall x y z, precedes x y = true -> precedes y z = true ->
                precedes x z = true.

Lemma insert_ordered_perm (x : A) (l : list A) :
  Permutation (insert_ordered precedes x l) (x :: l).
Proof.
  induction l as [|y l IH]; simpl; [reflexivity|].
  destruct (precedes x y); [reflexivity|].
  rewrite IH. apply perm_swap.
Qed.

Lemma order_by_perm (l : list A) : Permutation (order_by precedes l) l.
Proof.
  induction l as [|x l IH]; simpl; [reflexivity|].
  rewrite insert_ordered_perm. now constructor.
Qed.

Lemma insert_ordered_sorted (x : A) (l : list A) :
  StronglySorted (fun a b => precedes a b = true) l ->
  StronglySorted (fun a b => precedes a b = true)
    (insert_ordered precedes x l).
Proof.
  induction 1 as [|y l Hs IH Hy]; simpl.
  - repeat constructor.
  - destruct (precedes x y) eqn:E.
    + constructor; [now constructor|].
      constructor; [exact E|].
      eapply Forall_impl; [|exact Hy]. intros z Hz.
      now apply (precedes_trans x y z).
    + constructor; [exact IH|].
      apply (Permutation_Forall (Permutation_sym (insert_ordered_perm x l))).
      constructor; [now apply precedes_total | exact Hy].
Qed.

Lemma order_by_sorted (l : list A) :
  StronglySorted (fun a b => precedes a b = true) (order_by precedes l).
Proof.
  induction l as [|x l IH]; simpl; [constructor|].
  now apply insert_ordered_sorted.
Qed.
End OrderByFacts.

Lemma by_priority_total (x y : Incidents.row) :
  AdminDashboard.by_priority x y = false ->
  AdminDashboard.by_priority y x = true.
Proof.
  unfold AdminDashboard.by_priority.
  destruct (Incidents.priority_score x) as [a|],
    (Incidents.priority_score y) as [b|]; try discriminate; try reflexivity.
  - intros H. apply orb_false_iff in H as [H1 H2].
    apply Z.ltb_ge in H1.
    destruct (a <? b) eqn:E; [reflexivity|]. apply Z.ltb_ge in E. simpl.
    assert (b = a) by lia. subst. rewrite Z.eqb_refl in *. simpl in *.
    apply Z.leb_le. apply Z.leb_gt in H2. lia.
  - intros H. apply Z.leb_le. apply Z.leb_gt in H. lia.
Qed.

Lemma by_priority_trans (x y z : Incidents.row) :
  AdminDashboard.by_priority x y = true ->
  AdminDashboard.by_priority y z = true ->
  AdminDashboard.by_priority x z = true.
Proof.
  unfold AdminDashboard.by_priority.
  destruct (Incidents.priority_score x) as [a|],
    (Incidents.priority_score y) as [b|],
    (Incidents.priority_score z) as [c|];
    try discriminate; try reflexivity.
  - intros H1 H2.
    apply orb_true_iff in H1 as [H1|H1]; apply orb_true_iff in H2 as [H2|H2];
      rewrite ?andb_true_iff, ?Z.ltb_lt, ?Z.eqb_eq, ?Z.leb_le in *;
      apply orb_true_iff;
      rewrite ?andb_true_iff, ?Z.ltb_lt, ?Z.eqb_eq, ?Z.leb_le; lia.
  - rewrite !Z.leb_le. lia.
Qed.

Lemma by_created_at_total (x y : Incidents.row) :
  Dashboard.by_created_at x y = false -> Dashboard.by_created_at y x = true.
Proof.
  unfold Dashboard.by_created_at. rewrite Z.leb_gt, Z.leb_le. lia.
Qed.

Lemma by_created_at_trans (x y z : Incidents.row) :
  Dashboard.by_created_at x y = true ->
  Dashboard.by_created_at y z = true ->
  Dashboard.by_created_at x z = true.
Proof. unfold Dashboard.by_created_at. rewrite !Z.leb_le. lia. Qed.

Lemma select_incidents_own (db : Database) (u : uuid) :
  select_incidents db (Some u)
    (fun r => String.eqb (Incidents.user_id r) u)
  = filter (fun r => String.eqb (Incidents.user_id r) u) (incidents db).
Proof.
  unfold select_incidents. apply filter_ext. intros r.
  rewrite incidents_can_select. simpl. rewrite (String.eqb_sym u).
  destruct (Incidents.user_id r =? u)%string; reflexivity.
Qed.

Lemma select_incidents_privileged (db : Database) (C : option uuid) :
  is_privileged db C = true ->
  select_incidents db C (fun _ => true) = incidents db.
Proof.
  intros H. unfold select_incidents. apply filter_none. intros r _.
  rewrite incidents_can_select, H. apply orb_true_r.
Qed.

Lemma Permutation_filter_compat {A} (f : A -> bool) (l l' : list A) :
  Permutation l l' -> Permutation (filter f l) (filter f l').
Proof.
  induction 1 as [|x l l' _ IH|x y l|l l' l'' _ IH1 _ IH2]; simpl.
  - constructor.
  - destruct (f x); [now constructor | exact IH].
  - destruct (f x), (f y); try reflexivity. apply perm_swap.
  - now transitivity (filter f l').
Qed.

Lemma StronglySorted_impl {A} (R R' : A -> A -> Prop) (l : list A) :
  (forall a b, R a b -> R' a b) ->
  StronglySorted R l -> StronglySorted R' l.
Proof.
  intros H. induction 1 as [|x l _ IH Hx]; constructor; [exact IH|].
  eapply Forall_impl; [|exact Hx]. intros b. apply H.
Qed.

(** X13. The filer's dashboard lists the incidents the signed-in user
    filed, each once and no other, also for a user who holds [admin] or
    [cert_admin], the newest first; when the request fails the list
    stays as it was and the error is logged; without a session nothing
    is asked for. In all cases the loading flag is cleared. *)
Theorem dashboard_lists_own_incidents :
  forall (db : Database) (u : uuid) (previous : list Incidents.row),
    (Permutation (fst (Dashboard.fetchIncidents db (Some u) true previous))
       (filter (fun r => String.eqb (Incidents.user_id r) u) (incidents db))
     /\ StronglySorted
          (fun a b => Incidents.created_at b <= Incidents.created_at a)
          (fst (Dashboard.fetchIncidents db (Some u) true previous))
     /\ snd (Dashboard.fetchIncidents db (Some u) true previous)
        = [setLoading false])
    /\ Dashboard.fetchIncidents db (Some u) false previous
       = (previous,
          [ console_error "Error fetching incidents:" request_failed;
            setLoading false ])
    /\ Dashboard.fetchIncidents db None true previous
       = (previous, [setLoading false]).
Proof.
  intros db u previous. split; [|split; reflexivity].
  unfold Dashboard.fetchIncidents, Dashboard.query. simpl.
  rewrite select_incidents_own. split; [apply order_by_perm|].
  split; [|reflexivity].
  eapply StronglySorted_impl;
    [|apply order_by_sorted;
      [exact by_created_at_total | exact by_created_at_trans]].
  intros a b H. unfold Dashboard.by_created_at in H. now apply Z.leb_le.
Qed.

Lemma by_priority_spec (a b : Incidents.row) :
  AdminDashboard.by_priority a b = true ->
  (Incidents.priority_score a = None
   \/ exists x y, Incidents.priority_score a = Some x
                  /\ Incidents.priority_score b = Some y /\ y <= x)
  /\ (Incidents.priority_score a = Incidents.priority_score b ->
      Incidents.created_at b <= Incidents.created_at a).
Proof.
  unfold AdminDashboard.by_priority.
  destruct (Incidents.priority_score a) as [x|],
    (Incidents.priority_score b) as [y|]; intros H; try discriminate.
  - apply orb_true_iff in H. split.
    + right. exists x, y. split; [reflexivity|]. split; [reflexivity|].
      destruct H as [H|H]; [apply Z.ltb_lt in H; lia|].
      apply andb_true_iff in H as [H _]. apply Z.eqb_eq in H. lia.
    + intros E. inversion E; subst y.
      destruct H as [H|H]; [apply Z.ltb_lt in H; lia|].
      apply andb_true_iff in H as [_ H]. now apply Z.leb_le.
  - split; [now left | discriminate].
  - split; [now left|]. intros _. now apply Z.leb_le.
Qed.

(** X14. The admin dashboard's query returns the incidents the caller
    may select, each once: all incidents of the table for a caller who
    holds [admin] or [cert_admin], the caller's own for any other. They
    are ordered by [priority_score] descending with NULL first (an
    incident without a score comes before every incident with one, and
    scores do not go up along the list) and then by [created_at]
    descending (of two incidents with the same score, or both without,
    the later one is not older). A failed request leaves the list as it
    was. *)
Theorem admin_dashboard_lists_by_priority :
  forall (db : Database) (C : option uuid) (previous : list Incidents.row),
    Permutation (fst (AdminDashboard.fetchAllIncidents db C true previous))
      (filter (fun r => uid_eq C (Incidents.user_id r) || is_privileged db C)
         (incidents db))
    /\ (if is_privileged db C
        then Permutation
               (fst (AdminDashboard.fetchAllIncidents db C true previous))
               (incidents db)
        else True)
    /\ StronglySorted
         (fun a b =>
            (Incidents.priority_score a = None
             \/ exists x y, Incidents.priority_score a = Some x
                            /\ Incidents.priority_score b = Some y
                            /\ y <= x)
            /\ (Incidents.priority_score a = Incidents.priority_score b ->
                Incidents.created_at b <= Incidents.created_at a))
         (fst (AdminDashboard.fetchAllIncidents db C true previous))
    /\ AdminDashboard.fetchAllIncidents db C false previous
       = (previous,
          [ console_error "Error fetching incidents:" request_failed;
            setLoading false ]).
Proof.
  intros db C previous.
  unfold AdminDashboard.fetchAllIncidents, AdminDashboard.query. simpl.
  split; [|split; [|split; [|reflexivity]]].
  - rewrite order_by_perm. unfold select_incidents.
    erewrite filter_ext; [reflexivity|].
    intros r. now rewrite incidents_can_select.
  - destruct (is_privileged db C) eqn:E; [|exact I].
    rewrite order_by_perm. now rewrite select_incidents_privileged.
  - eapply StronglySorted_impl;
      [|apply order_by_sorted;
        [exact by_priority_total | exact by_priority_trans]].
    exact by_priority_spec.
Qed.

Lemma filter_length_le {A} (f : A -> bool) (l : list A) :
  (List.length (filter f l) <= List.length l)%nat.
Proof.
  induction l as [|x l IH]; simpl; [lia|]. destruct (f x); simpl; lia.
Qed.

Lemma is_level_spec (l : threat_level) (i : Incidents.row) :
  AdminDashboard.is_level l i = true <-> Incidents.threat_level i = Some l.
Proof.
  unfold AdminDashboard.is_level.
  destruct (Incidents.threat_level i) as [l'|]; [|split; discriminate].
  split.
  - intros H. apply internal_threat_level_dec_bl in H. now subst.
  - intros H. inversion H. now destruct l.
Qed.

(** X15. The four tabs of the admin dashboard and their counters agree:
    each counter is the length of the list of its tab, a name that is
    none of "critical", "high" and "pending" lists everything, a tab
    lists incidents of the fetched list only, no incident is under both
    "critical" and "high", and for a caller who holds [admin] or
    [cert_admin] the "critical" and "pending" tabs hold, each once, the
    incidents of the table with threat level [critical], and with status
    [submitted] or [under_review]. *)
Theorem admin_tabs_agree_with_counters :
  forall (db : Database) (C : option uuid) (incidents_ : list Incidents.row)
         (name : string),
    let s := AdminDashboard.stats incidents_ in
    AdminDashboard.total s
    = List.length (AdminDashboard.filterIncidents incidents_ "all")
    /\ AdminDashboard.n_critical s
       = List.length (AdminDashboard.filterIncidents incidents_ "critical")
    /\ AdminDashboard.n_high s
       = List.length (AdminDashboard.filterIncidents incidents_ "high")
    /\ AdminDashboard.pending s
       = List.length (AdminDashboard.filterIncidents incidents_ "pending")
    /\ (AdminDashboard.n_critical s + AdminDashboard.n_high s
        <= AdminDashboard.total s)%nat
    /\ (String.eqb name "critical" || String.eqb name "high"
        || String.eqb name "pending" = false ->
        AdminDashboard.filterIncidents incidents_ name = incidents_)
    /\ incl (AdminDashboard.filterIncidents incidents_ name) incidents_
    /\ (forall i,
          In i (AdminDashboard.filterIncidents incidents_ "critical") ->
          ~ In i (AdminDashboard.filterIncidents incidents_ "high"))
    /\ (is_privileged db C = true ->
        Permutation
          (AdminDashboard.filterIncidents (AdminDashboard.query db C)
             "critical")
          (filter (fun i => match Incidents.threat_level i with
                            | Some critical => true
                            | _ => false
                            end) (incidents db))
        /\ Permutation
             (AdminDashboard.filterIncidents (AdminDashboard.query db C)
                "pending")
             (filter (fun i => match Incidents.status i with
                               | submitted | under_review => true
                               | _ => false
                               end) (incidents db))).
Proof.
  intros db C l name s. unfold s, AdminDashboard.stats. simpl.
  repeat (split; [reflexivity|]).
  split.
  { rewrite <- filter_length_or; [apply filter_length_le|].
    intros i. unfold AdminDashboard.is_level.
    destruct (Incidents.threat_level i) as [[]|]; reflexivity. }
  split.
  { intros H. unfold AdminDashboard.filterIncidents.
    apply orb_false_iff in H as [H H3]. apply orb_false_iff in H as [H1 H2].
    now rewrite H1, H2, H3. }
  split.
  { unfold AdminDashboard.filterIncidents.
    destruct (name =? "critical")%string; [apply incl_filter|].
    destruct (name =? "high")%string; [apply incl_filter|].
    destruct (name =? "pending")%string; [apply incl_filter|].
    apply incl_refl. }
  split.
  { unfold AdminDashboard.filterIncidents. simpl. intros i Hc Hh.
    apply filter_In in Hc as [_ Hc]. apply filter_In in Hh as [_ Hh].
    apply is_level_spec in Hc, Hh. congruence. }
  intros Hp. unfold AdminDashboard.filterIncidents, AdminDashboard.query.
  simpl. rewrite (select_incidents_privileged _ _ Hp). split.
  - rewrite (Permutation_filter_compat _ _ _ (order_by_perm _ _)).
    erewrite filter_ext; [reflexivity|]. intros i.
    unfold AdminDashboard.is_level.
    destruct (Incidents.threat_level i) as [[]|]; reflexivity.
  - rewrite (Permutation_filter_compat _ _ _ (order_by_perm _ _)).
    erewrite filter_ext; [reflexivity|]. intros i.
    unfold AdminDashboard.is_pending.
    destruct (Incidents.status i); reflexivity.
Qed.

Lemma admin_tabs_agree_with_counters_witness :
  is_privileged Demo.db2 (Some "a1") = true
  /\ AdminDashboard.filterIncidents
       (AdminDashboard.query Demo.db2 (Some "a1")) "resolved"
     = AdminDashboard.query Demo.db2 (Some "a1")
  /\ map Incidents.id (AdminDashboard.query Demo.db2 (Some "a1"))
     = ["i4"; "i3"; "i1"]
  /\ Permutation
       (AdminDashboard.filterIncidents
          (AdminDashboard.query Demo.db2 (Some "a1")) "pending")
       (filter (fun i => match Incidents.status i with
                         | submitted | under_review => true
                         | _ => false
                         end) (incidents Demo.db2)).
Proof.
  destruct (admin_tabs_agree_with_counters Demo.db2 (Some "a1")
              (AdminDashboard.query Demo.db2 (Some "a1")) "resolved")
    as (_ & _ & _ & _ & _ & H1 & _ & _ & H2).
  split; [reflexivity|]. split; [apply H1; reflexivity|].
  split; [reflexivity|]. apply H2. reflexivity.
Defined.

(** ** A submission seen from the dashboards *)

(** X16. An incident that [handleSubmit] has inserted is on the filer's
    dashboard and, for a caller who holds [admin] or [cert_admin], under
    the "pending" tab of the admin dashboard and under neither
    "critical" nor "high"; a user who is neither the filer nor
    privileged gets it from neither query. *)
Theorem submitted_incident_reaches_the_dashboards :
  forall (db db1 : Database) (env : submit_env) (u a : uuid)
         (form : FormData.t) (files : list File.t)
         (incident : Incidents.row),
    submit_incident db env u form = Ok (db1, incident) ->
    is_privileged db (Some a) = true ->
    let db' := run_db (handleSubmit db env (Some u) form files) in
    In incident (Dashboard.query db' u)
    /\ In incident
         (AdminDashboard.filterIncidents (AdminDashboard.query db' (Some a))
            "pending")
    /\ ~ In incident
         (AdminDashboard.filterIncidents (AdminDashboard.query db' (Some a))
            "critical")
    /\ ~ In incident
         (AdminDashboard.filterIncidents (AdminDashboard.query db' (Some a))
            "high")
    /\ (forall v, v <> u -> is_privileged db (Some v) = false ->
          ~ In incident (AdminDashboard.query db' (Some v))
          /\ ~ In incident (Dashboard.query db' v)).
Proof.
  intros db db1 env u a form files incident Hs Ha db'.
  pose proof (handleSubmit_ok _ _ _ _ _ files _ Hs) as Hr.
  destruct (upload_files_keeps env u incident files 0%nat db1)
    as (_ & _ & Hroles & _).
  destruct (upload_files_spec env u incident files 0%nat db1)
    as (_ & _ & Hinc & _).
  apply submit_incident_ok in Hs as (Hu & Hst & Hth & Hdb1 & _).
  assert (Hin : In incident (incidents db')).
  { unfold db'. rewrite Hr. simpl. rewrite Hinc, Hdb1. simpl.
    apply in_or_app. right. now left. }
  assert (Hur : user_roles db' = user_roles db).
  { unfold db'. rewrite Hr. simpl. rewrite Hroles, Hdb1. reflexivity. }
  assert (Hpriv : forall C, is_privileged db' C = is_privileged db C).
  { intros C. unfold is_privileged.
    now rewrite !(has_role_only_user_roles db db' C _ Hur). }
  assert (Hq : forall C, In incident (AdminDashboard.query db' C) <->
                         uid_eq C u || is_privileged db C = true).
  { intros C. unfold AdminDashboard.query. split.
    - intros H. apply (Permutation_in _ (order_by_perm _ _)) in H.
      unfold select_incidents in H. apply filter_In in H as [_ H].
      now rewrite incidents_can_select, Hu, Hpriv in H.
    - intros H. apply (Permutation_in _ (Permutation_sym (order_by_perm _ _))).
      unfold select_incidents. apply filter_In. split; [exact Hin|].
      now rewrite incidents_can_select, Hu, Hpriv. }
  assert (Hq' : In incident (AdminDashboard.query db' (Some a)))
    by (apply Hq; rewrite Ha; apply orb_true_r).
  split.
  { unfold Dashboard.query.
    apply (Permutation_in _ (Permutation_sym (order_by_perm _ _))).
    rewrite select_incidents_own. apply filter_In. split; [exact Hin|].
    rewrite Hu. apply String.eqb_refl. }
  split.
  { unfold AdminDashboard.filterIncidents. simpl. apply filter_In.
    split; [exact Hq'|]. unfold AdminDashboard.is_pending.
    now rewrite Hst. }
  split.
  { unfold AdminDashboard.filterIncidents. simpl. intros H.
    apply filter_In in H as [_ H]. apply is_level_spec in H. congruence. }
  split.
  { unfold AdminDashboard.filterIncidents. simpl. intros H.
    apply filter_In in H as [_ H]. apply is_level_spec in H. congruence. }
  intros v Hv Hnp. split.
  - intros H. apply Hq in H. rewrite Hnp, orb_false_r in H. simpl in H.
    apply String.eqb_eq in H. contradiction.
  - unfold Dashboard.query. intros H.
    apply (Permutation_in _ (order_by_perm _ _)) in H.
    rewrite select_incidents_own in H. apply filter_In in H as [_ H].
    rewrite Hu in H. apply String.eqb_eq in H. congruence.
Qed.

Lemma submitted_incident_reaches_the_dashboards_witness :
  exists db1 incident,
    submit_incident Sample.db Sample.env "u1" Sample.form = Ok (db1, incident)
    /\ is_privileged Sample.db (Some "a1") = true
    /\ In incident
         (AdminDashboard.filterIncidents
            (AdminDashboard.query
               (run_db (handleSubmit Sample.db Sample.env (Some "u1")
                          Sample.form Sample.files)) (Some "a1"))
            "pending").
Proof.
  do 2 eexists. split; [reflexivity|]. split; [reflexivity|].
  exact (proj1 (proj2 (submitted_incident_reaches_the_dashboards Sample.db _
                         Sample.env "u1" "a1" Sample.form Sample.files _
                         eq_refl eq_refl))).
Defined.

(** ** Triage *)

Lemma with_incidents_id (db : Database) : with_incidents db (incidents db) = db.
Proof. now destruct db. Qed.

Lemma targets_reaches (db : Database) (C : option uuid) (incidentId : string)
    (r : Incidents.row) :
  targets incidents_policies UPDATE db C
    (fun r => String.eqb (Incidents.id r) incidentId) r
  = reaches db C incidentId r.
Proof.
  unfold targets, reaches.
  rewrite incidents_can_select, incidents_passes_using_update.
  destruct (Incidents.id r =? incidentId)%string,
    (uid_eq C (Incidents.user_id r) || is_privileged db C); reflexivity.
Qed.

(** What an update by id with a payload that names no key column does. *)
Lemma update_by_id (db : Database) (C : option uuid) (now : timestamptz)
    (incidentId : string) (v : IncidentsUpdate.t) :
  incidents_constraints db (incidents db) = Ok tt ->
  IncidentsUpdate.id v = None ->
  IncidentsUpdate.user_id v = None ->
  IncidentsUpdate.assigned_to v = None ->
  int4_in (default None (IncidentsUpdate.priority_score v)) = Ok tt ->
  exists db',
    update_incidents db C now
      (fun r => String.eqb (Incidents.id r) incidentId) v = Ok db'
    /\ db' = with_incidents db (incidents db')
    /\ Forall2
         (fun old new =>
            if reaches db C incidentId old
            then new = set_updated_at now (incidents_set v old)
            else new = old)
         (incidents db) (incidents db')
    /\ ((forall r, In r (incidents db) -> reaches db C incidentId r = false)
        -> db' = db).
Proof.
  intros Hc Hid Hu Ha Hp. eexists.
  split; [now apply update_incidents_succeeds|]. simpl.
  split; [reflexivity|]. split.
  - apply Forall2_map_updated. intros old. unfold updated.
    rewrite targets_reaches. destruct (reaches db C incidentId old);
      reflexivity.
  - intros Hno.
    assert (E : map (updated incidents_policies handle_updated_at db C now
                       (fun r => (Incidents.id r =? incidentId)%string)
                       (incidents_set v)) (incidents db)
                = incidents db).
    { transitivity (map (fun x => x) (incidents db)); [|apply map_id].
      apply map_ext_in. intros r Hr. unfold updated.
      now rewrite targets_reaches, (Hno r Hr). }
    rewrite E. apply with_incidents_id.
Qed.

(** X17. [updateIncidentStatus] and [updateThreatLevel], on a consistent
    table and with the request served. A label that is not of the enum
    fails on the cast: nothing changes and "Update failed" is shown. A
    label of the enum never fails: the rows with the id that the caller
    filed or, holding [admin] or [cert_admin], may manage get the value
    and the server's time as [updated_at], every other row and table
    stays, and the success toast is shown, also when the id matches no
    row the caller reaches and nothing has changed. Only the status
    update closes the dialog. *)
Theorem triage_updates_report_success_whatever_matched :
  forall (db : Database) (C : option uuid) (now : timestamptz)
         (incidentId label : string),
    incidents_constraints db (incidents db) = Ok tt ->
    match incident_status_in label with
    | None =>
        AdminDashboard.updateIncidentStatus db C now true incidentId label
        = (db,
           [ AdminDashboard.ui
               (toast "Update failed"
                  (error_message (invalid_enum_value "incident_status" label))
                  true) ])
    | Some s =>
        exists db',
          AdminDashboard.updateIncidentStatus db C now true incidentId label
          = (db',
             [ AdminDashboard.ui
                 (toast "Status updated"
                    "Incident status has been updated successfully" false);
               AdminDashboard.ui fetchAllIncidents;
               AdminDashboard.setDetailsOpen false ])
          /\ db' = with_incidents db (incidents db')
          /\ Forall2
               (fun old new =>
                  if reaches db C incidentId old
                  then Incidents.status new = s
                       /\ Incidents.updated_at new = now
                       /\ new = set_updated_at now
                                  (incidents_set
                                     (AdminDashboard.status_payload s) old)
                  else new = old)
               (incidents db) (incidents db')
          /\ ((forall r, In r (incidents db) ->
                         reaches db C incidentId r = false) -> db' = db)
    end
    /\ match threat_level_in label with
       | None =>
           AdminDashboard.updateThreatLevel db C now true incidentId label
           = (db,
              [ AdminDashboard.ui
                  (toast "Update failed"
                     (error_message (invalid_enum_value "threat_level" label))
                     true) ])
       | Some l =>
           exists db',
             AdminDashboard.updateThreatLevel db C now true incidentId label
             = (db',
                [ AdminDashboard.ui
                    (toast "Threat level updated"
                       "Incident threat level has been updated" false);
                  AdminDashboard.ui fetchAllIncidents ])
             /\ db' = with_incidents db (incidents db')
             /\ Forall2
                  (fun old new =>
                     if reaches db C incidentId old
                     then Incidents.threat_level new = Some l
                          /\ Incidents.updated_at new = now
                          /\ new = set_updated_at now
                                     (incidents_set
                                        (AdminDashboard.threat_level_payload l)
                                        old)
                     else new = old)
                  (incidents db) (incidents db')
             /\ ((forall r, In r (incidents db) ->
                            reaches db C incidentId r = false) -> db' = db)
       end.
Proof.
  intros db C now incidentId label Hc. split.
  - unfold AdminDashboard.updateIncidentStatus,
      AdminDashboard.update_status_request.
    destruct (incident_status_in label) as [s|]; [|reflexivity].
    destruct (update_by_id db C now incidentId
                (AdminDashboard.status_payload s) Hc eq_refl eq_refl eq_refl
                eq_refl)
      as (db' & Hup & Hdb & Hall & Hno).
    exists db'. simpl. rewrite Hup. split; [reflexivity|].
    split; [exact Hdb|]. split; [|exact Hno].
    eapply Forall2_impl; [|exact Hall]. intros old new H. cbv beta in *.
    destruct (reaches db C incidentId old); [|exact H]. subst new.
    repeat split; reflexivity.
  - unfold AdminDashboard.updateThreatLevel,
      AdminDashboard.update_threat_level_request.
    destruct (threat_level_in label) as [l|]; [|reflexivity].
    destruct (update_by_id db C now incidentId
                (AdminDashboard.threat_level_payload l) Hc eq_refl eq_refl
                eq_refl eq_refl)
      as (db' & Hup & Hdb & Hall & Hno).
    exists db'. simpl. rewrite Hup. split; [reflexivity|].
    split; [exact Hdb|]. split; [|exact Hno].
    eapply Forall2_impl; [|exact Hall]. intros old new H. cbv beta in *.
    destruct (reaches db C incidentId old); [|exact H]. subst new.
    repeat split; reflexivity.
Qed.

Lemma triage_updates_report_success_whatever_matched_witness :
  incidents_constraints Demo.db2 (incidents Demo.db2) = Ok tt
  /\ (forall r, In r (incidents Demo.db2) ->
                reaches Demo.db2 (Some "u1") "i3" r = false)
  /\ AdminDashboard.updateIncidentStatus Demo.db2 (Some "u1") 99 true "i3"
       "closed"
     = (Demo.db2,
        [ AdminDashboard.ui
            (toast "Status updated"
               "Incident status has been updated successfully" false);
          AdminDashboard.ui fetchAllIncidents;
          AdminDashboard.setDetailsOpen false ]).
Proof.
  assert (Hno : forall r, In r (incidents Demo.db2) ->
                          reaches Demo.db2 (Some "u1") "i3" r = false).
  { intros r [<-|[<-|[<-|[]]]]; reflexivity. }
  split; [reflexivity|]. split; [exact Hno|].
  pose proof (proj1 (triage_updates_report_success_whatever_matched Demo.db2
                       (Some "u1") 99 "i3" "closed" eq_refl)) as H.
  simpl in H. destruct H as (db' & Hrun & _ & _ & Hsame).
  rewrite Hrun. f_equal. now apply Hsame.
Defined.

(** ** The list of attached files *)

Lemma filter_index_past {A} (l : list A) :
  forall (m k : nat),
    (k < m)%nat -> filter_index (fun _ i => negb (Nat.eqb i k)) m l = l.
Proof.
  induction l as [|x l IH]; intros m k Hk; simpl; [reflexivity|].
  replace (m =? k)%nat with false by (symmetry; apply Nat.eqb_neq; lia).
  simpl. f_equal. apply IH. lia.
Qed.

Lemma filter_index_drop {A} (l : list A) :
  forall (k index : nat),
    filter_index (fun _ i => negb (Nat.eqb i (k + index))) k l
    = firstn index l ++ skipn (S index) l.
Proof.
  induction l as [|x l IH]; intros k index.
  - now destruct index.
  - destruct index as [|index].
    + cbn [filter_index firstn skipn app].
      rewrite Nat.add_0_r, Nat.eqb_refl. cbn [negb].
      apply filter_index_past. lia.
    + cbn [filter_index firstn skipn app].
      replace (k =? k + S index)%nat with false
        by (symmetry; apply Nat.eqb_neq; lia).
      cbn [negb]. f_equal.
      replace (k + S index)%nat with (S k + index)%nat by lia. apply IH.
Qed.

(** X18. [removeFile] takes out the file at the index and keeps the
    others in order; an index past the end removes nothing; removing the
    last index after one file has been added gives the list back;
    [handleFileChange] appends what was selected, a file already in the
    list included, and keeps the list when nothing was selected. *)
Theorem attached_files_add_and_remove :
  forall (prev selected : list File.t) (index : nat) (file : File.t),
    removeFile index prev = firstn index prev ++ skipn (S index) prev
    /\ (if (index <? List.length prev)%nat
        then S (List.length (removeFile index prev)) = List.length prev
        else removeFile index prev = prev)
    /\ removeFile (List.length prev) (handleFileChange (Some [file]) prev)
       = prev
    /\ handleFileChange (Some selected) prev = prev ++ selected
    /\ handleFileChange None prev = prev
    /\ List.length (handleFileChange (Some [file]) (prev ++ [file]))
       = S (S (List.length prev)).
Proof.
  intros prev selected index file.
  assert (H : forall i l, removeFile i l = firstn i l ++ skipn (S i) l).
  { intros i l. unfold removeFile. apply (filter_index_drop l 0 i). }
  split; [apply H|]. split; [|split; [|split; [|split]]].
  - rewrite H. destruct (index <? List.length prev)%nat eqn:E.
    + apply Nat.ltb_lt in E.
      rewrite length_app, length_firstn, length_skipn. lia.
    + apply Nat.ltb_ge in E.
      rewrite firstn_all2, skipn_all2 by lia. apply app_nil_r.
  - unfold handleFileChange. rewrite H.
    rewrite (skipn_all2 (n := S (List.length prev)))
      by (rewrite length_app; simpl; lia).
    rewrite firstn_app, firstn_all, Nat.sub_diag. simpl.
    now rewrite !app_nil_r.
  - reflexivity.
  - reflexivity.
  - simpl. rewrite !length_app. simpl. lia.
Qed.

(** ** Enum labels *)

(** X19. The labels the generated constants list for [incident_type],
    [incident_status] and [threat_level] are exactly the texts the enum
    types take, and a value is read back from its label. A form whose
    type is none of the six labels, as the form is before a type is
    chosen, creates nothing: the insert fails on the cast and
    [handleSubmit] leaves the database as it was and reports the
    failure. *)
Theorem enum_labels_are_the_accepted_inputs :
  (forall t, incident_type_in (incident_type_out t) = Some t)
  /\ (forall s, incident_status_in (incident_status_out s) = Some s)
  /\ (forall l, threat_level_in (threat_level_out l) = Some l)
  /\ (forall text,
        existsb (String.eqb text) Constants.incident_type
        = match incident_type_in text with Some _ => true | None => false end)
  /\ (forall text,
        existsb (String.eqb text) Constants.incident_status
        = match incident_status_in text with Some _ => true | None => false end)
  /\ (forall text,
        existsb (String.eqb text) Constants.threat_level
        = match threat_level_in text with Some _ => true | None => false end)
  /\ (forall (db : Database) (env : submit_env) (u : uuid)
             (form : FormData.t) (files : list File.t),
        existsb (String.eqb (FormData.incident_type form))
          Constants.incident_type = false ->
        run_db (handleSubmit db env (Some u) form files) = db
        /\ run_files (handleSubmit db env (Some u) form files) = []
        /\ reports_failure (run_ui (handleSubmit db env (Some u) form files))
           = true).
Proof.
  split; [now intros []|]. split; [now intros []|]. split; [now intros []|].
  assert (H1 : forall text,
             existsb (String.eqb text) Constants.incident_type
             = match incident_type_in text with
               | Some _ => true | None => false end).
  { intros text. unfold incident_type_in. simpl.
    repeat match goal with
           | |- context [(text =? ?l)%string] =>
               destruct (text =? l)%string; [reflexivity|]
           end. reflexivity. }
  split; [exact H1|]. split; [|split].
  - intros text. unfold incident_status_in. simpl.
    repeat match goal with
           | |- context [(text =? ?l)%string] =>
               destruct (text =? l)%string; [reflexivity|]
           end. reflexivity.
  - intros text. unfold threat_level_in. simpl.
    repeat match goal with
           | |- context [(text =? ?l)%string] =>
               destruct (text =? l)%string; [reflexivity|]
           end. reflexivity.
  - intros db env u form files H. rewrite H1 in H.
    unfold handleSubmit, submit_incident.
    destruct (incident_type_in (FormData.incident_type form));
      [discriminate|].
    unfold request. destruct (served (incident_env env)); simpl;
      repeat split; reflexivity.
Qed.

Lemma enum_labels_are_the_accepted_inputs_witness :
  existsb (String.eqb "") Constants.incident_type = false
  /\ run_db (handleSubmit Sample.db Sample.env (Some "u1")
               (FormData.mk "t" "d" "" "" "") Sample.files) = Sample.db.
Proof.
  split; [reflexivity|].
  apply (proj2 (proj2 (proj2 (proj2 (proj2 (proj2
           enum_labels_are_the_accepted_inputs)))))
           Sample.db Sample.env "u1" (FormData.mk "t" "d" "" "" "")
           Sample.files).
  reflexivity.
Defined.

(** ** Evidence of a submission *)

Lemma incident_files_can_select (db : Database) (C : option uuid)
    (F : IncidentFiles.row) :
  can_select incident_files_policies db C F
  = owns_incident db C (IncidentFiles.incident_id F) || is_privileged db C.
Proof.
  unfold can_select, passes_using, eval_using, is_privileged. simpl.
  now rewrite orb_false_r, owns_parent_incident_spec.
Qed.

Lemma owns_fresh_incident (db : Database) (C : option uuid)
    (incident : Incidents.row) :
  mem (Incidents.id incident) (map Incidents.id (incidents db)) = false ->
  owns_incident (with_incidents db (incidents db ++ [incident])) C
    (Incidents.id incident)
  = uid_eq C (Incidents.user_id incident).
Proof.
  intros H. unfold owns_incident. simpl. rewrite existsb_app. simpl.
  rewrite String.eqb_refl, orb_false_r. simpl.
  replace (existsb _ (incidents db)) with false; [reflexivity|].
  symmetry. induction (incidents db) as [|x l IH]; simpl in *; [reflexivity|].
  apply orb_false_iff in H as [Hx Hl]. rewrite (IH Hl), orb_false_r.
  now rewrite String.eqb_sym, Hx.
Qed.

(** X20. The rows [handleSubmit] writes for the files of an incident can
    be selected by the filer and by the holders of [admin] or
    [cert_admin], and by nobody else. *)
Theorem evidence_rows_are_for_the_filer_and_admins :
  forall (db db1 : Database) (env : submit_env) (u : uuid)
         (form : FormData.t) (files : list File.t)
         (incident : Incidents.row) (C : option uuid)
         (F : IncidentFiles.row),
    submit_incident db env u form = Ok (db1, incident) ->
    IncidentFiles.incident_id F = Incidents.id incident ->
    can_select incident_files_policies
      (run_db (handleSubmit db env (Some u) form files)) C F
    = uid_eq C u || is_privileged db C.
Proof.
  intros db db1 env u form files incident C F Hs HF.
  pose proof (handleSubmit_ok _ _ _ _ _ files _ Hs) as Hr.
  destruct (upload_files_keeps env u incident files 0%nat db1)
    as (_ & _ & Hroles & _).
  destruct (upload_files_spec env u incident files 0%nat db1)
    as (_ & _ & Hinc & _).
  apply submit_incident_ok in Hs as (Hu & _ & _ & Hdb1 & Hfresh).
  rewrite incident_files_can_select, Hr, HF. simpl.
  f_equal.
  - unfold owns_incident. rewrite Hinc.
    pose proof (owns_fresh_incident db C incident Hfresh) as Ho.
    unfold owns_incident in Ho. rewrite <- Hdb1 in Ho. now rewrite Ho, Hu.
  - assert (E : user_roles (run_db (upload_files env 0 u incident files db1))
                = user_roles db) by (now rewrite Hroles, Hdb1).
    unfold is_privileged.
    now rewrite !(has_role_only_user_roles db _ C _ E).
Qed.

Lemma evidence_rows_are_for_the_filer_and_admins_witness :
  exists db1 incident,
    submit_incident Sample.db Sample.env "u1" Sample.form = Ok (db1, incident)
    /\ IncidentFiles.incident_id
         (IncidentFiles.mk "f0" "i2" "screen.png" "u1/i2/5000.png"
            "image/png" (Some 2048) 31)
       = Incidents.id incident
    /\ can_select incident_files_policies
         (run_db (handleSubmit Sample.db Sample.env (Some "u1")
                    Sample.form Sample.files)) (Some "u1")
         (IncidentFiles.mk "f0" "i2" "screen.png" "u1/i2/5000.png"
            "image/png" (Some 2048) 31)
       = true.
Proof.
  do 2 eexists. split; [reflexivity|]. split; [reflexivity|].
  exact (eq_trans
           (evidence_rows_are_for_the_filer_and_admins Sample.db _ Sample.env
              "u1" Sample.form Sample.files _ (Some "u1")
              (IncidentFiles.mk "f0" "i2" "screen.png" "u1/i2/5000.png"
                 "image/png" (Some 2048) 31) eq_refl eq_refl)
           eq_refl).
Defined.

(** ** File extensions *)

Lemma split_no_sep (sep : ascii) (s : string) :
  has_char sep s = false -> split sep s = [s].
Proof.
  induction s as [|c s IH]; simpl; [reflexivity|]. intros H.
  apply orb_false_iff in H as [Hc Hs]. now rewrite Hc, (IH Hs).
Qed.

Lemma last_split_no_sep (sep : ascii) (s : string) :
  has_char sep (last (split sep s) "") = false.
Proof.
  induction s as [|c s IH]; simpl; [reflexivity|].
  destruct (Ascii.eqb c sep) eqn:E.
  - destruct (split_cons sep s) as (x & xs & Hx). rewrite Hx in *.
    exact IH.
  - destruct (split_cons sep s) as (x & xs & Hx). rewrite Hx in *.
    destruct xs as [|y ys]; simpl in *; [now rewrite E|exact IH].
Qed.

(** X21. The extension [handleSubmit] puts in the key of a file is what
    follows the last dot of the file's name: it has no dot itself, it is
    the whole name when the name has no dot, and it is empty when the
    name ends in a dot. *)
Theorem extension_is_what_follows_the_last_dot :
  forall (name : string),
    has_char "." (last (split "." name) "") = false
    /\ (has_char "." name = false -> last (split "." name) "" = name)
    /\ last (split "." (name ++ ".")) "" = ""
    /\ (forall ext, has_char "." ext = false ->
                    last (split "." (name ++ String "." ext)) "" = ext).
Proof.
  intros name. split; [apply last_split_no_sep|].
  split; [intros H; now rewrite (split_no_sep _ _ H)|].
  assert (H : forall ext, has_char "." ext = false ->
                          last (split "." (name ++ String "." ext)) "" = ext).
  { intros ext He. induction name as [|c s IH]; simpl.
    - now rewrite (split_no_sep _ _ He).
    - destruct (Ascii.eqb c "."); simpl.
      + destruct (split_cons "." (s ++ String "." ext)) as (x & xs & Hx).
        now rewrite Hx in *.
      + destruct (split_cons "." (s ++ String "." ext)) as (x & xs & Hx).
        rewrite Hx in *. destruct xs as [|y ys]; [|exact IH].
        simpl in IH. subst x.
        assert (Hlen : List.length (split "." (s ++ String "." ext)) = 1%nat)
          by (now rewrite Hx).
        exfalso. clear - Hlen. revert Hlen.
        induction s as [|d s IHs]; simpl.
        * destruct (split_cons "." ext) as (x & xs & ->). discriminate.
        * destruct (Ascii.eqb d ".").
          -- destruct (split_cons "." (s ++ String "." ext))
               as (x & xs & ->). discriminate.
          -- destruct (split_cons "." (s ++ String "." ext))
               as (x & xs & Hx). rewrite Hx in *. simpl. exact IHs. }
  split; [apply (H ""); reflexivity | exact H].
Qed.

Lemma extension_is_what_follows_the_last_dot_witness :
  has_char "." "README" = false
  /\ fileName_of "u1" "i1" 5000 (File.mk "README" "text/plain" 1%N)
     = "u1/i1/5000.README"
  /\ last (split "." "README") "" = "README".
Proof.
  split; [reflexivity|]. split; [reflexivity|].
  apply (proj1 (proj2 (extension_is_what_follows_the_last_dot "README"))).
  reflexivity.
Defined.
